(** * ManagedContainer: a handle-addressed registry of managed objects

    Shallow embedding of [esp::core::ManagedContainer<T>]
    (src/esp/core/ManagedContainer.h).  Managed objects live behind shared
    pointers, so the embedding keeps an explicit store of objects and lets
    the container maps hold addresses into it: which instance is returned,
    and which instance a mutation reaches, is then visible in the model. *)

From stdpp Require Import gmap strings list fin_maps.
From Stdlib Require Import ZArith Lia.

Local Open Scope string_scope.
Local Open Scope list_scope.

(** ** Managed objects *)

(** Modelled from the spec: the sentinel "undefined" ID, the only negative
    ID value; the constant [ID_UNDEFINED] is declared outside
    ManagedContainer.h. *)
Definition ID_UNDEFINED : Z := (-1)%Z.

(** The capabilities of [AbstractManagedObject] that the container uses:
    a handle, a numeric ID and a class key, next to the family-specific
    contents [Fields]. *)
Record ManagedObject (Fields : Type) : Type := mkManagedObject {
  getHandle : string;
  getID : Z;
  getClassKey : string;
  getFields : Fields
}.
Arguments mkManagedObject {Fields} _ _ _ _.
Arguments getHandle {Fields} _.
Arguments getID {Fields} _.
Arguments getClassKey {Fields} _.
Arguments getFields {Fields} _.

Definition setHandle {Fields} (h : string) (o : ManagedObject Fields) :
    ManagedObject Fields :=
  mkManagedObject h (getID o) (getClassKey o) (getFields o).

Definition setID {Fields} (i : Z) (o : ManagedObject Fields) :
    ManagedObject Fields :=
  mkManagedObject (getHandle o) i (getClassKey o) (getFields o).

(** A [ManagedPtr] is a shared pointer: [None] is [nullptr], [Some l] is the
    address [l] of an object in the store. *)
Definition ManagedPtr : Type := option nat.

(** ** Outcomes of running container code *)

(** Ways in which the C++ code leaves defined behaviour. *)
Inductive Error : Type :=
  | NullDereference       (* [->] applied to [nullptr] *)
  | NullCopyConstructor   (* call through a null pointer-to-member *)
  | DanglingPointer.      (* address outside the store *)

Inductive Outcome (S A : Type) : Type :=
  | Ok (a : A) (s : S)
  | Fault (e : Error).
Arguments Ok {S A} _ _.
Arguments Fault {S A} _.

(** ** The container state *)

Section Container.
Context {Fields : Type}.

(** The members of [ManagedContainerBase] and [ManagedContainer<T>] that the
    code reads or writes, next to the store behind the shared pointers.
    [copyConstructorMap_] sends a class key to the class [U] whose
    [createObjectCopy<U>] was installed for it. *)
Record ManagedContainer : Type := mkManagedContainer {
  heap : list (ManagedObject Fields);
  objectLibrary_ : gmap string nat;
  objectLibKeyByID_ : gmap Z string;
  availableObjectIDs_ : list Z;
  undeletableObjectNames_ : gset string;
  userLockedObjectNames_ : gset string;
  copyConstructorMap_ : gmap string string
}.

Definition withHeap (f : list (ManagedObject Fields) → list (ManagedObject Fields))
    (s : ManagedContainer) : ManagedContainer :=
  mkManagedContainer (f (heap s)) (objectLibrary_ s) (objectLibKeyByID_ s)
    (availableObjectIDs_ s) (undeletableObjectNames_ s)
    (userLockedObjectNames_ s) (copyConstructorMap_ s).

Definition withLibrary (f : gmap string nat → gmap string nat)
    (s : ManagedContainer) : ManagedContainer :=
  mkManagedContainer (heap s) (f (objectLibrary_ s)) (objectLibKeyByID_ s)
    (availableObjectIDs_ s) (undeletableObjectNames_ s)
    (userLockedObjectNames_ s) (copyConstructorMap_ s).

Definition withKeyByID (f : gmap Z string → gmap Z string)
    (s : ManagedContainer) : ManagedContainer :=
  mkManagedContainer (heap s) (objectLibrary_ s) (f (objectLibKeyByID_ s))
    (availableObjectIDs_ s) (undeletableObjectNames_ s)
    (userLockedObjectNames_ s) (copyConstructorMap_ s).

Definition withAvailableIDs (f : list Z → list Z)
    (s : ManagedContainer) : ManagedContainer :=
  mkManagedContainer (heap s) (objectLibrary_ s) (objectLibKeyByID_ s)
    (f (availableObjectIDs_ s)) (undeletableObjectNames_ s)
    (userLockedObjectNames_ s) (copyConstructorMap_ s).

(** ** A state monad with faults *)

Definition M (A : Type) : Type := ManagedContainer → Outcome ManagedContainer A.

Definition ret {A} (a : A) : M A := fun s => Ok a s.

Definition bind {A B} (m : M A) (k : A → M B) : M B :=
  fun s => match m s with
           | Ok a s' => k a s'
           | Fault e => Fault e
           end.

Definition gets {A} (f : ManagedContainer → A) : M A := fun s => Ok (f s) s.

Definition modify (f : ManagedContainer → ManagedContainer) : M unit :=
  fun s => Ok tt (f s).

Definition fault {A} (e : Error) : M A := fun _ => Fault e.

End Container.

Arguments ManagedContainer Fields : clear implicits.
Arguments M Fields A : clear implicits.

Notation "'let*' x := m 'in' k" := (bind m (fun x => k))
  (at level 10, x name, m at level 100, k at level 200).
Notation "m ;;; k" := (bind m (fun _ => k))
  (at level 100, k at level 200, right associativity).

(** ** Collaborators of a concrete container

    The pure virtual members of [ManagedContainer<T>], implemented by the
    concrete containers of each object family, and the document loader. *)
Class ObjectFamily (Fields : Type) : Type := {
  JsonGenericValue : Type;
  (** [verifyLoadDocument]: the parsed document, or none when the file
      cannot be read as JSON. *)
  verifyLoadDocument : string → option JsonGenericValue;
  (** [buildObjectFromJSONDoc]: the object built from a parsed document. *)
  buildObjectFromJSONDoc :
    string → JsonGenericValue → option (ManagedObject Fields);
  (** [initNewObjectInternal]: the object built from defaults. *)
  initNewObjectInternal : string → bool → option (ManagedObject Fields);
  (** The registration policy applied by [registerObjectFinalize]. *)
  finalizeAccepts : ManagedObject Fields → string → bool → bool
}.

Section Operations.
Context {Fields : Type}.
Implicit Types (s : ManagedContainer Fields) (o : ManagedObject Fields).

(** *** Store access through shared pointers *)

(** [*p]: reading through a pointer. *)
Definition deref (p : ManagedPtr) : M Fields (ManagedObject Fields) :=
  fun s => match p with
           | None => Fault NullDereference
           | Some l => match heap s !! l with
                       | Some o => Ok o s
                       | None => Fault DanglingPointer
                       end
           end.

(** [p->set...(..)]: writing through a pointer. *)
Definition update (p : ManagedPtr)
    (f : ManagedObject Fields → ManagedObject Fields) : M Fields unit :=
  let* o := deref p in
  match p with
  | Some l => modify (withHeap (fun hp => <[l := f o]> hp))
  | None => fault NullDereference
  end.

(** Allocation of a new object; its address is new to the store. *)
Definition alloc (o : ManagedObject Fields) : M Fields nat :=
  fun s => Ok (length (heap s)) (withHeap (fun hp => hp ++ [o]) s).

(** *** Members of ManagedContainerBase *)

(** Modelled from the spec: [getObjectLibHasHandle] of
    ManagedContainerBase.h, whether the handle is indexed by the
    handle-to-object map. *)
Definition getObjectLibHasHandle (objectHandle : string) s : bool :=
  bool_decide (is_Some (objectLibrary_ s !! objectHandle)).

(** Modelled from the spec: [checkExistsWithMessage] of
    ManagedContainerBase.h, the existence test of the not-found policy; the
    message it logs is not part of the state. *)
Definition checkExistsWithMessage (objectHandle src : string) s : bool :=
  getObjectLibHasHandle objectHandle s.

(** Modelled from the spec: [getObjectHandleByID] of ManagedContainerBase.h,
    the ID is resolved to its handle through the ID-to-handle map; an
    unresolved ID gives the empty handle. *)
Definition getObjectHandleByID (objectID : Z) s : string :=
  default "" (objectLibKeyByID_ s !! objectID).

(** Modelled from the spec: [getObjectInternal] of ManagedContainerBase.h,
    the stored instance under a handle. *)
Definition getObjectInternal (objectHandle : string) s : ManagedPtr :=
  objectLibrary_ s !! objectHandle.

(** Modelled from the spec: [setObjectInternal] of ManagedContainerBase.h,
    stores the instance under the handle, replacing an earlier entry. *)
Definition setObjectInternal (ptr : nat) (objectHandle : string) :
    M Fields unit :=
  modify (withLibrary (fun lib => <[objectHandle := ptr]> lib)).

(** The largest ID in use, [-1] when no ID is in use. *)
Definition maxUsedID s : Z :=
  foldr Z.max (-1)%Z (fst <$> map_to_list (objectLibKeyByID_ s)).

Definition lowestID (x : Z) (xs : list Z) : Z := foldr Z.min x xs.

Fixpoint removeID (m : Z) (xs : list Z) : list Z :=
  match xs with
  | [] => []
  | x :: xs' => if decide (x = m) then xs' else x :: removeID m xs'
  end.

(** Modelled from the spec: [getUnusedObjectID] of ManagedContainerBase.h,
    "the smallest free ID not currently in use (consulting a reuse pool),
    or maxUsed+1 if the pool is empty". *)
Definition getUnusedObjectID : M Fields Z :=
  fun s => match availableObjectIDs_ s with
           | [] => Ok (maxUsedID s + 1)%Z s
           | x :: xs =>
               let m := lowestID x xs in
               Ok m (withAvailableIDs (removeID m) s)
           end.

(** Modelled from the spec: [deleteObjectInternal] of
    ManagedContainerBase.h, "purge both map entries, free the ID for
    reuse". *)
Definition deleteObjectInternal (objectID : Z) (objectHandle : string) :
    M Fields unit :=
  modify (withKeyByID (delete objectID)) ;;;
  modify (withLibrary (delete objectHandle)) ;;;
  modify (withAvailableIDs (cons objectID)).

(** Whether [subStr] occurs in [h]. *)
Fixpoint containsSubstring (subStr h : string) : bool :=
  String.prefix subStr h ||
  match h with
  | EmptyString => false
  | String _ h' => containsSubstring subStr h'
  end.

Definition matchesQuery (subStr : string) (contains : bool) (h : string) :
    bool :=
  Bool.eqb (containsSubstring subStr h) contains.

(** Modelled from the spec: [getObjectHandlesBySubstring] of
    ManagedContainerBase.h, "all currently-registered handles that contain
    (or, if contains=false, do not contain) the substring", in the iteration
    order of the handle index. *)
Definition getObjectHandlesBySubstring (subStr : string) (contains : bool) s :
    list string :=
  filter (fun h => matchesQuery subStr contains h = true)
         (fst <$> map_to_list (objectLibrary_ s)).

(** *** Members of ManagedContainer<T> *)

Context {family : ObjectFamily Fields}.

(** [createObjectCopy<U>]: [U::create] applied to the object behind [orig],
    the copy constructor of the class; the copy is a new object with the
    contents of the original. *)
Definition createObjectCopy (U : string) (orig : ManagedPtr) : M Fields nat :=
  let* o := deref orig in
  alloc o.

(** [copyObject]: dispatch on the class key.  For a key without an entry,
    [operator[]] of the map yields a null pointer-to-member, and the call
    through it leaves defined behaviour.  The result is the address of the
    object that [U::create] allocates, never [nullptr]. *)
Definition copyObject (origAttr : ManagedPtr) : M Fields nat :=
  let* o := deref origAttr in
  let ctorKey := getClassKey o in
  let* ctors := gets copyConstructorMap_ in
  match ctors !! ctorKey with
  | Some U => createObjectCopy U origAttr
  | None => fault NullCopyConstructor
  end.

Definition getObjectIDByHandleOrNew (objectHandle : string) (getNext : bool) :
    M Fields Z :=
  let* has := gets (getObjectLibHasHandle objectHandle) in
  if has then
    let* ptr := gets (getObjectInternal objectHandle) in
    let* o := deref ptr in
    ret (getID o)
  else if negb getNext then ret ID_UNDEFINED
  else getUnusedObjectID.

(** [std::map::emplace]: inserts only when the key has no entry yet. *)
Definition emplace (k : Z) (v : string) (m : gmap Z string) : gmap Z string :=
  match m !! k with
  | Some _ => m
  | None => <[k := v]> m
  end.

Definition addObjectToLibrary (object : ManagedPtr) (objectHandle : string) :
    M Fields Z :=
  update object (setHandle objectHandle) ;;;
  let* objectID := getObjectIDByHandleOrNew objectHandle true in
  update object (setID objectID) ;;;
  let* managedObjectCopy := copyObject object in
  setObjectInternal managedObjectCopy objectHandle ;;;
  modify (withKeyByID (emplace objectID objectHandle)) ;;;
  ret objectID.

(** Modelled from the spec: [registerObjectFinalize], pure virtual in
    ManagedContainer.h and implemented by the concrete containers: the
    family-specific finalize step "may itself reject registration", and "on
    acceptance" the object is added to the library under the resolved
    handle. *)
Definition registerObjectFinalize (object : ManagedPtr)
    (objectHandle : string) (forceRegistration : bool) : M Fields Z :=
  let* o := deref object in
  if finalizeAccepts o objectHandle forceRegistration
  then addObjectToLibrary object objectHandle
  else ret ID_UNDEFINED.

Definition registerObject (managedObject : ManagedPtr)
    (objectHandle : string) (forceRegistration : bool) : M Fields Z :=
  match managedObject with
  | None => ret ID_UNDEFINED
  | Some _ =>
      if negb (String.eqb "" objectHandle) then
        registerObjectFinalize managedObject objectHandle forceRegistration
      else
        let* o := deref managedObject in
        let handleToSet := getHandle o in
        if String.eqb "" handleToSet then ret ID_UNDEFINED
        else registerObjectFinalize managedObject handleToSet
               forceRegistration
  end.

Definition registerObjectAndUpdate (managedObject : ManagedPtr) : M Fields Z :=
  let* o := deref managedObject in
  let originalHandle := getHandle o in
  let* ID := registerObject managedObject originalHandle false in
  if decide (ID_UNDEFINED = ID) then ret ID_UNDEFINED else ret ID.

Definition getObjectByHandle (objectHandle : string) : M Fields ManagedPtr :=
  let* found :=
    gets (checkExistsWithMessage objectHandle
            "ManagedContainer::getObjectByHandle") in
  if negb found then ret None
  else gets (getObjectInternal objectHandle).

Definition getObjectByID (managedObjectID : Z) : M Fields ManagedPtr :=
  let* objectHandle := gets (getObjectHandleByID managedObjectID) in
  let* found :=
    gets (checkExistsWithMessage objectHandle
            "ManagedContainer::getObjectByID") in
  if negb found then ret None
  else gets (getObjectInternal objectHandle).

Definition getObjectIDByHandle (objectHandle : string) : M Fields Z :=
  getObjectIDByHandleOrNew objectHandle false.

Definition getObjectCopyByHandle (objectHandle : string) :
    M Fields ManagedPtr :=
  let* found :=
    gets (checkExistsWithMessage objectHandle
            "ManagedContainer::getObjectCopyByHandle") in
  if negb found then ret None
  else
    let* orig := gets (getObjectInternal objectHandle) in
    let* copy := copyObject orig in
    ret (Some copy).

Definition getObjectCopyByID (managedObjectID : Z) : M Fields ManagedPtr :=
  let* objectHandle := gets (getObjectHandleByID managedObjectID) in
  let* found :=
    gets (checkExistsWithMessage objectHandle
            "ManagedContainer::getObjectCopyByID") in
  if negb found then ret None
  else
    let* orig := gets (getObjectInternal objectHandle) in
    let* copy := copyObject orig in
    ret (Some copy).

Definition removeObjectInternal (objectHandle sourceStr : string) :
    M Fields ManagedPtr :=
  let* found := gets (checkExistsWithMessage objectHandle sourceStr) in
  if negb found then ret None
  else
    let* undeletable := gets undeletableObjectNames_ in
    let* userLocked := gets userLockedObjectNames_ in
    let msg :=
      if decide (objectHandle ∈ undeletable)
      then "Required Undeletable Managed Object"
      else if decide (objectHandle ∈ userLocked)
      then "User-locked Object.  To delete managed object, unlock it"
      else "" in
    if negb (Nat.eqb (String.length msg) 0) then ret None
    else
      let* attribsTemplate := gets (getObjectInternal objectHandle) in
      let* o := deref attribsTemplate in
      deleteObjectInternal (getID o) objectHandle ;;;
      ret attribsTemplate.

Definition removeObjectByHandle (objectHandle : string) : M Fields ManagedPtr :=
  removeObjectInternal objectHandle "ManagedContainer::removeObjectByHandle".

Definition removeObjectByID (objectID : Z) : M Fields ManagedPtr :=
  let* objectHandle := gets (getObjectHandleByID objectID) in
  let* found :=
    gets (checkExistsWithMessage objectHandle
            "ManagedContainer::removeObjectByID") in
  if negb found then ret None
  else removeObjectInternal objectHandle "ManagedContainer::removeObjectByID".

(** The loop of [removeObjectsBySubstring] over the matching handles; [res]
    collects the pointers that are not null. *)
Fixpoint removeEach (handles : list string) (res : list nat) :
    M Fields (list nat) :=
  match handles with
  | [] => ret res
  | objectHandle :: rest =>
      let* ptr :=
        removeObjectInternal objectHandle
          "ManagedContainer::removeObjectsBySubstring" in
      match ptr with
      | Some l => removeEach rest (res ++ [l])
      | None => removeEach rest res
      end
  end.

Definition removeObjectsBySubstring (subStr : string) (contains : bool) :
    M Fields (list nat) :=
  let* handles := gets (getObjectHandlesBySubstring subStr contains) in
  removeEach handles [].

(** The defaults of [removeObjectsBySubstring] are [subStr = ""] and
    [contains = true]. *)
Definition removeAllObjects : M Fields (list nat) :=
  removeObjectsBySubstring "" true.

Definition postCreateRegister (object : ManagedPtr) (doRegistration : bool) :
    M Fields ManagedPtr :=
  if negb doRegistration then ret object
  else
    let* o := deref object in
    let* objID := registerObject object (getHandle o) false in
    if decide (objID = ID_UNDEFINED) then ret None else ret object.

(** A collaborator either builds no object, or its result is a new object
    of the store. *)
Definition built (r : option (ManagedObject Fields)) : M Fields ManagedPtr :=
  match r with
  | None => ret None
  | Some o => let* l := alloc o in ret (Some l)
  end.

Definition createDefaultObject (objectName : string) (registerObject : bool) :
    M Fields ManagedPtr :=
  let* object := built (initNewObjectInternal objectName false) in
  match object with
  | None => ret None
  | Some _ => postCreateRegister object registerObject
  end.

Definition createObjectFromJSONFile (filename : string)
    (registerObject : bool) : M Fields ManagedPtr :=
  match verifyLoadDocument filename with
  | None => ret None
  | Some config =>
      let* attr := built (buildObjectFromJSONDoc filename config) in
      postCreateRegister attr registerObject
  end.

End Operations.

(** ** Observations, callers and reachable states *)

Section Properties.
Context {Fields : Type} {family : ObjectFamily Fields}.
Implicit Types (s : ManagedContainer Fields) (o : ManagedObject Fields).

(** The caller edits the instance at address [l]: all of its contents may
    change. *)
Definition mutate (l : nat) (v : ManagedObject Fields) s :
    ManagedContainer Fields :=
  withHeap (fun hp => <[l := v]> hp) s.

(** The object value behind the pointer that an accessor returns; none when
    the accessor returns [nullptr] or faults. *)
Definition observe (m : M Fields ManagedPtr) s : option (ManagedObject Fields) :=
  match m s with
  | Ok (Some l) s' => heap s' !! l
  | _ => None
  end.

(** The handle that [registerObject] registers under: the explicit argument
    when it is not empty, the handle of the object otherwise. *)
Definition resolvedHandle (o : ManagedObject Fields) (objectHandle : string) :
    string :=
  if String.eqb "" objectHandle then getHandle o else objectHandle.

(** The state after [addObjectToLibrary]: the object of the caller carries
    the handle and the ID, a copy of it sits at a new address, the library
    holds that address, and the ID index has an entry for the ID. *)
Definition registeredState s (l : nat) (x : ManagedObject Fields)
    (h : string) (id : Z) (pool : list Z) : ManagedContainer Fields :=
  mkManagedContainer (<[l := x]> (heap s) ++ [x])
    (<[h := length (heap s)]> (objectLibrary_ s))
    (emplace id h (objectLibKeyByID_ s)) pool
    (undeletableObjectNames_ s) (userLockedObjectNames_ s)
    (copyConstructorMap_ s).

(** The state after the removal of handle [h], whose stored object has ID
    [i]. *)
Definition removedState s (h : string) (i : Z) : ManagedContainer Fields :=
  withAvailableIDs (cons i) (withLibrary (delete h) (withKeyByID (delete i) s)).

(** How the allocator serves a request from the pool of free IDs [pool]
    when the largest ID in use is [maxUsed]: the lowest ID of the pool,
    which leaves the pool, or [maxUsed + 1] when the pool is empty. *)
Definition allocatedFrom (pool : list Z) (maxUsed : Z) (id : Z)
    (pool' : list Z) : Prop :=
  match pool with
  | [] => id = (maxUsed + 1)%Z ∧ pool' = []
  | x :: xs => id ∈ x :: xs ∧ (∀ y, y ∈ x :: xs → (id ≤ y)%Z) ∧
               pool' = removeID id (x :: xs)
  end.

(** What a fetch of handle [h] gives in state [s]: [getObjectByHandle]
    returns the instance at [q], whose value is [x], and
    [getObjectCopyByHandle] returns an object of value [x]. *)
Definition fetchesAs (h : string) s (q : nat) (x : ManagedObject Fields) :
    Prop :=
  getObjectByHandle h s = Ok (Some q) s ∧ heap s !! q = Some x ∧
  observe (getObjectCopyByHandle h) s = Some x.


(** Every stored address is an object of the store (shared pointers do not
    dangle). *)
Definition storedValid s : Prop :=
  map_Forall (fun _ q => q < length (heap s)) (objectLibrary_ s).

Definition isProtected s (h : string) : Prop :=
  h ∈ undeletableObjectNames_ s ∨ h ∈ userLockedObjectNames_ s.

#[global] Instance isProtected_dec s h : Decision (isProtected s h).
Proof. unfold isProtected. apply _. Defined.

(** The handles that [removeObjectsBySubstring] has to remove: the
    candidates of the query that are not protected, in iteration order. *)
Definition removableMatches (subStr : string) (contains : bool) s :
    list string :=
  filter (fun h => ¬ isProtected s h)
         (getObjectHandlesBySubstring subStr contains s).

Definition isSubstringOf (subStr h : string) : Prop :=
  ∃ pre post : string, h = (pre ++ subStr ++ post)%string.

Definition queryMatches (subStr : string) (contains : bool) (h : string) :
    Prop :=
  if contains then isSubstringOf subStr h else ¬ isSubstringOf subStr h.


(** The invariant of the registry: the bijection, with the bookkeeping of
    the ID allocator that keeps it. *)
Record Consistent s : Prop := mkConsistent {
  lib_indexed : ∀ h q, objectLibrary_ s !! h = Some q →
     ∃ o, heap s !! q = Some o ∧ objectLibKeyByID_ s !! getID o = Some h;
  id_indexed : ∀ i h, objectLibKeyByID_ s !! i = Some h →
     ∃ q o, objectLibrary_ s !! h = Some q ∧ heap s !! q = Some o ∧
            getID o = i;
  ids_nonneg : ∀ i h, objectLibKeyByID_ s !! i = Some h → (0 ≤ i)%Z;
  pool_nonneg : ∀ i, i ∈ availableObjectIDs_ s → (0 ≤ i)%Z;
  pool_free : ∀ i, i ∈ availableObjectIDs_ s →
     objectLibKeyByID_ s !! i = None;
  pool_nodup : NoDup (availableObjectIDs_ s)
}.

(** The public register, remove and lookup operations. *)
Inductive Operation : Type :=
  | OpRegisterObject (managedObject : ManagedPtr) (objectHandle : string)
      (forceRegistration : bool)
  | OpRegisterObjectAndUpdate (managedObject : ManagedPtr)
  | OpRemoveObjectByHandle (objectHandle : string)
  | OpRemoveObjectByID (objectID : Z)
  | OpRemoveObjectsBySubstring (subStr : string) (contains : bool)
  | OpRemoveAllObjects
  | OpGetObjectByHandle (objectHandle : string)
  | OpGetObjectByID (managedObjectID : Z)
  | OpGetObjectIDByHandle (objectHandle : string)
  | OpGetObjectCopyByHandle (objectHandle : string)
  | OpGetObjectCopyByID (managedObjectID : Z).

(** The state after a call, when the call stays within defined behaviour. *)
Definition exec {A} (m : M Fields A) s : option (ManagedContainer Fields) :=
  match m s with
  | Ok _ s' => Some s'
  | Fault _ => None
  end.

Definition step (op : Operation) s : option (ManagedContainer Fields) :=
  match op with
  | OpRegisterObject p h f => exec (registerObject p h f) s
  | OpRegisterObjectAndUpdate p => exec (registerObjectAndUpdate p) s
  | OpRemoveObjectByHandle h => exec (removeObjectByHandle h) s
  | OpRemoveObjectByID i => exec (removeObjectByID i) s
  | OpRemoveObjectsBySubstring subStr c =>
      exec (removeObjectsBySubstring subStr c) s
  | OpRemoveAllObjects => exec removeAllObjects s
  | OpGetObjectByHandle h => exec (getObjectByHandle h) s
  | OpGetObjectByID i => exec (getObjectByID i) s
  | OpGetObjectIDByHandle h => exec (getObjectIDByHandle h) s
  | OpGetObjectCopyByHandle h => exec (getObjectCopyByHandle h) s
  | OpGetObjectCopyByID i => exec (getObjectCopyByID i) s
  end.

(** The pointer is the instance the registry stores under some handle (what
    [getObjectByHandle] and [getObjectByID] hand out). *)
Definition internalInstance s (p : ManagedPtr) : Prop :=
  ∃ l h, p = Some l ∧ objectLibrary_ s !! h = Some l.

(** The object an operation is given to register, if any. *)
Definition registeredArgument (op : Operation) : ManagedPtr :=
  match op with
  | OpRegisterObject p _ _ => p
  | OpRegisterObjectAndUpdate p => p
  | _ => None
  end.

(** The caller registers instances of its own only. *)
Definition callerOwnedArguments s (op : Operation) : Prop :=
  ¬ internalInstance s (registeredArgument op).

(** The outcome of a create operation that built the value [o] in state [s]
    and registered it, returning [r] in state [s']: [r] is the instance the
    build allocated; the library holds another instance [q] under the
    handle; both have the same value [x], which is [o] with the assigned
    ID; and [r] is stored under no handle. *)
Definition builtAndRegistered s (o : ManagedObject Fields) (r : nat)
    (s' : ManagedContainer Fields) : Prop :=
  r = length (heap s) ∧
  (∃ q x, objectLibrary_ s' !! getHandle o = Some q ∧ q ≠ r ∧
          heap s' !! q = Some x ∧ heap s' !! r = Some x ∧
          x = setID (getID x) o ∧ getID x ≠ ID_UNDEFINED) ∧
  (storedValid s → ¬ internalInstance s' (Some r)).

(** Any argument goes. *)
Definition anyArguments s (op : Operation) : Prop := True.

(** A new container: nothing registered, no ID freed yet.  The store may
    already hold objects of the caller. *)
Definition newContainer s : Prop :=
  objectLibrary_ s = ∅ ∧ objectLibKeyByID_ s = ∅ ∧ availableObjectIDs_ s = [].

(** The states reached from a new container by operations whose arguments
    are [allowed]. *)
Inductive reachable (allowed : ManagedContainer Fields → Operation → Prop) :
    ManagedContainer Fields → Prop :=
  | reachable_new s : newContainer s → reachable allowed s
  | reachable_step s op s' :
      reachable allowed s → allowed s op → step op s = Some s' →
      reachable allowed s'.

End Properties.

(** ** A concrete object family, for examples *)

Definition demoObject (h : string) (n : nat) : ManagedObject nat :=
  mkManagedObject h ID_UNDEFINED "ObjectAttributes" n.

#[local] Instance demoFamily : ObjectFamily nat := {|
  JsonGenericValue := nat;
  verifyLoadDocument f :=
    if String.eqb f "missing.json" then None else Some (String.length f);
  buildObjectFromJSONDoc f doc := Some (demoObject f doc);
  initNewObjectInternal name _ :=
    if String.eqb name "" then None else Some (demoObject name 0);
  finalizeAccepts o h force := force || negb (String.prefix "invalid" h)
|}.

(** A new container whose copy-constructor map knows [ObjectAttributes], and
    whose store holds the objects [objs] of the caller. *)
Definition demoContainer (objs : list (ManagedObject nat))
    (undeletable userLocked : gset string) : ManagedContainer nat :=
  mkManagedContainer objs ∅ ∅ [] undeletable userLocked
    {["ObjectAttributes" := "ObjectAttributes"]}.

(** The state after a call, the state itself when the call faults. *)
Definition after {A} (m : M nat A) (s : ManagedContainer nat) :
    ManagedContainer nat :=
  match m s with
  | Ok _ s' => s'
  | Fault _ => s
  end.

(** A caller that holds one object, not registered yet. *)
Definition demoCaller : ManagedContainer nat :=
  demoContainer [demoObject "a" 7] ∅ ∅.

(** The caller registered its object under the object's own handle. *)
Definition demoRegistered : ManagedContainer nat :=
  after (registerObject (Some 0) "" false) demoCaller.

(** The caller then registered, under handle b, the instance that
    [getObjectByHandle] returns for handle a. *)
Definition demoAliased : ManagedContainer nat :=
  after (registerObject (Some 1) "b" false) demoRegistered.

(** The caller edited its instance after the registration. *)
Definition demoEdited : ManagedContainer nat :=
  mutate 0 (mkManagedObject "a" 0 "ObjectAttributes" 9) demoRegistered.

(** A new container after [createDefaultObject "a" true]. *)
Definition demoCreated : ManagedContainer nat :=
  after (createDefaultObject "a" true) (demoContainer [] ∅ ∅).

(** A registry in which handle a is registered and undeletable. *)
Definition demoUndeletable : ManagedContainer nat :=
  after (createDefaultObject "a" true) (demoContainer [] {["a"]} ∅).

(** A store with an object of a class the copy-constructor map does not
    know. *)
Definition demoUnknownClass : ManagedContainer nat :=
  demoContainer [mkManagedObject "s" ID_UNDEFINED "SceneAttributes" 0] ∅ ∅.

(** The registry of the spec's example: handles chair_1, chair_2, table_1. *)
Definition demoFurniture : ManagedContainer nat :=
  after (createDefaultObject "table_1" true)
    (after (createDefaultObject "chair_2" true)
       (after (createDefaultObject "chair_1" true)
          (demoContainer [] ∅ ∅))).

(** The furniture registry after the removal of chair_1, and after the
    registration of a sofa that follows it. *)
Definition demoChairFreed : ManagedContainer nat :=
  after (removeObjectByHandle "chair_1") demoFurniture.

Definition demoSofa : ManagedContainer nat :=
  after (registerObject (Some 0) "sofa" false) demoChairFreed.

(** The furniture registry after the removal of chair_1 and then chair_2:
    IDs 0 and 1 are free, 1 was freed last. *)
Definition demoTwoFreed : ManagedContainer nat :=
  after (removeObjectByHandle "chair_2") demoChairFreed.

Definition demoSofaLowest : ManagedContainer nat :=
  after (registerObject (Some 0) "sofa" false) demoTwoFreed.

(** ** The default object *)

Section Defaults.
Context {Fields : Type}.

(** The container together with its member [defaultObj_], the object that
    provides default values; [None] is [nullptr], no default set. *)
Record DefaultedContainer : Type := mkDefaultedContainer {
  registry : ManagedContainer Fields;
  defaultObj_ : ManagedPtr
}.

(** [setDefaultObject]: the member takes the pointer it is given; no copy
    is made. *)
Definition setDefaultObject (defaultObj : ManagedPtr)
    (d : DefaultedContainer) : DefaultedContainer :=
  mkDefaultedContainer (registry d) defaultObj.

Definition clearDefaultObject (d : DefaultedContainer) : DefaultedContainer :=
  mkDefaultedContainer (registry d) None.

Definition constructFromDefault (newHandle : string)
    (d : DefaultedContainer) : Outcome DefaultedContainer ManagedPtr :=
  match defaultObj_ d with
  | None => Ok None d
  | Some _ =>
      match (let* c := copyObject (defaultObj_ d) in
             let res : ManagedPtr := Some c in
             match res with
             | Some _ => update res (setHandle newHandle)
             | None => ret tt
             end ;;;
             ret res) (registry d) with
      | Ok r s' => Ok r (mkDefaultedContainer s' (defaultObj_ d))
      | Fault e => Fault e
      end
  end.

End Defaults.

Arguments DefaultedContainer Fields : clear implicits.

(** ** The file directory of a handle *)

(** Modelled from the spec: [setFileDirectory] of AbstractManagedObject,
    declared outside ManagedContainer.h; the directory is part of the
    family-specific contents of the object. *)
Class FileDirectoryFields (Fields : Type) : Type := {
  setFileDirectory : string → Fields → Fields
}.

(** [std::string::find_last_of] for a single character: the position of its
    last occurrence, none for [npos]. *)
Fixpoint find_last_of (s : string) (c : Ascii.ascii) : option nat :=
  match s with
  | EmptyString => None
  | String a s' =>
      match find_last_of s' c with
      | Some i => Some (S i)
      | None => if Ascii.eqb a c then Some 0 else None
      end
  end.

(** The character of the path separator, code 47. *)
Definition slash : Ascii.ascii := Ascii.ascii_of_nat 47.

Section FileDirectory.
Context {Fields : Type} {fileFields : FileDirectoryFields Fields}.

(** [object->setFileDirectory(dir)] on the value of the object. *)
Definition withFileDirectory (dir : string) (o : ManagedObject Fields) :
    ManagedObject Fields :=
  mkManagedObject (getHandle o) (getID o) (getClassKey o)
    (setFileDirectory dir (getFields o)).

Definition setFileDirectoryFromHandle (object : ManagedPtr) : M Fields unit :=
  let* o := deref object in
  let handleName := getHandle o in
  match find_last_of handleName slash with
  | Some loc =>
      update object (withFileDirectory (String.substring 0 loc handleName))
  | None => ret tt
  end.

End FileDirectory.

(** ** The copy dispatch with an assertion *)

(** How a call ends for the program: it returns, it stops at a failed
    assertion, or it has left defined behaviour.  The code of the container
    has no assertion, its calls end in the first or the third way. *)
Inductive Ending (S A : Type) : Type :=
  | Returns (a : A) (s : S)
  | AssertionFailure
  | LeavesDefinedBehaviour (e : Error).
Arguments Returns {S A} _ _.
Arguments AssertionFailure {S A}.
Arguments LeavesDefinedBehaviour {S A} _.

Definition ending {S A : Type} (r : Outcome S A) : Ending S A :=
  match r with
  | Ok a s => Returns a s
  | Fault e => LeavesDefinedBehaviour e
  end.

Section AssertingDispatch.
Context {Fields : Type}.

(** The copy dispatch as the spec words it, to compare [copyObject] with:
    a class key that is absent from the map is a programming error on which
    the call fails at an assertion; with the key in the map the call is the
    one of the code. *)
Definition copyObject_asserting (origAttr : ManagedPtr)
    (s : ManagedContainer Fields) : Ending (ManagedContainer Fields) nat :=
  match deref origAttr s with
  | Ok o _ =>
      match copyConstructorMap_ s !! getClassKey o with
      | Some _ => ending (copyObject origAttr s)
      | None => AssertionFailure
      end
  | Fault e => LeavesDefinedBehaviour e
  end.

End AssertingDispatch.

(** ** More concrete inputs *)

(** A family whose documents load but give no object, and whose finalize
    step accepts nothing. *)
Definition demoSparseFamily : ObjectFamily nat := {|
  JsonGenericValue := nat;
  verifyLoadDocument f := Some (String.length f);
  buildObjectFromJSONDoc f doc := None;
  initNewObjectInternal name _ := Some (demoObject name 0);
  finalizeAccepts o h force := false
|}.

(** The caller's object is the default object of the container. *)
Definition demoDefaulted : DefaultedContainer nat :=
  setDefaultObject (Some 0) (mkDefaultedContainer demoCaller None).

(** Objects whose contents are their file directory. *)
#[local] Instance demoFileFields : FileDirectoryFields string := {|
  setFileDirectory dir _ := dir
|}.

Definition demoFileContainer : ManagedContainer string :=
  mkManagedContainer
    [mkManagedObject "data/objects/chair.json" ID_UNDEFINED
       "ObjectAttributes" ""%string;
     mkManagedObject "chair" ID_UNDEFINED "ObjectAttributes" ""%string]
    ∅ ∅ [] ∅ ∅ {["ObjectAttributes" := "ObjectAttributes"]}.

(** A caller with two objects, in a container where handle a is
    undeletable, and the state after it registered both. *)
Definition demoGuardedCaller : ManagedContainer nat :=
  demoContainer [demoObject "a" 7; demoObject "b" 8] {["a"]} ∅.

Definition demoGuardedPair : ManagedContainer nat :=
  after (registerObject (Some 1) "" false)
    (after (registerObject (Some 0) "" false) demoGuardedCaller).

(** The caller registered its object a second time, under handle b. *)
Definition demoTwoHandles : ManagedContainer nat :=
  after (registerObject (Some 0) "b" false) demoRegistered.

(** A registry with chair_1 undeletable, chair_2 and table_1 removable. *)
Definition demoGuardedFurniture : ManagedContainer nat :=
  after (createDefaultObject "table_1" true)
    (after (createDefaultObject "chair_2" true)
       (after (createDefaultObject "chair_1" true)
          (demoContainer [] {["chair_1"]} ∅))).

(** * Properties *)

Section Proofs.
Context {Fields : Type} {family : ObjectFamily Fields}.
Implicit Types (s : ManagedContainer Fields) (o : ManagedObject Fields).

(** ** Running monadic code *)

Lemma bind_Ok {A B} (m : M Fields A) (k : A → M Fields B) s b s2 :
  bind m k s = Ok b s2 ↔ ∃ a s1, m s = Ok a s1 ∧ k a s1 = Ok b s2.
Proof.
  unfold bind. destruct (m s) as [a s1|e]; split.
  - eauto.
  - intros (a' & s1' & [= -> ->] & Hk). exact Hk.
  - discriminate.
  - intros (a' & s1' & [=] & _).
Qed.

Lemma bind_run {A B} (m : M Fields A) (k : A → M Fields B) s a s1 :
  m s = Ok a s1 → bind m k s = k a s1.
Proof. unfold bind. intros ->. reflexivity. Qed.

Lemma deref_Ok p s o s' :
  deref p s = Ok o s' ↔ ∃ l, p = Some l ∧ heap s !! l = Some o ∧ s' = s.
Proof.
  unfold deref. destruct p as [l|]; [destruct (heap s !! l) as [o'|] eqn:E|];
    split; try discriminate.
  - intros [= -> ->]. eauto.
  - intros (l' & [= <-] & Hl & ->). rewrite E in Hl. congruence.
  - intros (l' & [= <-] & Hl & _). rewrite E in Hl. discriminate.
  - intros (l' & [=] & _).
Qed.

Lemma deref_run l s o : heap s !! l = Some o → deref (Some l) s = Ok o s.
Proof. intros H. unfold deref. rewrite H. reflexivity. Qed.

Lemma update_run l f s o :
  heap s !! l = Some o →
  update (Some l) f s = Ok tt (withHeap (fun hp => <[l := f o]> hp) s).
Proof. intros H. unfold update. rewrite (bind_run _ _ _ _ _ (deref_run _ _ _ H)). reflexivity. Qed.

Lemma update_Ok p f s u s' :
  update p f s = Ok u s' →
  ∃ l o, p = Some l ∧ heap s !! l = Some o ∧
         s' = withHeap (fun hp => <[l := f o]> hp) s.
Proof.
  unfold update. intros H. apply bind_Ok in H as (o & s1 & Hd & H).
  apply deref_Ok in Hd as (l & -> & Hl & ->).
  unfold modify in H. injection H as _ <-. eauto.
Qed.

(** A copy is a new object with the contents of the original; the rest of
    the state stays. *)
Lemma copyObject_Ok p s c s' :
  copyObject p s = Ok c s' →
  ∃ l o U, p = Some l ∧ heap s !! l = Some o ∧
           copyConstructorMap_ s !! getClassKey o = Some U ∧
           c = length (heap s) ∧ s' = withHeap (fun hp => hp ++ [o]) s.
Proof.
  unfold copyObject. intros H.
  apply bind_Ok in H as (o & s1 & Hd & H).
  apply deref_Ok in Hd as (l & -> & Hl & ->).
  apply bind_Ok in H as (ctors & s1 & Hg & H).
  unfold gets in Hg. injection Hg as <- <-.
  destruct (copyConstructorMap_ s !! getClassKey o) as [U|] eqn:EU;
    [|discriminate].
  unfold createObjectCopy in H.
  rewrite (bind_run _ _ _ _ _ (deref_run _ _ _ Hl)) in H.
  unfold alloc in H. injection H as <- <-. eauto 10.
Qed.

Lemma copyObject_run l s o U :
  heap s !! l = Some o →
  copyConstructorMap_ s !! getClassKey o = Some U →
  copyObject (Some l) s
  = Ok (length (heap s)) (withHeap (fun hp => hp ++ [o]) s).
Proof.
  intros Hl HU. unfold copyObject.
  rewrite (bind_run _ _ _ _ _ (deref_run _ _ _ Hl)).
  unfold gets, bind at 1. rewrite HU. unfold createObjectCopy.
  rewrite (bind_run _ _ _ _ _ (deref_run _ _ _ Hl)). reflexivity.
Qed.

Lemma copyObject_miss l s o :
  heap s !! l = Some o →
  copyConstructorMap_ s !! getClassKey o = None →
  copyObject (Some l) s = Fault NullCopyConstructor.
Proof.
  intros Hl HU. unfold copyObject.
  rewrite (bind_run _ _ _ _ _ (deref_run _ _ _ Hl)).
  unfold gets, bind at 1. rewrite HU. reflexivity.
Qed.

(** ** ID resolution *)

Lemma getObjectLibHasHandle_true h s :
  getObjectLibHasHandle h s = true ↔ is_Some (objectLibrary_ s !! h).
Proof. unfold getObjectLibHasHandle. apply bool_decide_eq_true. Qed.

Lemma getObjectLibHasHandle_false h s :
  getObjectLibHasHandle h s = false ↔ objectLibrary_ s !! h = None.
Proof.
  unfold getObjectLibHasHandle. rewrite bool_decide_eq_false.
  rewrite eq_None_not_Some. reflexivity.
Qed.

(** The allocator changes the pool of free IDs only. *)
Lemma getUnusedObjectID_Ok s id s' :
  getUnusedObjectID s = Ok id s' →
  s' = withAvailableIDs (fun _ => availableObjectIDs_ s') s ∧
  match availableObjectIDs_ s with
  | [] => id = (maxUsedID s + 1)%Z ∧ availableObjectIDs_ s' = []
  | x :: xs => id = lowestID x xs ∧
               availableObjectIDs_ s' = removeID id (x :: xs)
  end.
Proof.
  unfold getUnusedObjectID. destruct s as [hp lib ids pool und lck ctors].
  simpl. destruct pool as [|x xs]; intros [= <- <-]; simpl; auto.
Qed.

Lemma getObjectIDByHandleOrNew_Ok h s id s' :
  getObjectIDByHandleOrNew h true s = Ok id s' →
  (∃ q o, objectLibrary_ s !! h = Some q ∧ heap s !! q = Some o ∧
          id = getID o ∧ s' = s) ∨
  (objectLibrary_ s !! h = None ∧ getUnusedObjectID s = Ok id s').
Proof.
  unfold getObjectIDByHandleOrNew, gets, bind at 1. intros H.
  destruct (getObjectLibHasHandle h s) eqn:E.
  - left. apply getObjectLibHasHandle_true in E as [q Hq].
    unfold bind at 1 in H. unfold getObjectInternal in H. rewrite Hq in H.
    apply bind_Ok in H as (o & s1 & Hd & H).
    apply deref_Ok in Hd as (l & [= <-] & Hl & ->).
    unfold ret in H. injection H as <- <-. eauto 10.
  - right. apply getObjectLibHasHandle_false in E. simpl in H. auto.
Qed.

Lemma getObjectIDByHandleOrNew_frame h s id s' :
  getObjectIDByHandleOrNew h true s = Ok id s' →
  s' = withAvailableIDs (fun _ => availableObjectIDs_ s') s.
Proof.
  intros H. apply getObjectIDByHandleOrNew_Ok in H
    as [(q & o & _ & _ & _ & ->)|[_ H]].
  - destruct s; reflexivity.
  - apply getUnusedObjectID_Ok in H as [H _]. exact H.
Qed.

(** ** Registration *)

Lemma addObjectToLibrary_Ok p h s id s1 :
  addObjectToLibrary p h s = Ok id s1 →
  ∃ l o U s_id,
    p = Some l ∧ heap s !! l = Some o ∧
    copyConstructorMap_ s !! getClassKey o = Some U ∧
    getObjectIDByHandleOrNew h true
      (withHeap (fun hp => <[l := setHandle h o]> hp) s) = Ok id s_id ∧
    s1 = registeredState s l (setID id (setHandle h o)) h id
           (availableObjectIDs_ s_id).
Proof.
  unfold addObjectToLibrary. intros H.
  apply bind_Ok in H as (u & s2 & Hu & H).
  apply update_Ok in Hu as (l & o & -> & Hl & ->).
  apply bind_Ok in H as (id' & s_id & Hid & H).
  pose proof (getObjectIDByHandleOrNew_frame _ _ _ _ Hid) as Hfr.
  apply bind_Ok in H as (u2 & s3 & Hu2 & H).
  apply update_Ok in Hu2 as (l' & o' & [= <-] & Hl' & ->).
  apply bind_Ok in H as (c & s4 & Hc & H).
  apply copyObject_Ok in Hc as (l' & o2 & U & [= <-] & Hl2 & HU & -> & ->).
  unfold setObjectInternal, modify, bind, ret in H. injection H as <- <-.
  assert (Hlt : l < length (heap s)) by (eapply lookup_lt_Some; eauto).
  rewrite Hfr in Hl', Hl2, HU. destruct s as [hp lib ids pool und lck ctors].
  simpl in *.
  rewrite list_lookup_insert_eq in Hl' by done. injection Hl' as <-.
  rewrite list_lookup_insert_eq in Hl2
    by (rewrite length_insert; done). injection Hl2 as <-.
  exists l, o, U, s_id. repeat split; try done.
  rewrite Hfr.
  unfold registeredState, withKeyByID, withLibrary, withHeap,
    withAvailableIDs. simpl.
  rewrite list_insert_insert_eq, !length_insert. reflexivity.
Qed.

Lemma registerObjectFinalize_Ok p h force s id s1 :
  registerObjectFinalize p h force s = Ok id s1 →
  id ≠ ID_UNDEFINED →
  ∃ l o, p = Some l ∧ heap s !! l = Some o ∧
         finalizeAccepts o h force = true ∧
         addObjectToLibrary p h s = Ok id s1.
Proof.
  unfold registerObjectFinalize. intros H Hid.
  apply bind_Ok in H as (o & s' & Hd & H).
  apply deref_Ok in Hd as (l & -> & Hl & ->).
  destruct (finalizeAccepts o h force) eqn:E.
  - eauto 10.
  - unfold ret in H. injection H as <- <-. done.
Qed.

Lemma eqb_empty_true (h : string) : String.eqb "" h = true ↔ h = "".
Proof. rewrite String.eqb_eq. split; congruence. Qed.

(** A registration that returns an ID resolved a handle that is not empty,
    passed the finalize step and added the object to the library. *)
Lemma registerObject_Ok p hArg force s id s1 :
  registerObject p hArg force s = Ok id s1 →
  id ≠ ID_UNDEFINED →
  ∃ l o, p = Some l ∧ heap s !! l = Some o ∧
         resolvedHandle o hArg ≠ "" ∧
         finalizeAccepts o (resolvedHandle o hArg) force = true ∧
         addObjectToLibrary p (resolvedHandle o hArg) s = Ok id s1.
Proof.
  unfold registerObject, resolvedHandle. intros H Hid.
  destruct p as [l|]; cbv beta iota delta [ret] in H;
    [|injection H as <- <-; done].
  destruct (String.eqb "" hArg) eqn:E; cbv beta iota delta [negb] in H.
  - apply bind_Ok in H as (o & s' & Hd & H).
    apply deref_Ok in Hd as (l' & [= <-] & Hl & ->).
    destruct (String.eqb "" (getHandle o)) eqn:E2.
    + unfold ret in H. injection H as <- <-. done.
    + apply registerObjectFinalize_Ok in H
        as (l' & o' & [= <-] & Hl' & Hacc & H); [|done].
      assert (o' = o) as -> by congruence.
      exists l, o. repeat split; try done.
      intros Heq. rewrite <- eqb_empty_true in Heq. congruence.
  - apply registerObjectFinalize_Ok in H
      as (l' & o' & [= <-] & Hl' & Hacc & H); [|done].
    exists l, o'. repeat split; try done.
    intros Heq. rewrite <- eqb_empty_true in Heq. congruence.
Qed.

(** ** Lookup *)

Lemma getObjectByHandle_hit h s q :
  objectLibrary_ s !! h = Some q → getObjectByHandle h s = Ok (Some q) s.
Proof.
  intros Hq. unfold getObjectByHandle, gets, bind, checkExistsWithMessage.
  assert (getObjectLibHasHandle h s = true) as ->
    by (apply getObjectLibHasHandle_true; eauto).
  simpl. unfold getObjectInternal. rewrite Hq. reflexivity.
Qed.

Lemma getObjectCopyByHandle_hit h s q o U :
  objectLibrary_ s !! h = Some q → heap s !! q = Some o →
  copyConstructorMap_ s !! getClassKey o = Some U →
  getObjectCopyByHandle h s
  = Ok (Some (length (heap s))) (withHeap (fun hp => hp ++ [o]) s).
Proof.
  intros Hq Ho HU.
  unfold getObjectCopyByHandle, gets, bind at 1, checkExistsWithMessage.
  assert (getObjectLibHasHandle h s = true) as ->
    by (apply getObjectLibHasHandle_true; eauto).
  simpl. unfold bind at 1. unfold getObjectInternal. rewrite Hq.
  rewrite (bind_run _ _ _ _ _ (copyObject_run _ _ _ _ Ho HU)). reflexivity.
Qed.

Lemma getObjectCopyByHandle_Ok h s c s2 :
  getObjectCopyByHandle h s = Ok (Some c) s2 →
  ∃ q o, objectLibrary_ s !! h = Some q ∧ heap s !! q = Some o ∧
         c = length (heap s) ∧ s2 = withHeap (fun hp => hp ++ [o]) s.
Proof.
  unfold getObjectCopyByHandle, gets, bind at 1, checkExistsWithMessage.
  destruct (getObjectLibHasHandle h s) eqn:E; simpl; [|discriminate].
  apply getObjectLibHasHandle_true in E as [q Hq].
  unfold bind at 1. unfold getObjectInternal. rewrite Hq. intros H.
  apply bind_Ok in H as (c' & s' & Hc & H).
  apply copyObject_Ok in Hc as (l & o & U & [= <-] & Hl & _ & -> & ->).
  unfold ret in H. injection H as <- <-. eauto 10.
Qed.

Lemma getObjectCopyByID_Ok i s c s2 :
  getObjectCopyByID i s = Ok (Some c) s2 →
  getObjectCopyByHandle (getObjectHandleByID i s) s = Ok (Some c) s2.
Proof. unfold getObjectCopyByID, gets, bind at 1. auto. Qed.

(** ** Copy isolation *)

(** Editing an instance that is not the stored one leaves what a fetch of
    the handle gives as it was. *)
Lemma fetch_frame h s q x U c v :
  objectLibrary_ s !! h = Some q → heap s !! q = Some x →
  copyConstructorMap_ s !! getClassKey x = Some U → c ≠ q →
  fetchesAs h (mutate c v s) q x.
Proof.
  intros Hq Hx HU Hne.
  assert (Hx' : heap (mutate c v s) !! q = Some x).
  { unfold mutate, withHeap. simpl. rewrite list_lookup_insert_ne; done. }
  repeat split.
  - apply getObjectByHandle_hit. exact Hq.
  - exact Hx'.
  - unfold observe.
    rewrite (getObjectCopyByHandle_hit h (mutate c v s) q x U); try done.
    cbn [heap withHeap]. apply list_lookup_middle. reflexivity.
Qed.

Lemma fetch_now h s q x U :
  objectLibrary_ s !! h = Some q → heap s !! q = Some x →
  copyConstructorMap_ s !! getClassKey x = Some U →
  fetchesAs h s q x.
Proof.
  intros Hq Hx HU. repeat split.
  - apply getObjectByHandle_hit. exact Hq.
  - exact Hx.
  - unfold observe. rewrite (getObjectCopyByHandle_hit h s q x U); try done.
    cbn [heap withHeap]. apply list_lookup_middle. reflexivity.
Qed.

(** What registration leaves in the state. *)
Lemma registered_entry s l x h id pool :
  l < length (heap s) →
  let s1 := registeredState s l x h id pool in
  objectLibrary_ s1 !! h = Some (length (heap s)) ∧
  heap s1 !! length (heap s) = Some x ∧
  heap s1 !! l = Some x ∧
  length (heap s1) = S (length (heap s)).
Proof.
  intros Hlt. unfold registeredState. simpl. repeat split.
  - apply lookup_insert_eq.
  - apply list_lookup_middle. rewrite length_insert. reflexivity.
  - rewrite lookup_app_l by (rewrite length_insert; done).
    apply list_lookup_insert_eq. done.
  - rewrite length_app, length_insert. simpl. lia.
Qed.

(** Successful registration, unfolded: the handle, the objects and the
    state. *)
Lemma registerObject_registered s l o hArg force id s1 :
  heap s !! l = Some o →
  registerObject (Some l) hArg force s = Ok id s1 → id ≠ ID_UNDEFINED →
  ∃ U s_id,
    resolvedHandle o hArg ≠ "" ∧
    finalizeAccepts o (resolvedHandle o hArg) force = true ∧
    copyConstructorMap_ s !! getClassKey o = Some U ∧
    getObjectIDByHandleOrNew (resolvedHandle o hArg) true
      (withHeap (fun hp => <[l := setHandle (resolvedHandle o hArg) o]> hp) s)
      = Ok id s_id ∧
    s1 = registeredState s l (setID id (setHandle (resolvedHandle o hArg) o))
           (resolvedHandle o hArg) id (availableObjectIDs_ s_id).
Proof.
  intros Hl H Hid.
  apply registerObject_Ok in H as (l' & o' & [= <-] & Hl' & Hh & Hacc & H);
    [|done].
  assert (o' = o) as -> by congruence.
  apply addObjectToLibrary_Ok in H
    as (l' & o' & U & s_id & [= <-] & Hl2 & HU & Hgid & ->).
  assert (o' = o) as -> by congruence.
  eauto 10.
Qed.

(** C1, copy-on-register isolation.  After a successful registration of
    the caller's instance [l] under handle [h], the registry holds a copy at
    an address [q] of its own, of value [x].  Whatever the caller then
    writes into its instance [l], and whatever it writes into an instance
    that [getObjectCopyByHandle] or [getObjectCopyByID] returned, a
    following [getObjectByHandle h] still returns [q] with value [x], and a
    following [getObjectCopyByHandle h] still returns an object of value
    [x]. *)
Theorem copy_on_register_isolation s l o hArg force id s1 :
  heap s !! l = Some o →
  registerObject (Some l) hArg force s = Ok id s1 →
  id ≠ ID_UNDEFINED →
  ∃ q x,
    q ≠ l ∧ fetchesAs (resolvedHandle o hArg) s1 q x ∧
    (∀ v, fetchesAs (resolvedHandle o hArg) (mutate l v s1) q x) ∧
    (∀ h' c s2 v, getObjectCopyByHandle h' s1 = Ok (Some c) s2 →
       fetchesAs (resolvedHandle o hArg) (mutate c v s2) q x) ∧
    (∀ i c s2 v, getObjectCopyByID i s1 = Ok (Some c) s2 →
       fetchesAs (resolvedHandle o hArg) (mutate c v s2) q x).
Proof.
  intros Hl H Hid.
  destruct (registerObject_registered _ _ _ _ _ _ _ Hl H Hid)
    as (U & s_id & Hh & Hacc & HU & Hgid & ->).
  set (h := resolvedHandle o hArg) in *.
  set (x := setID id (setHandle h o)) in *.
  set (pool := availableObjectIDs_ s_id) in *.
  assert (Hlt : l < length (heap s)) by (eapply lookup_lt_Some; eauto).
  destruct (registered_entry s l x h id pool Hlt) as (Hlib & Hq & Hlx & Hlen).
  assert (HU' : copyConstructorMap_ (registeredState s l x h id pool)
                  !! getClassKey x = Some U) by exact HU.
  assert (Hcopy : ∀ h' c s2 v,
            getObjectCopyByHandle h' (registeredState s l x h id pool)
              = Ok (Some c) s2 →
            fetchesAs h (mutate c v s2) (length (heap s)) x).
  { intros h' c s2 v Hc.
    apply getObjectCopyByHandle_Ok in Hc as (q' & o' & _ & _ & -> & ->).
    apply fetch_frame with (U := U); try done.
    - cbn [heap withHeap]. rewrite lookup_app_l by lia. exact Hq.
    - lia. }
  exists (length (heap s)), x. split_and!.
  - lia.
  - eapply fetch_now; eauto.
  - intros v. eapply fetch_frame; eauto. lia.
  - exact Hcopy.
  - intros i c s2 v Hc. apply getObjectCopyByID_Ok in Hc. eauto.
Qed.

(** C2, round trip.  After a successful registration of the caller's
    instance [l], whose value was [o], [getObjectCopyByHandle] on the
    registered handle returns an instance [c] other than [l], and [c] and
    [l] hold the same value: the fields and class key of [o], the registered
    handle and the assigned ID.  When the object was registered under its
    own handle, that value is [o] with the ID assigned. *)
Theorem register_then_copy_round_trip s l o hArg force id s1 :
  heap s !! l = Some o →
  registerObject (Some l) hArg force s = Ok id s1 →
  id ≠ ID_UNDEFINED →
  ∃ c s2 x,
    getObjectCopyByHandle (resolvedHandle o hArg) s1 = Ok (Some c) s2 ∧
    c ≠ l ∧
    heap s2 !! c = Some x ∧ heap s2 !! l = Some x ∧
    getHandle x = resolvedHandle o hArg ∧ getID x = id ∧
    getClassKey x = getClassKey o ∧ getFields x = getFields o ∧
    (hArg = "" → x = setID id o).
Proof.
  intros Hl H Hid.
  destruct (registerObject_registered _ _ _ _ _ _ _ Hl H Hid)
    as (U & s_id & Hh & Hacc & HU & Hgid & ->).
  set (h := resolvedHandle o hArg) in *.
  set (x := setID id (setHandle h o)) in *.
  set (pool := availableObjectIDs_ s_id) in *.
  assert (Hlt : l < length (heap s)) by (eapply lookup_lt_Some; eauto).
  destruct (registered_entry s l x h id pool Hlt) as (Hlib & Hq & Hlx & Hlen).
  eexists _, _, x. split.
  { eapply getObjectCopyByHandle_hit; eauto. }
  rewrite Hlen. cbn [heap withHeap]. split_and!; try done.
  - lia.
  - apply list_lookup_middle. symmetry. exact Hlen.
  - rewrite lookup_app_l by lia. exact Hlx.
  - intros ->. subst x h. unfold resolvedHandle. simpl.
    destruct o; reflexivity.
Qed.

(** C4, input validation and handle resolution of [registerObject].  A null
    object gives [ID_UNDEFINED] at once; an explicit handle that is not
    empty is the handle registered under, whatever the handle of the object;
    with an empty explicit handle the handle of the object is used, and if
    that is empty too the result is [ID_UNDEFINED]; a rejection by the
    finalize step gives [ID_UNDEFINED].  No rejection changes the state. *)
Theorem registerObject_validation :
  (∀ h force s, registerObject None h force s = Ok ID_UNDEFINED s) ∧
  (∀ l h force s, h ≠ "" →
     registerObject (Some l) h force s
     = registerObjectFinalize (Some l) h force s) ∧
  (∀ l o force s, heap s !! l = Some o → getHandle o ≠ "" →
     registerObject (Some l) "" force s
     = registerObjectFinalize (Some l) (getHandle o) force s) ∧
  (∀ l o force s, heap s !! l = Some o → getHandle o = "" →
     registerObject (Some l) "" force s = Ok ID_UNDEFINED s) ∧
  (∀ l o h force s, heap s !! l = Some o →
     finalizeAccepts o h force = false →
     registerObjectFinalize (Some l) h force s = Ok ID_UNDEFINED s).
Proof.
  split_and!.
  - reflexivity.
  - intros l h force s Hh. unfold registerObject.
    destruct (String.eqb "" h) eqn:E; [|reflexivity].
    apply eqb_empty_true in E. done.
  - intros l o force s Hl Hh. unfold registerObject.
    cbv beta iota delta [String.eqb negb].
    rewrite (bind_run _ _ _ _ _ (deref_run _ _ _ Hl)).
    destruct (getHandle o) eqn:E; [done|reflexivity].
  - intros l o force s Hl Hh. unfold registerObject.
    cbv beta iota delta [String.eqb negb].
    rewrite (bind_run _ _ _ _ _ (deref_run _ _ _ Hl)).
    rewrite Hh. reflexivity.
  - intros l o h force s Hl Hrej. unfold registerObjectFinalize.
    rewrite (bind_run _ _ _ _ _ (deref_run _ _ _ Hl)).
    rewrite Hrej. reflexivity.
Qed.

(** ** Removal of protected entries *)

Lemma removeObjectInternal_protected h src s :
  isProtected s h → removeObjectInternal h src s = Ok None s.
Proof.
  intros Hp. unfold removeObjectInternal.
  cbv beta iota delta [bind gets].
  destruct (checkExistsWithMessage h src s); [|reflexivity].
  cbv beta iota delta [negb].
  destruct (decide (h ∈ undeletableObjectNames_ s)) as [|Hu]; [reflexivity|].
  destruct (decide (h ∈ userLockedObjectNames_ s)) as [|Hk]; [reflexivity|].
  destruct Hp; done.
Qed.

(** C6, protected removal is denied and changes nothing.  For a handle in
    the undeletable set or in the user-locked set, [removeObjectByHandle],
    and [removeObjectByID] on an ID that resolves to the handle, return
    [nullptr] and leave the whole state as it was: store, library, ID index
    and pool of free IDs. *)
Theorem protected_removal_denied s h :
  isProtected s h →
  removeObjectByHandle h s = Ok None s ∧
  (∀ i, getObjectHandleByID i s = h → removeObjectByID i s = Ok None s).
Proof.
  intros Hp. split.
  - apply removeObjectInternal_protected. exact Hp.
  - intros i Hi. unfold removeObjectByID.
    cbv beta iota delta [bind gets]. rewrite Hi.
    destruct (checkExistsWithMessage h _ s); [|reflexivity].
    cbv beta iota delta [negb].
    apply removeObjectInternal_protected. exact Hp.
Qed.

(** C9, a copy-dispatch miss is undefined behaviour, not an assertion.
    For an object whose class key has no entry in the copy-constructor map,
    [copyObject] calls through the null pointer-to-member that the map
    yields: execution leaves defined behaviour, and nothing stops it
    before.  [copyObject] returns exactly when its argument is an object of
    the store whose class key has an entry, and what it returns then is a
    new instance with the value of the original, never the original and
    never [nullptr].  Its runs are those of the dispatch with an assertion
    except at a missing key; and when the class key of every object of the
    store has an entry, [copyObject] never takes the missing-key branch. *)
Theorem copy_dispatch_miss_is_undefined :
  (∀ s l o, heap s !! l = Some o →
     copyConstructorMap_ s !! getClassKey o = None →
     copyObject (Some l) s = Fault NullCopyConstructor ∧
     copyObject_asserting (Some l) s = AssertionFailure) ∧
  (∀ s p c s',
     copyObject p s = Ok c s' ↔
     ∃ l o, p = Some l ∧ heap s !! l = Some o ∧
            is_Some (copyConstructorMap_ s !! getClassKey o) ∧
            c = length (heap s) ∧
            s' = withHeap (fun hp => hp ++ [o]) s) ∧
  (∀ s p,
     ending (copyObject p s) = copyObject_asserting p s ↔
     copyObject p s ≠ Fault NullCopyConstructor) ∧
  (∀ s p,
     (∀ l o, heap s !! l = Some o →
        is_Some (copyConstructorMap_ s !! getClassKey o)) →
     copyObject p s ≠ Fault NullCopyConstructor).
Proof.
  assert (Hcases : ∀ s p,
    (∃ e, e ≠ NullCopyConstructor ∧ copyObject p s = Fault e ∧
          copyObject_asserting p s = LeavesDefinedBehaviour e) ∨
    (∃ l o, p = Some l ∧ heap s !! l = Some o ∧
            copyConstructorMap_ s !! getClassKey o = None ∧
            copyObject p s = Fault NullCopyConstructor ∧
            copyObject_asserting p s = AssertionFailure) ∨
    (∃ l o, p = Some l ∧ heap s !! l = Some o ∧
            is_Some (copyConstructorMap_ s !! getClassKey o) ∧
            copyObject p s
            = Ok (length (heap s)) (withHeap (fun hp => hp ++ [o]) s) ∧
            copyObject_asserting p s
            = Returns (length (heap s))
                (withHeap (fun hp => hp ++ [o]) s))).
  { intros s [l|].
    - destruct (heap s !! l) as [o|] eqn:Hl.
      + destruct (copyConstructorMap_ s !! getClassKey o) as [U|] eqn:HU.
        * right. right. exists l, o.
          pose proof (copyObject_run l s o U Hl HU) as Hrun.
          split_and!; [done|done|by exists U|exact Hrun|].
          unfold copyObject_asserting. rewrite (deref_run _ _ _ Hl), HU, Hrun.
          reflexivity.
        * right. left. exists l, o.
          split_and!; [done|done|done|exact (copyObject_miss l s o Hl HU)|].
          unfold copyObject_asserting. rewrite (deref_run _ _ _ Hl), HU.
          reflexivity.
      + left. exists DanglingPointer. split; [discriminate|].
        unfold copyObject_asserting, copyObject, bind, deref. rewrite Hl.
        split; reflexivity.
    - left. exists NullDereference. split; [discriminate|].
      split; reflexivity. }
  split_and!.
  - intros s l o Hl HU. split; [exact (copyObject_miss l s o Hl HU)|].
    unfold copyObject_asserting. rewrite (deref_run _ _ _ Hl), HU.
    reflexivity.
  - intros s p c s'. split.
    + intros H. apply copyObject_Ok in H
        as (l & o & U & -> & Hl & HU & -> & ->).
      exists l, o. split_and!; eauto.
    + intros (l & o & -> & Hl & [U HU] & -> & ->).
      exact (copyObject_run l s o U Hl HU).
  - intros s p.
    destruct (Hcases s p)
      as [(e & Hne & He & Ha)|[(l & o & -> & Hl & HU & Hc & Ha)
                              |(l & o & -> & Hl & _ & Hc & Ha)]].
    + rewrite He, Ha. split; [|reflexivity].
      intros _ [= E]. apply Hne. exact E.
    + rewrite Hc, Ha. split; [discriminate|]. intros H. by destruct H.
    + rewrite Hc, Ha. split; [discriminate|reflexivity].
  - intros s p Hall.
    destruct (Hcases s p)
      as [(e & Hne & He & _)|[(l & o & -> & Hl & HU & _)
                             |(l & o & -> & Hl & _ & Hc & _)]].
    + rewrite He. intros [= E]. apply Hne. exact E.
    + destruct (Hall l o Hl) as [U HU']. congruence.
    + rewrite Hc. discriminate.
Qed.

(** C10, the ID is stable when a handle is overwritten.  A successful
    registration under a handle that is already registered returns the ID
    of the entry it replaces and takes no ID from the pool; the library then
    holds, under the handle, a new instance with the value of the registered
    object; and an entry the ID index has for that ID stays, with the rest
    of the index. *)
Theorem reregistration_keeps_ID s l o hArg force id s1 q0 o0 :
  heap s !! l = Some o →
  objectLibrary_ s !! resolvedHandle o hArg = Some q0 →
  heap s !! q0 = Some o0 →
  registerObject (Some l) hArg force s = Ok id s1 →
  id ≠ ID_UNDEFINED →
  id = getID o0 ∧
  availableObjectIDs_ s1 = availableObjectIDs_ s ∧
  objectLibrary_ s1
  = <[resolvedHandle o hArg := length (heap s)]> (objectLibrary_ s) ∧
  q0 ≠ length (heap s) ∧
  heap s1 !! length (heap s)
  = Some (setID id (setHandle (resolvedHandle o hArg) o)) ∧
  (∀ h', objectLibKeyByID_ s !! id = Some h' →
     objectLibKeyByID_ s1 = objectLibKeyByID_ s).
Proof.
  intros Hl Hq0 Ho0 H Hid.
  destruct (registerObject_registered _ _ _ _ _ _ _ Hl H Hid)
    as (U & s_id & Hh & Hacc & HU & Hgid & ->).
  set (h := resolvedHandle o hArg) in *.
  assert (Hlt : l < length (heap s)) by (eapply lookup_lt_Some; eauto).
  assert (Hlt0 : q0 < length (heap s)) by (eapply lookup_lt_Some; eauto).
  apply getObjectIDByHandleOrNew_Ok in Hgid
    as [(q & o' & Hq & Ho' & Hido & ->)|[Hnone _]].
  2: { cbn [objectLibrary_ withHeap] in Hnone. congruence. }
  cbn [objectLibrary_ heap withHeap] in Hq, Ho'.
  assert (q = q0) as -> by congruence.
  assert (Hsame : getID o' = getID o0).
  { destruct (decide (q0 = l)) as [->|Hne].
    - rewrite list_lookup_insert_eq in Ho' by done.
      injection Ho' as <-. simpl. congruence.
    - rewrite list_lookup_insert_ne in Ho' by done. congruence. }
  split_and!.
  - congruence.
  - reflexivity.
  - reflexivity.
  - lia.
  - apply registered_entry. exact Hlt.
  - intros h' Hh'. cbn [objectLibKeyByID_ registeredState].
    unfold emplace. rewrite Hh'. reflexivity.
Qed.

(** ** Creation *)

Lemma resolvedHandle_own o : resolvedHandle o (getHandle o) = getHandle o.
Proof. unfold resolvedHandle. destruct (String.eqb "" (getHandle o)); done. Qed.

Lemma postCreateRegister_registered l s r s' o :
  heap s !! l = Some o →
  postCreateRegister (Some l) true s = Ok (Some r) s' →
  r = l ∧ ∃ id, id ≠ ID_UNDEFINED ∧
                registerObject (Some l) (getHandle o) false s = Ok id s'.
Proof.
  intros Hl. unfold postCreateRegister. cbv beta iota delta [negb].
  rewrite (bind_run _ _ _ _ _ (deref_run _ _ _ Hl)). intros H.
  apply bind_Ok in H as (id & s2 & Hr & H).
  destruct (decide (id = ID_UNDEFINED)); unfold ret in H; [discriminate|].
  injection H as <- <-. eauto.
Qed.

Lemma postCreateRegister_run l s o id s' :
  heap s !! l = Some o →
  registerObject (Some l) (getHandle o) false s = Ok id s' →
  id ≠ ID_UNDEFINED →
  postCreateRegister (Some l) true s = Ok (Some l) s'.
Proof.
  intros Hl Hr Hid. unfold postCreateRegister. cbv beta iota delta [negb].
  rewrite (bind_run _ _ _ _ _ (deref_run _ _ _ Hl)).
  rewrite (bind_run _ _ _ _ _ Hr).
  destruct (decide (id = ID_UNDEFINED)); [done|reflexivity].
Qed.

Lemma built_then_registered s o r s' :
  postCreateRegister (Some (length (heap s))) true
    (withHeap (fun hp => hp ++ [o]) s) = Ok (Some r) s' →
  builtAndRegistered s o r s'.
Proof.
  intros H.
  assert (Hl : heap (withHeap (fun hp => hp ++ [o]) s) !! length (heap s)
               = Some o) by (apply list_lookup_middle; reflexivity).
  apply (postCreateRegister_registered _ _ _ _ _ Hl) in H
    as (-> & id & Hid & H).
  destruct (registerObject_registered _ _ _ _ _ _ _ Hl H Hid)
    as (U & s_id & Hh & Hacc & HU & Hgid & ->).
  rewrite resolvedHandle_own in *.
  set (sb := withHeap (fun hp => hp ++ [o]) s) in *.
  assert (Hlt : length (heap s) < length (heap sb)).
  { subst sb. cbn [heap withHeap]. rewrite length_app. simpl. lia. }
  destruct (registered_entry sb (length (heap s))
              (setID id (setHandle (getHandle o) o)) (getHandle o) id
              (availableObjectIDs_ s_id) Hlt) as (Hlib & Hq & Hlx & _).
  split; [reflexivity|]. split.
  - exists (length (heap sb)), (setID id (setHandle (getHandle o) o)).
    split_and!; try done. lia.
  - intros Hval (l & h & [= <-] & Hh').
    cbn [registeredState objectLibrary_ sb withHeap] in Hh'.
    apply lookup_insert_Some in Hh' as [[_ Hh']|[_ Hh']].
    + subst sb. cbn [heap withHeap] in Hh'. rewrite length_app in Hh'.
      simpl in Hh'. lia.
    + apply Hval in Hh'. simpl in Hh'. lia.
Qed.

(** [createObjectFromJSONFile] passes the result of [buildObjectFromJSONDoc]
    to [postCreateRegister] without the null test that [createDefaultObject]
    has: when the document loads but no object is built, registration
    dereferences [nullptr]. *)
Lemma createObjectFromJSONFile_null_build file doc s :
  verifyLoadDocument file = Some doc →
  buildObjectFromJSONDoc file doc = None →
  createObjectFromJSONFile file false s = Ok None s ∧
  createObjectFromJSONFile file true s = Fault NullDereference.
Proof.
  intros Hd Hb. unfold createObjectFromJSONFile. rewrite Hd, Hb.
  split; reflexivity.
Qed.

(** C5, the result of the create pipeline, as the code has it.  When the
    build gives no object ([initNewObjectInternal] returns none, or the
    document cannot be loaded), the operation returns [nullptr] and the
    state stays as it was.  With [registerObject = false] it returns the
    newly built instance and registers nothing.  With [registerObject =
    true], when the registration of the built object succeeds, it returns
    the newly built instance, which carries the assigned ID; the registry
    stores under the handle another instance, a copy of equal value. *)
Theorem create_pipeline_result :
  (∀ name reg s, initNewObjectInternal name false = None →
     createDefaultObject name reg s = Ok None s) ∧
  (∀ file reg s, verifyLoadDocument file = None →
     createObjectFromJSONFile file reg s = Ok None s) ∧
  (∀ name s o, initNewObjectInternal name false = Some o →
     createDefaultObject name false s
     = Ok (Some (length (heap s))) (withHeap (fun hp => hp ++ [o]) s)) ∧
  (∀ file doc s o, verifyLoadDocument file = Some doc →
     buildObjectFromJSONDoc file doc = Some o →
     createObjectFromJSONFile file false s
     = Ok (Some (length (heap s))) (withHeap (fun hp => hp ++ [o]) s)) ∧
  (∀ name s o id s', initNewObjectInternal name false = Some o →
     registerObject (Some (length (heap s))) (getHandle o) false
       (withHeap (fun hp => hp ++ [o]) s) = Ok id s' →
     id ≠ ID_UNDEFINED →
     createDefaultObject name true s = Ok (Some (length (heap s))) s' ∧
     builtAndRegistered s o (length (heap s)) s') ∧
  (∀ file doc s o id s', verifyLoadDocument file = Some doc →
     buildObjectFromJSONDoc file doc = Some o →
     registerObject (Some (length (heap s))) (getHandle o) false
       (withHeap (fun hp => hp ++ [o]) s) = Ok id s' →
     id ≠ ID_UNDEFINED →
     createObjectFromJSONFile file true s = Ok (Some (length (heap s))) s' ∧
     builtAndRegistered s o (length (heap s)) s').
Proof.
  assert (Hreg : ∀ s o id s',
     registerObject (Some (length (heap s))) (getHandle o) false
       (withHeap (fun hp => hp ++ [o]) s) = Ok id s' →
     id ≠ ID_UNDEFINED →
     postCreateRegister (Some (length (heap s))) true
       (withHeap (fun hp => hp ++ [o]) s) = Ok (Some (length (heap s))) s').
  { intros s o id s' Hr Hid. eapply postCreateRegister_run; eauto.
    apply list_lookup_middle. reflexivity. }
  split_and!.
  - intros name reg s Hb. unfold createDefaultObject. rewrite Hb. reflexivity.
  - intros file reg s Hb. unfold createObjectFromJSONFile. rewrite Hb.
    reflexivity.
  - intros name s o Hb. unfold createDefaultObject. rewrite Hb. reflexivity.
  - intros file doc s o Hd Hb. unfold createObjectFromJSONFile.
    rewrite Hd, Hb. reflexivity.
  - intros name s o id s' Hb Hr Hid. pose proof (Hreg s o id s' Hr Hid) as Hp.
    split; [|apply built_then_registered; exact Hp].
    unfold createDefaultObject. rewrite Hb. exact Hp.
  - intros file doc s o id s' Hd Hb Hr Hid.
    pose proof (Hreg s o id s' Hr Hid) as Hp.
    split; [|apply built_then_registered; exact Hp].
    unfold createObjectFromJSONFile. rewrite Hd, Hb. exact Hp.
Qed.

(** ** Substring queries *)

Lemma prefix_spec (p h : string) :
  String.prefix p h = true ↔ ∃ post : string, h = (p ++ post)%string.
Proof.
  revert h. induction p as [|a p IH]; intros h.
  - destruct h; simpl; split; eauto.
  - destruct h as [|b h]; simpl.
    + split; [discriminate|]. intros [post [=]].
    + destruct (Ascii.ascii_dec a b) as [->|Hne].
      * rewrite IH. split.
        -- intros [post ->]. eauto.
        -- intros [post [= ->]]. eauto.
      * split; [discriminate|]. intros [post [= -> _]]. done.
Qed.

Lemma containsSubstring_unfold (subStr h : string) :
  containsSubstring subStr h
  = String.prefix subStr h ||
    match h with
    | EmptyString => false
    | String _ h' => containsSubstring subStr h'
    end.
Proof. destruct h; reflexivity. Qed.

Lemma containsSubstring_spec (subStr h : string) :
  containsSubstring subStr h = true ↔ isSubstringOf subStr h.
Proof.
  unfold isSubstringOf. split.
  - induction h as [|a h IH]; rewrite containsSubstring_unfold;
      intros H; apply orb_true_iff in H as [H|H]; try discriminate.
    + apply prefix_spec in H as [post ->]. exists ""%string, post. reflexivity.
    + apply prefix_spec in H as [post ->]. exists ""%string, post. reflexivity.
    + destruct (IH H) as (pre & post & ->).
      exists (String a pre), post. reflexivity.
  - intros (pre & post & ->). induction pre as [|a pre IH].
    + rewrite containsSubstring_unfold. apply orb_true_iff. left.
      apply prefix_spec. simpl. eauto.
    + rewrite containsSubstring_unfold. apply orb_true_iff. right.
      simpl. exact IH.
Qed.

Lemma matchesQuery_spec subStr contains h :
  matchesQuery subStr contains h = true ↔ queryMatches subStr contains h.
Proof.
  unfold matchesQuery, queryMatches.
  pose proof (containsSubstring_spec subStr h) as Hs.
  destruct contains; destruct (containsSubstring subStr h); simpl in *;
    intuition congruence.
Qed.

Lemma getObjectHandlesBySubstring_elem subStr contains s h :
  h ∈ getObjectHandlesBySubstring subStr contains s ↔
  is_Some (objectLibrary_ s !! h) ∧ queryMatches subStr contains h.
Proof.
  unfold getObjectHandlesBySubstring.
  rewrite list_elem_of_filter, matchesQuery_spec, list_elem_of_fmap.
  split.
  - intros [Hm ([h' q] & -> & Hin)]. apply elem_of_map_to_list in Hin.
    simpl. eauto.
  - intros [[q Hq] Hm]. split; [done|]. exists (h, q). split; [done|].
    apply elem_of_map_to_list. done.
Qed.

Lemma getObjectHandlesBySubstring_NoDup subStr contains s :
  NoDup (getObjectHandlesBySubstring subStr contains s).
Proof. apply NoDup_filter, NoDup_fst_map_to_list. Qed.

(** ** Removal *)

Lemma removeObjectInternal_missing h src s :
  objectLibrary_ s !! h = None → removeObjectInternal h src s = Ok None s.
Proof.
  intros Hn. unfold removeObjectInternal, checkExistsWithMessage.
  cbv beta iota delta [bind gets].
  apply getObjectLibHasHandle_false in Hn. rewrite Hn. reflexivity.
Qed.

Lemma removeObjectInternal_removes h src s q o :
  objectLibrary_ s !! h = Some q → heap s !! q = Some o →
  ¬ isProtected s h →
  removeObjectInternal h src s = Ok (Some q) (removedState s h (getID o)).
Proof.
  intros Hq Ho Hp. unfold removeObjectInternal, checkExistsWithMessage.
  assert (getObjectLibHasHandle h s = true) as E
    by (apply getObjectLibHasHandle_true; eauto).
  unfold gets, bind at 1. rewrite E. cbv beta iota delta [negb].
  unfold bind at 1. unfold bind at 1.
  destruct (decide (h ∈ undeletableObjectNames_ s)) as [Hu|Hu];
    [destruct Hp; left; done|].
  destruct (decide (h ∈ userLockedObjectNames_ s)) as [Hk|Hk];
    [destruct Hp; right; done|].
  cbv beta iota delta [String.length Nat.eqb negb].
  unfold bind at 1. unfold getObjectInternal. rewrite Hq.
  rewrite (bind_run _ _ _ _ _ (deref_run _ _ _ Ho)). reflexivity.
Qed.

Lemma removeObjectInternal_Ok h src s r s' :
  removeObjectInternal h src s = Ok r s' →
  (r = None ∧ s' = s) ∨
  (∃ q o, r = Some q ∧ objectLibrary_ s !! h = Some q ∧
          heap s !! q = Some o ∧ ¬ isProtected s h ∧
          s' = removedState s h (getID o)).
Proof.
  intros H. destruct (objectLibrary_ s !! h) as [q|] eqn:Hq.
  - destruct (decide (isProtected s h)) as [Hp|Hp].
    + rewrite removeObjectInternal_protected in H by done.
      injection H as <- <-. auto.
    + destruct (heap s !! q) as [o|] eqn:Ho.
      * rewrite (removeObjectInternal_removes h src s q o) in H by done.
        injection H as <- <-. right. eauto 10.
      * exfalso. revert H. unfold removeObjectInternal, checkExistsWithMessage.
        assert (getObjectLibHasHandle h s = true) as E
          by (apply getObjectLibHasHandle_true; eauto).
        unfold gets, bind at 1. rewrite E. cbv beta iota delta [negb].
        unfold bind at 1. unfold bind at 1.
        destruct (decide (h ∈ undeletableObjectNames_ s)) as [Hu|Hu];
          [destruct Hp; left; done|].
        destruct (decide (h ∈ userLockedObjectNames_ s)) as [Hk|Hk];
          [destruct Hp; right; done|].
        cbv beta iota delta [String.length Nat.eqb negb].
        unfold bind at 1. unfold getObjectInternal. rewrite Hq.
        unfold bind, deref. rewrite Ho. discriminate.
  - rewrite removeObjectInternal_missing in H by done.
    injection H as <- <-. auto.
Qed.

Lemma removableMatches_elem subStr contains s h :
  h ∈ removableMatches subStr contains s ↔
  is_Some (objectLibrary_ s !! h) ∧ queryMatches subStr contains h ∧
  ¬ isProtected s h.
Proof.
  unfold removableMatches.
  rewrite list_elem_of_filter, getObjectHandlesBySubstring_elem. tauto.
Qed.

(** The loop of [removeObjectsBySubstring], over registered handles without
    repetition: the unprotected ones leave the library, and their stored
    instances are appended to the result in order. *)
Lemma removeEach_spec hs : ∀ s res,
  NoDup hs → storedValid s →
  (∀ h, h ∈ hs → is_Some (objectLibrary_ s !! h)) →
  ∃ res' s',
    removeEach hs res s = Ok (res ++ res') s' ∧
    heap s' = heap s ∧
    undeletableObjectNames_ s' = undeletableObjectNames_ s ∧
    userLockedObjectNames_ s' = userLockedObjectNames_ s ∧
    (∀ h, objectLibrary_ s' !! h
          = if decide (h ∈ hs ∧ ¬ isProtected s h) then None
            else objectLibrary_ s !! h) ∧
    Forall2 (fun h q => objectLibrary_ s !! h = Some q)
      (filter (fun h => ¬ isProtected s h) hs) res'.
Proof.
  induction hs as [|a hs IH]; intros s res Hnd Hval Hreg.
  - exists [], s. simpl. rewrite app_nil_r. split_and!; done.
  - apply NoDup_cons in Hnd as [Hnin Hnd].
    destruct (Hreg a) as [q Hq]; [left|].
    assert (Ho : is_Some (heap s !! q)).
    { apply lookup_lt_is_Some. exact (Hval a q Hq). }
    destruct Ho as [o Ho].
    destruct (decide (isProtected s a)) as [Hp|Hp].
    + destruct (IH s res Hnd Hval) as (res' & s' & Hrun & Hhp & Hu & Hk & Hlib & HF).
      { intros h Hh. apply Hreg. by right. }
      exists res', s'. split_and!; try done.
      * simpl.
        rewrite (bind_run _ _ _ _ _ (removeObjectInternal_protected a _ s Hp)).
        exact Hrun.
      * intros h. rewrite (Hlib h). destruct (decide (h = a)) as [->|Hne].
        -- rewrite !decide_False; [done| |]; intros [? ?]; done.
        -- destruct (decide (h ∈ hs ∧ ¬ isProtected s h)) as [[? ?]|Hn].
           ++ rewrite decide_True; [done|]. split; [by right|done].
           ++ rewrite decide_False; [done|]. intros [Hin ?]. apply Hn.
              apply elem_of_cons in Hin as [?|?]; done.
      * rewrite filter_cons_False by (intros ?; done). exact HF.
    + set (s1 := removedState s a (getID o)).
      destruct (IH s1 (res ++ [q]) Hnd)
        as (res' & s' & Hrun & Hhp & Hu & Hk & Hlib & HF).
      { unfold storedValid. subst s1. cbn. apply map_Forall_delete.
        exact Hval. }
      { intros h Hh. subst s1. cbn. rewrite lookup_delete_ne.
        - apply Hreg. by right.
        - intros ->. done. }
      exists (q :: res'), s'. split_and!; try done.
      * simpl.
        rewrite (bind_run _ _ _ _ _
                   (removeObjectInternal_removes a _ s q o Hq Ho Hp)).
        rewrite <- app_assoc in Hrun. exact Hrun.
      * intros h. rewrite (Hlib h). subst s1. cbn.
        change (isProtected (removedState s a (getID o)) h)
          with (isProtected s h).
        destruct (decide (h = a)) as [->|Hne].
        -- rewrite decide_False by (intros [? ?]; done).
           rewrite decide_True by (split; [by left|done]).
           apply lookup_delete_eq.
        -- rewrite lookup_delete_ne by done.
           destruct (decide (h ∈ hs ∧ ¬ isProtected s h)) as [[? ?]|Hn].
           ++ rewrite decide_True; [done|]. split; [by right|done].
           ++ rewrite decide_False; [done|]. intros [Hin ?]. apply Hn.
              apply elem_of_cons in Hin as [?|?]; done.
      * rewrite filter_cons_True by done. constructor; [exact Hq|].
        eapply Forall2_impl; [exact HF|].
        intros h q' Hl. subst s1. cbn in Hl.
        apply lookup_delete_Some in Hl as [_ Hl]. exact Hl.
Qed.

(** C7, removal by substring.  [removeObjectsBySubstring] removes the
    handles of [removableMatches], which are the registered handles that
    match the query (contain the substring when [contains] is true, do not
    contain it otherwise) and are not protected, each once; every other
    entry of the library stays; the result lists the stored instances of
    the removed handles, in order, and nothing else.  [removeAllObjects] is
    [removeObjectsBySubstring "" true], whose candidates are all registered
    handles that are not protected. *)
Theorem removeObjectsBySubstring_removes_matching s subStr contains :
  storedValid s →
  (∃ res s',
     removeObjectsBySubstring subStr contains s = Ok res s' ∧
     (∀ h, h ∈ removableMatches subStr contains s ↔
           is_Some (objectLibrary_ s !! h) ∧
           queryMatches subStr contains h ∧ ¬ isProtected s h) ∧
     NoDup (removableMatches subStr contains s) ∧
     (∀ h, h ∈ removableMatches subStr contains s →
           objectLibrary_ s' !! h = None) ∧
     (∀ h, h ∉ removableMatches subStr contains s →
           objectLibrary_ s' !! h = objectLibrary_ s !! h) ∧
     Forall2 (fun h q => objectLibrary_ s !! h = Some q)
       (removableMatches subStr contains s) res ∧
     heap s' = heap s ∧
     undeletableObjectNames_ s' = undeletableObjectNames_ s ∧
     userLockedObjectNames_ s' = userLockedObjectNames_ s) ∧
  removeAllObjects s = removeObjectsBySubstring "" true s ∧
  (∀ h, h ∈ removableMatches "" true s ↔
        is_Some (objectLibrary_ s !! h) ∧ ¬ isProtected s h).
Proof.
  intros Hval. split_and!.
  - destruct (removeEach_spec (getObjectHandlesBySubstring subStr contains s)
                s [] (getObjectHandlesBySubstring_NoDup _ _ _) Hval)
      as (res & s' & Hrun & Hhp & Hu & Hk & Hlib & HF).
    { intros h Hh. apply getObjectHandlesBySubstring_elem in Hh as [? _].
      done. }
    exists res, s'. split_and!; try done.
    + apply removableMatches_elem.
    + apply NoDup_filter, getObjectHandlesBySubstring_NoDup.
    + intros h Hh. rewrite (Hlib h). rewrite decide_True; [done|].
      unfold removableMatches in Hh. apply list_elem_of_filter in Hh.
      tauto.
    + intros h Hh. rewrite (Hlib h). rewrite decide_False; [done|].
      intros [? ?]. apply Hh. unfold removableMatches.
      apply list_elem_of_filter. done.
  - reflexivity.
  - intros h. rewrite removableMatches_elem. unfold queryMatches.
    split; [tauto|]. intros [? ?]. split_and!; try done.
    exists ""%string, h. reflexivity.
Qed.

(** ** The ID allocator *)

Lemma lowestID_le x xs : ∀ y, y ∈ x :: xs → (lowestID x xs ≤ y)%Z.
Proof.
  unfold lowestID. induction xs as [|z zs IH]; intros y Hy; simpl.
  - apply list_elem_of_singleton in Hy as ->. lia.
  - apply elem_of_cons in Hy as [->|Hy].
    + specialize (IH x (list_elem_of_here _ _)). lia.
    + apply elem_of_cons in Hy as [->|Hy]; [lia|].
      specialize (IH y (list_elem_of_further _ _ _ Hy)). lia.
Qed.

Lemma lowestID_elem x xs : lowestID x xs ∈ x :: xs.
Proof.
  unfold lowestID. induction xs as [|z zs IH]; simpl.
  - left.
  - destruct (Z.min_spec z (foldr Z.min x zs)) as [[_ ->]|[_ ->]].
    + right. left.
    + apply elem_of_cons in IH as [->|IH]; [left|right; right; done].
Qed.

Lemma removeID_elem m xs i : i ∈ removeID m xs → i ∈ xs.
Proof.
  induction xs as [|x xs IH]; simpl; [done|].
  destruct (decide (x = m)) as [->|Hne]; intros Hi.
  - by right.
  - apply elem_of_cons in Hi as [->|Hi]; [left|right; auto].
Qed.

Lemma removeID_NoDup m xs :
  NoDup xs → NoDup (removeID m xs) ∧ m ∉ removeID m xs.
Proof.
  induction xs as [|x xs IH]; simpl; intros Hnd.
  - split; [constructor|apply not_elem_of_nil].
  - apply NoDup_cons in Hnd as [Hx Hnd]. destruct (IH Hnd) as [IH1 IH2].
    destruct (decide (x = m)) as [->|Hne]; [done|]. split.
    + apply NoDup_cons. split; [|done]. intros Hin. apply Hx.
      eapply removeID_elem. exact Hin.
    + intros Hin. apply elem_of_cons in Hin as [->|Hin]; done.
Qed.

Lemma maxUsedID_lower s : (-1 ≤ maxUsedID s)%Z.
Proof.
  unfold maxUsedID.
  induction ((map_to_list (objectLibKeyByID_ s)).*1) as [|k ks IH]; simpl; lia.
Qed.

Lemma maxUsedID_upper s i h :
  objectLibKeyByID_ s !! i = Some h → (i ≤ maxUsedID s)%Z.
Proof.
  intros Hi. unfold maxUsedID.
  assert (Hin : i ∈ (map_to_list (objectLibKeyByID_ s)).*1).
  { apply list_elem_of_fmap. exists (i, h). split; [done|].
    apply elem_of_map_to_list. done. }
  induction ((map_to_list (objectLibKeyByID_ s)).*1) as [|k ks IH]; simpl.
  - by apply not_elem_of_nil in Hin.
  - apply elem_of_cons in Hin as [->|Hin]; [lia|]. specialize (IH Hin). lia.
Qed.

(** On a consistent state the allocator hands out an ID that is in use
    nowhere and is not negative, and keeps the pool in order. *)
Lemma getUnusedObjectID_fresh s id s' :
  Consistent s → getUnusedObjectID s = Ok id s' →
  objectLibKeyByID_ s !! id = None ∧ (0 ≤ id)%Z ∧
  NoDup (availableObjectIDs_ s') ∧ (id ∉ availableObjectIDs_ s') ∧
  (∀ i, i ∈ availableObjectIDs_ s' → i ∈ availableObjectIDs_ s).
Proof.
  intros Hc H. apply getUnusedObjectID_Ok in H as [_ H].
  destruct (availableObjectIDs_ s) as [|x xs] eqn:Epool.
  - destruct H as [-> ->]. split_and!.
    + set (k := (maxUsedID s + 1)%Z).
      destruct (objectLibKeyByID_ s !! k) as [h|] eqn:E; [|done].
      apply maxUsedID_upper in E. lia.
    + pose proof (maxUsedID_lower s). lia.
    + constructor.
    + apply not_elem_of_nil.
    + intros i Hi. by apply not_elem_of_nil in Hi.
  - destruct H as [Hid ->].
    assert (Hin : id ∈ availableObjectIDs_ s).
    { rewrite Epool, Hid. apply lowestID_elem. }
    pose proof (pool_nodup s Hc) as Hnd. rewrite Epool in Hnd.
    destruct (removeID_NoDup id (x :: xs) Hnd) as [Hnd' Hnin].
    split_and!; try done.
    + apply (pool_free s Hc). exact Hin.
    + apply (pool_nonneg s Hc). exact Hin.
    + intros i Hi. eapply removeID_elem. exact Hi.
Qed.

(** ** The registry invariant *)

Lemma Consistent_new s : newContainer s → Consistent s.
Proof.
  intros (Hl & Hi & Hp). constructor.
  - intros h q. rewrite Hl, lookup_empty. discriminate.
  - intros i h. rewrite Hi, lookup_empty. discriminate.
  - intros i h. rewrite Hi, lookup_empty. discriminate.
  - intros i. rewrite Hp. intros H. by apply not_elem_of_nil in H.
  - intros i. rewrite Hp. intros H. by apply not_elem_of_nil in H.
  - rewrite Hp. constructor.
Qed.

(** A new object in the store does not disturb the registry. *)
Lemma Consistent_alloc s o :
  Consistent s → Consistent (withHeap (fun hp => hp ++ [o]) s).
Proof.
  intros Hc. constructor; cbn [withHeap heap objectLibrary_ objectLibKeyByID_
                                availableObjectIDs_].
  - intros h q Hq. destruct (lib_indexed s Hc h q Hq) as (o2 & Ho2 & Hi).
    exists o2. split; [|done]. apply lookup_app_l_Some. done.
  - intros i h Hi. destruct (id_indexed s Hc i h Hi) as (q & o2 & Hq & Ho2 & E).
    exists q, o2. split_and!; try done. apply lookup_app_l_Some. done.
  - apply (ids_nonneg s Hc).
  - apply (pool_nonneg s Hc).
  - apply (pool_free s Hc).
  - apply (pool_nodup s Hc).
Qed.

(** Neither does a write of the caller into an instance of its own. *)
Lemma Consistent_mutate s l v :
  Consistent s → ¬ internalInstance s (Some l) → Consistent (mutate l v s).
Proof.
  intros Hc Hown.
  assert (Hne : ∀ h q, objectLibrary_ s !! h = Some q → q ≠ l).
  { intros h q Hq ->. apply Hown. exists l, h. done. }
  constructor; cbn [mutate withHeap heap objectLibrary_ objectLibKeyByID_
                      availableObjectIDs_].
  - intros h q Hq. destruct (lib_indexed s Hc h q Hq) as (o2 & Ho2 & Hi).
    exists o2. split; [|done].
    rewrite list_lookup_insert_ne; [done|]. intros ->. by eapply Hne.
  - intros i h Hi. destruct (id_indexed s Hc i h Hi) as (q & o2 & Hq & Ho2 & E).
    exists q, o2. split_and!; try done.
    rewrite list_lookup_insert_ne; [done|]. intros ->. by eapply Hne.
  - apply (ids_nonneg s Hc).
  - apply (pool_nonneg s Hc).
  - apply (pool_free s Hc).
  - apply (pool_nodup s Hc).
Qed.

(** Removal purges both index entries of the handle and frees its ID. *)
Lemma Consistent_removed s h q o :
  Consistent s → objectLibrary_ s !! h = Some q → heap s !! q = Some o →
  Consistent (removedState s h (getID o)).
Proof.
  intros Hc Hq Ho.
  destruct (lib_indexed s Hc h q Hq) as (o' & Ho' & Hidx).
  assert (o' = o) as -> by congruence.
  constructor; cbn [removedState withAvailableIDs withLibrary withKeyByID heap
                      objectLibrary_ objectLibKeyByID_ availableObjectIDs_].
  - intros h' q' Hq'. apply lookup_delete_Some in Hq' as [Hne Hq'].
    destruct (lib_indexed s Hc h' q' Hq') as (o2 & Ho2 & Hi2).
    exists o2. split; [done|]. rewrite lookup_delete_ne; [done|].
    intros E. rewrite E in Hidx. congruence.
  - intros i h' Hi. apply lookup_delete_Some in Hi as [Hne Hi].
    destruct (id_indexed s Hc i h' Hi) as (q' & o2 & Hq' & Ho2 & E).
    exists q', o2. split_and!; try done.
    rewrite lookup_delete_ne; [done|]. intros <-.
    apply Hne. congruence.
  - intros i h' Hi. apply lookup_delete_Some in Hi as [_ Hi].
    by eapply (ids_nonneg s Hc).
  - intros i Hi. apply elem_of_cons in Hi as [->|Hi].
    + by eapply (ids_nonneg s Hc).
    + by apply (pool_nonneg s Hc).
  - intros i Hi. apply lookup_delete_None.
    apply elem_of_cons in Hi as [->|Hi]; [by left|].
    right. by apply (pool_free s Hc).
  - apply NoDup_cons. split; [|apply (pool_nodup s Hc)].
    intros Hin. apply (pool_free s Hc) in Hin. congruence.
Qed.

Lemma registered_heap_other s l x q o2 :
  heap s !! q = Some o2 → q ≠ l →
  (<[l := x]> (heap s) ++ [x]) !! q = Some o2.
Proof.
  intros Hq Hne. apply lookup_app_l_Some.
  rewrite list_lookup_insert_ne; done.
Qed.

(** Registration of an instance of the caller keeps the invariant. *)
Lemma Consistent_registered s l o h id s_id :
  Consistent s → heap s !! l = Some o → ¬ internalInstance s (Some l) →
  getObjectIDByHandleOrNew h true
    (withHeap (fun hp => <[l := setHandle h o]> hp) s) = Ok id s_id →
  Consistent (registeredState s l (setID id (setHandle h o)) h id
                (availableObjectIDs_ s_id)).
Proof.
  intros Hc Hl Hown Hgid.
  assert (Hne : ∀ h q, objectLibrary_ s !! h = Some q → q ≠ l).
  { intros h' q Hq ->. apply Hown. exists l, h'. done. }
  assert (Hlt : l < length (heap s)) by (eapply lookup_lt_Some; eauto).
  pose proof (Consistent_mutate s l (setHandle h o) Hc Hown) as Hcm.
  set (x := setID id (setHandle h o)).
  assert (Hnew : (<[l := x]> (heap s) ++ [x]) !! length (heap s) = Some x).
  { apply list_lookup_middle. rewrite length_insert. reflexivity. }
  apply getObjectIDByHandleOrNew_Ok in Hgid
    as [(q0 & o' & Hq0 & Ho' & Hid & ->)|[Hnone Hun]].
  - cbn [withHeap heap objectLibrary_] in Hq0, Ho'.
    rewrite list_lookup_insert_ne in Ho' by (intros <-; by eapply Hne).
    destruct (lib_indexed s Hc h q0 Hq0) as (o2 & Ho2 & Hidx).
    assert (o2 = o') as -> by congruence. rewrite <- Hid in Hidx.
    constructor; cbn [registeredState withHeap heap objectLibrary_
                        objectLibKeyByID_ availableObjectIDs_];
      unfold emplace; rewrite ?Hidx.
    + intros h' q Hq. destruct (decide (h' = h)) as [->|Hh].
      * rewrite lookup_insert_eq in Hq. injection Hq as <-.
        exists x. done.
      * rewrite lookup_insert_ne in Hq by done.
        destruct (lib_indexed s Hc h' q Hq) as (o3 & Ho3 & Hi3).
        exists o3. split; [|done].
        apply registered_heap_other; [done|]. by eapply Hne.
    + intros i h' Hi. destruct (decide (h' = h)) as [->|Hh].
      * exists (length (heap s)), x. rewrite lookup_insert_eq.
        split_and!; try done.
        destruct (id_indexed s Hc i h Hi) as (q & o3 & Hq & Ho3 & E).
        subst x. simpl. congruence.
      * destruct (id_indexed s Hc i h' Hi) as (q & o3 & Hq & Ho3 & E).
        exists q, o3. rewrite lookup_insert_ne by done.
        split_and!; try done.
        apply registered_heap_other; [done|]. by eapply Hne.
    + apply (ids_nonneg s Hc).
    + apply (pool_nonneg s Hc).
    + apply (pool_free s Hc).
    + apply (pool_nodup s Hc).
  - cbn [withHeap objectLibrary_] in Hnone.
    destruct (getUnusedObjectID_fresh _ _ _ Hcm Hun)
      as (Hfresh & Hnn & Hnd & Hnin & Hsub).
    cbn [mutate withHeap objectLibKeyByID_ availableObjectIDs_]
      in Hfresh, Hsub.
    constructor; cbn [registeredState withHeap heap objectLibrary_
                        objectLibKeyByID_ availableObjectIDs_];
      unfold emplace; rewrite ?Hfresh.
    + intros h' q Hq. destruct (decide (h' = h)) as [->|Hh].
      * rewrite lookup_insert_eq in Hq. injection Hq as <-.
        exists x. split; [done|]. subst x. simpl. apply lookup_insert_eq.
      * rewrite lookup_insert_ne in Hq by done.
        destruct (lib_indexed s Hc h' q Hq) as (o3 & Ho3 & Hi3).
        exists o3. split.
        -- apply registered_heap_other; [done|]. by eapply Hne.
        -- rewrite lookup_insert_ne; [done|]. intros E. congruence.
    + intros i h' Hi. destruct (decide (i = id)) as [->|Hi'].
      * rewrite lookup_insert_eq in Hi. injection Hi as <-.
        exists (length (heap s)), x. rewrite lookup_insert_eq. done.
      * rewrite lookup_insert_ne in Hi by done.
        destruct (id_indexed s Hc i h' Hi) as (q & o3 & Hq & Ho3 & E).
        exists q, o3. rewrite lookup_insert_ne by congruence.
        split_and!; try done.
        apply registered_heap_other; [done|]. by eapply Hne.
    + intros i h' Hi. destruct (decide (i = id)) as [->|Hi']; [done|].
      rewrite lookup_insert_ne in Hi by done. by eapply (ids_nonneg s Hc).
    + intros i Hi. apply (pool_nonneg s Hc). auto.
    + intros i Hi. rewrite lookup_insert_ne by (intros <-; done).
      apply (pool_free s Hc). auto.
    + exact Hnd.
Qed.

(** ** Every operation keeps the invariant *)

Lemma exec_Some {A} (m : M Fields A) s s' :
  exec m s = Some s' ↔ ∃ a, m s = Ok a s'.
Proof.
  unfold exec. destruct (m s) as [a s1|e]; split.
  - intros [= ->]. eauto.
  - intros (a' & [= _ ->]). reflexivity.
  - discriminate.
  - intros (a' & [=]).
Qed.

Lemma registerObjectFinalize_cases p h force s id s1 :
  registerObjectFinalize p h force s = Ok id s1 →
  (id = ID_UNDEFINED ∧ s1 = s) ∨ addObjectToLibrary p h s = Ok id s1.
Proof.
  unfold registerObjectFinalize. intros H.
  apply bind_Ok in H as (o & s' & Hd & H).
  apply deref_Ok in Hd as (l & -> & Hl & ->).
  destruct (finalizeAccepts o h force); [auto|].
  unfold ret in H. injection H as <- <-. auto.
Qed.

Lemma registerObject_cases p hArg force s id s1 :
  registerObject p hArg force s = Ok id s1 →
  (id = ID_UNDEFINED ∧ s1 = s) ∨
  (∃ l o, p = Some l ∧ heap s !! l = Some o ∧
          addObjectToLibrary p (resolvedHandle o hArg) s = Ok id s1).
Proof.
  unfold registerObject, resolvedHandle. intros H.
  destruct p as [l|]; cbv beta iota delta [ret] in H;
    [|injection H as <- <-; auto].
  destruct (String.eqb "" hArg) eqn:E; cbv beta iota delta [negb] in H.
  - apply bind_Ok in H as (o & s' & Hd & H).
    apply deref_Ok in Hd as (l' & [= <-] & Hl & ->).
    destruct (String.eqb "" (getHandle o)) eqn:E2.
    + injection H as <- <-. auto.
    + apply registerObjectFinalize_cases in H as [H|H]; [auto|].
      right. exists l, o. auto.
  - pose proof H as H'. unfold registerObjectFinalize in H'.
    apply bind_Ok in H' as (o & s' & Hd & _).
    apply deref_Ok in Hd as (l' & [= <-] & Hl & ->).
    apply registerObjectFinalize_cases in H as [H|H]; [auto|].
    right. exists l, o. auto.
Qed.

Lemma Consistent_registerObject p hArg force s id s1 :
  Consistent s → ¬ internalInstance s p →
  registerObject p hArg force s = Ok id s1 → Consistent s1.
Proof.
  intros Hc Hown H.
  apply registerObject_cases in H as [[_ ->]|(l & o & -> & Hl & H)]; [done|].
  apply addObjectToLibrary_Ok in H
    as (l' & o' & U & s_id & [= <-] & Hl' & _ & Hgid & ->).
  assert (o' = o) as -> by congruence.
  eapply Consistent_registered; eauto.
Qed.

Lemma Consistent_registerObjectAndUpdate p s id s1 :
  Consistent s → ¬ internalInstance s p →
  registerObjectAndUpdate p s = Ok id s1 → Consistent s1.
Proof.
  intros Hc Hown H. unfold registerObjectAndUpdate in H.
  apply bind_Ok in H as (o & s' & Hd & H).
  apply deref_Ok in Hd as (l & -> & Hl & ->).
  apply bind_Ok in H as (id' & s2 & Hr & H).
  assert (s1 = s2) as ->.
  { destruct (decide (ID_UNDEFINED = id')); unfold ret in H; congruence. }
  eapply Consistent_registerObject; eauto.
Qed.

Lemma Consistent_removeObjectInternal h src s r s1 :
  Consistent s → removeObjectInternal h src s = Ok r s1 → Consistent s1.
Proof.
  intros Hc H.
  apply removeObjectInternal_Ok in H
    as [[_ ->]|(q & o & _ & Hq & Ho & _ & ->)]; [done|].
  eapply Consistent_removed; eauto.
Qed.

Lemma Consistent_removeObjectByID i s r s1 :
  Consistent s → removeObjectByID i s = Ok r s1 → Consistent s1.
Proof.
  intros Hc. unfold removeObjectByID. cbv beta iota delta [bind gets].
  destruct (checkExistsWithMessage _ _ s); cbv beta iota delta [negb ret].
  - apply Consistent_removeObjectInternal. exact Hc.
  - intros [= _ <-]. exact Hc.
Qed.

Lemma Consistent_removeEach hs : ∀ s res r s1,
  Consistent s → removeEach hs res s = Ok r s1 → Consistent s1.
Proof.
  induction hs as [|a hs IH]; intros s res r s1 Hc H; simpl in H.
  - unfold ret in H. injection H as _ <-. exact Hc.
  - apply bind_Ok in H as (ptr & s2 & Hr & H).
    apply Consistent_removeObjectInternal in Hr; [|exact Hc].
    destruct ptr; eapply IH; eauto.
Qed.

Lemma Consistent_removeObjectsBySubstring subStr contains s r s1 :
  Consistent s → removeObjectsBySubstring subStr contains s = Ok r s1 →
  Consistent s1.
Proof.
  intros Hc. unfold removeObjectsBySubstring, gets, bind at 1.
  apply Consistent_removeEach. exact Hc.
Qed.

Lemma getObjectByHandle_state h s r s1 :
  getObjectByHandle h s = Ok r s1 → s1 = s.
Proof.
  unfold getObjectByHandle. cbv beta iota delta [bind gets].
  destruct (checkExistsWithMessage _ _ s); cbv beta iota delta [negb ret];
    congruence.
Qed.

Lemma getObjectByID_state i s r s1 : getObjectByID i s = Ok r s1 → s1 = s.
Proof.
  unfold getObjectByID. cbv beta iota delta [bind gets].
  destruct (checkExistsWithMessage _ _ s); cbv beta iota delta [negb ret];
    congruence.
Qed.

Lemma getObjectIDByHandle_state h s r s1 :
  getObjectIDByHandle h s = Ok r s1 → s1 = s.
Proof.
  unfold getObjectIDByHandle, getObjectIDByHandleOrNew, gets, bind at 1.
  destruct (getObjectLibHasHandle h s).
  - unfold bind at 1. intros H. apply bind_Ok in H as (o & s' & Hd & H).
    apply deref_Ok in Hd as (l & _ & _ & ->). unfold ret in H. congruence.
  - cbv beta iota delta [negb ret]. congruence.
Qed.

Lemma Consistent_getObjectCopyByHandle h s r s1 :
  Consistent s → getObjectCopyByHandle h s = Ok r s1 → Consistent s1.
Proof.
  intros Hc H. destruct r as [c|].
  - apply getObjectCopyByHandle_Ok in H as (q & o & _ & _ & _ & ->).
    apply Consistent_alloc. exact Hc.
  - revert H. unfold getObjectCopyByHandle, gets, bind at 1.
    destruct (checkExistsWithMessage _ _ s); cbv beta iota delta [negb ret].
    + unfold bind at 1. intros H. apply bind_Ok in H as (c & s' & _ & H).
      discriminate.
    + intros [= <-]. exact Hc.
Qed.

Lemma Consistent_getObjectCopyByID i s r s1 :
  Consistent s → getObjectCopyByID i s = Ok r s1 → Consistent s1.
Proof.
  intros Hc H. eapply (Consistent_getObjectCopyByHandle _ s r); [done|].
  exact H.
Qed.

Lemma step_Consistent op s s1 :
  Consistent s → callerOwnedArguments s op → step op s = Some s1 →
  Consistent s1.
Proof.
  intros Hc Hown H. unfold callerOwnedArguments in Hown.
  destruct op; simpl in H, Hown; apply exec_Some in H as [a H].
  - eapply Consistent_registerObject; eauto.
  - eapply Consistent_registerObjectAndUpdate; eauto.
  - eapply Consistent_removeObjectInternal; eauto.
  - eapply Consistent_removeObjectByID; eauto.
  - eapply Consistent_removeObjectsBySubstring; eauto.
  - eapply Consistent_removeObjectsBySubstring; eauto.
  - apply getObjectByHandle_state in H as ->. exact Hc.
  - apply getObjectByID_state in H as ->. exact Hc.
  - apply getObjectIDByHandle_state in H as ->. exact Hc.
  - eapply Consistent_getObjectCopyByHandle; eauto.
  - eapply Consistent_getObjectCopyByID; eauto.
Qed.

Lemma reachable_Consistent s :
  reachable callerOwnedArguments s → Consistent s.
Proof.
  induction 1 as [s Hnew|s op s1 _ IH Hown Hstep].
  - apply Consistent_new. exact Hnew.
  - eapply step_Consistent; eauto.
Qed.


(** ** ID allocation *)

Lemma registerObject_nonneg s p hArg force id s1 :
  Consistent s → registerObject p hArg force s = Ok id s1 →
  id = ID_UNDEFINED ∨ (0 ≤ id)%Z.
Proof.
  intros Hc H.
  apply registerObject_cases in H as [[-> _]|(l & o & -> & Hl & H)]; [auto|].
  right. apply addObjectToLibrary_Ok in H
    as (l' & o' & U & s_id & [= <-] & Hl' & _ & Hgid & _).
  assert (o' = o) as -> by congruence.
  set (h := resolvedHandle o hArg) in *.
  assert (Hlt : l < length (heap s)) by (eapply lookup_lt_Some; eauto).
  apply getObjectIDByHandleOrNew_Ok in Hgid
    as [(q0 & o' & Hq0 & Ho' & -> & _)|[_ Hun]].
  - cbn [withHeap heap objectLibrary_] in Hq0, Ho'.
    destruct (lib_indexed s Hc h q0 Hq0) as (o2 & Ho2 & Hidx).
    assert (getID o' = getID o2) as ->.
    { destruct (decide (q0 = l)) as [->|Hne].
      - rewrite list_lookup_insert_eq in Ho' by done.
        injection Ho' as <-. simpl. congruence.
      - rewrite list_lookup_insert_ne in Ho' by done. congruence. }
    by eapply (ids_nonneg s Hc).
  - apply getUnusedObjectID_Ok in Hun as [_ Hun].
    cbn [withHeap availableObjectIDs_] in Hun.
    destruct (availableObjectIDs_ s) as [|x xs] eqn:Epool.
    + destruct Hun as [-> _].
      pose proof (maxUsedID_lower
                    (withHeap (fun hp => <[l := setHandle h o]> hp) s)). lia.
    + destruct Hun as [-> _]. apply (pool_nonneg s Hc). rewrite Epool.
      apply lowestID_elem.
Qed.

Lemma registerObject_new_handle s l o hArg force id s1 :
  heap s !! l = Some o →
  objectLibrary_ s !! resolvedHandle o hArg = None →
  registerObject (Some l) hArg force s = Ok id s1 →
  id ≠ ID_UNDEFINED →
  allocatedFrom (availableObjectIDs_ s) (maxUsedID s) id
    (availableObjectIDs_ s1).
Proof.
  intros Hl Hnone H Hid.
  destruct (registerObject_registered _ _ _ _ _ _ _ Hl H Hid)
    as (U & s_id & _ & _ & _ & Hgid & ->).
  apply getObjectIDByHandleOrNew_Ok in Hgid
    as [(q0 & o' & Hq0 & _)|[_ Hun]].
  { cbn [withHeap objectLibrary_] in Hq0. congruence. }
  apply getUnusedObjectID_Ok in Hun as [_ Hun].
  cbn [withHeap availableObjectIDs_ registeredState] in *.
  unfold allocatedFrom.
  destruct (availableObjectIDs_ s) as [|x xs]; [exact Hun|].
  destruct Hun as [Hlow Hpool]. split_and!.
  - rewrite Hlow. apply lowestID_elem.
  - rewrite Hlow. apply lowestID_le.
  - exact Hpool.
Qed.

(** C8, ID allocation and reuse.  An ID returned by [registerObject] in a
    reachable state is [ID_UNDEFINED] or not negative.  A removal puts the
    ID of the removed object into the pool of free IDs and takes it out of
    the ID index.  The registration of a handle that is not registered
    takes the lowest ID of the pool, and [maxUsedID + 1] when the pool is
    empty.  So a registration of a new handle right after a removal gets the
    lowest of the freed ID and the IDs freed before, which is the freed ID
    when no lower one was free. *)
Theorem ID_allocation_and_reuse :
  (∀ s p hArg force id s1,
     reachable callerOwnedArguments s →
     registerObject p hArg force s = Ok id s1 →
     id = ID_UNDEFINED ∨ (0 ≤ id)%Z) ∧
  (∀ s h src q o s1,
     removeObjectInternal h src s = Ok (Some q) s1 →
     heap s !! q = Some o →
     availableObjectIDs_ s1 = getID o :: availableObjectIDs_ s ∧
     objectLibKeyByID_ s1 !! getID o = None) ∧
  (∀ s l o hArg force id s1,
     heap s !! l = Some o →
     objectLibrary_ s !! resolvedHandle o hArg = None →
     registerObject (Some l) hArg force s = Ok id s1 →
     id ≠ ID_UNDEFINED →
     allocatedFrom (availableObjectIDs_ s) (maxUsedID s) id
       (availableObjectIDs_ s1)) ∧
  (∀ s h src q o s1 l o' hArg force id s2,
     removeObjectInternal h src s = Ok (Some q) s1 →
     heap s !! q = Some o →
     heap s1 !! l = Some o' →
     objectLibrary_ s1 !! resolvedHandle o' hArg = None →
     registerObject (Some l) hArg force s1 = Ok id s2 →
     id ≠ ID_UNDEFINED →
     id ∈ getID o :: availableObjectIDs_ s ∧
     (∀ y, y ∈ getID o :: availableObjectIDs_ s → (id ≤ y)%Z) ∧
     ((∀ y, y ∈ availableObjectIDs_ s → (getID o ≤ y)%Z) → id = getID o)).
Proof.
  assert (Hfree : ∀ s h src q o s1,
     removeObjectInternal h src s = Ok (Some q) s1 →
     heap s !! q = Some o →
     availableObjectIDs_ s1 = getID o :: availableObjectIDs_ s ∧
     objectLibKeyByID_ s1 !! getID o = None).
  { intros s h src q o s1 H Ho.
    apply removeObjectInternal_Ok in H
      as [[[=] _]|(q' & o' & [= <-] & _ & Ho' & _ & ->)].
    assert (o' = o) as -> by congruence.
    split; [reflexivity|]. cbn. apply lookup_delete_eq. }
  split_and!.
  - intros s p hArg force id s1 Hr. apply registerObject_nonneg.
    apply reachable_Consistent. exact Hr.
  - exact Hfree.
  - apply registerObject_new_handle.
  - intros s h src q o s1 l o' hArg force id s2 Hrem Ho Hl Hnone Hreg Hid.
    destruct (Hfree _ _ _ _ _ _ Hrem Ho) as [Hpool _].
    pose proof (registerObject_new_handle _ _ _ _ _ _ _ Hl Hnone Hreg Hid)
      as Hal.
    rewrite Hpool in Hal. destruct Hal as (Hin & Hle & _).
    split_and!; try done.
    intros Hlow. apply Z.le_antisymm.
    + apply Hle. left.
    + apply elem_of_cons in Hin as [->|Hin]; [lia|]. apply Hlow. exact Hin.
Qed.

End Proofs.

(** * Concrete runs

    The properties above, applied to the demo family: inputs on which their
    hypotheses hold, and the runs that show where the code departs from
    the specification. *)

(** The state after the caller registered its object is reachable. *)
Lemma demoRegistered_reachable :
  reachable callerOwnedArguments demoRegistered.
Proof.
  eapply reachable_step with (op := OpRegisterObject (Some 0) "" false)
                             (s := demoCaller).
  - apply reachable_new. repeat split.
  - intros (l & h & [= <-] & Hl). discriminate.
  - vm_compute. reflexivity.
Defined.

(** Witness of C1 on the registration of the caller's object a. *)
Lemma copy_on_register_isolation_witness :
  (heap demoCaller !! 0 = Some (demoObject "a" 7) ∧
   registerObject (Some 0) "" false demoCaller = Ok 0%Z demoRegistered ∧
   0%Z ≠ ID_UNDEFINED) ∧
  ∃ q x,
    q ≠ 0 ∧ fetchesAs "a" demoRegistered q x ∧
    (∀ v, fetchesAs "a" (mutate 0 v demoRegistered) q x) ∧
    (∀ h' c s2 v, getObjectCopyByHandle h' demoRegistered = Ok (Some c) s2 →
       fetchesAs "a" (mutate c v s2) q x) ∧
    (∀ i c s2 v, getObjectCopyByID i demoRegistered = Ok (Some c) s2 →
       fetchesAs "a" (mutate c v s2) q x).
Proof.
  assert (H1 : heap demoCaller !! 0 = Some (demoObject "a" 7)) by reflexivity.
  assert (H2 : registerObject (Some 0) "" false demoCaller
               = Ok 0%Z demoRegistered) by (vm_compute; reflexivity).
  assert (H3 : 0%Z ≠ ID_UNDEFINED) by discriminate.
  split; [done|].
  exact (copy_on_register_isolation demoCaller 0 (demoObject "a" 7) "" false
           0%Z demoRegistered H1 H2 H3).
Defined.

(** Witness of C2 on the same registration. *)
Lemma register_then_copy_round_trip_witness :
  (heap demoCaller !! 0 = Some (demoObject "a" 7) ∧
   registerObject (Some 0) "" false demoCaller = Ok 0%Z demoRegistered ∧
   0%Z ≠ ID_UNDEFINED) ∧
  ∃ c s2 x,
    getObjectCopyByHandle "a" demoRegistered = Ok (Some c) s2 ∧
    c ≠ 0 ∧
    heap s2 !! c = Some x ∧ heap s2 !! 0 = Some x ∧
    getHandle x = "a" ∧ getID x = 0%Z ∧
    getClassKey x = "ObjectAttributes" ∧ getFields x = 7 ∧
    ("" = "" → x = setID 0%Z (demoObject "a" 7)).
Proof.
  assert (H1 : heap demoCaller !! 0 = Some (demoObject "a" 7)) by reflexivity.
  assert (H2 : registerObject (Some 0) "" false demoCaller
               = Ok 0%Z demoRegistered) by (vm_compute; reflexivity).
  assert (H3 : 0%Z ≠ ID_UNDEFINED) by discriminate.
  split; [done|].
  exact (register_then_copy_round_trip demoCaller 0 (demoObject "a" 7) ""
           false 0%Z demoRegistered H1 H2 H3).
Defined.



(** Witness of C4: an explicit handle, the handle of the object, no
    handle at all, and a rejection by the finalize step. *)
Lemma registerObject_validation_witness :
  ("b" ≠ "" ∧
   registerObject (Some 0) "b" false demoCaller
   = registerObjectFinalize (Some 0) "b" false demoCaller) ∧
  (heap demoCaller !! 0 = Some (demoObject "a" 7) ∧
   getHandle (demoObject "a" 7) ≠ "" ∧
   registerObject (Some 0) "" false demoCaller
   = registerObjectFinalize (Some 0) "a" false demoCaller) ∧
  (heap (demoContainer [demoObject "" 7] ∅ ∅) !! 0 = Some (demoObject "" 7) ∧
   getHandle (demoObject "" 7) = "" ∧
   registerObject (Some 0) "" false (demoContainer [demoObject "" 7] ∅ ∅)
   = Ok ID_UNDEFINED (demoContainer [demoObject "" 7] ∅ ∅)) ∧
  (finalizeAccepts (demoObject "a" 7) "invalid_name" false = false ∧
   registerObjectFinalize (Some 0) "invalid_name" false demoCaller
   = Ok ID_UNDEFINED demoCaller).
Proof.
  destruct (@registerObject_validation nat demoFamily)
    as (_ & V2 & V3 & V4 & V5).
  repeat apply conj.
  - discriminate.
  - apply V2. discriminate.
  - reflexivity.
  - discriminate.
  - apply (V3 0 (demoObject "a" 7)); [reflexivity|discriminate].
  - reflexivity.
  - reflexivity.
  - apply (V4 0 (demoObject "" 7)); reflexivity.
  - reflexivity.
  - apply (V5 0 (demoObject "a" 7)); reflexivity.
Defined.

(** C5 as stated fails: [createDefaultObject] with registration returns
    the instance at address 0, the one the build allocated, while the
    registry stores the copy at address 1 under the handle; address 0 is
    not stored under any handle. *)
Lemma createDefaultObject_returns_built_instance :
  createDefaultObject "a" true (demoContainer [] ∅ ∅)
  = Ok (Some 0) demoCreated ∧
  getObjectByHandle "a" demoCreated = Ok (Some 1) demoCreated ∧
  ¬ internalInstance demoCreated (Some 0).
Proof.
  split_and!.
  - vm_compute. reflexivity.
  - vm_compute. reflexivity.
  - intros (l & h & [= <-] & Hl).
    assert (E : objectLibrary_ demoCreated = {["a" := 1]})
      by (vm_compute; reflexivity).
    rewrite E in Hl. apply lookup_singleton_Some in Hl as [_ [=]].
Qed.

(** Witness of C5: a failed build, a missing document, a creation without
    and one with registration. *)
Lemma create_pipeline_result_witness :
  (initNewObjectInternal "" false = None ∧
   createDefaultObject "" true demoCaller = Ok None demoCaller) ∧
  (verifyLoadDocument "missing.json" = None ∧
   createObjectFromJSONFile "missing.json" true demoCaller
   = Ok None demoCaller) ∧
  (initNewObjectInternal "a" false = Some (demoObject "a" 0) ∧
   createDefaultObject "a" false demoCaller
   = Ok (Some 1)
       (withHeap (fun hp => hp ++ [demoObject "a" 0]) demoCaller)) ∧
  (initNewObjectInternal "a" false = Some (demoObject "a" 0) ∧
   registerObject (Some 0) "a" false
     (withHeap (fun hp => hp ++ [demoObject "a" 0]) (demoContainer [] ∅ ∅))
   = Ok 0%Z demoCreated ∧
   0%Z ≠ ID_UNDEFINED) ∧
  createDefaultObject "a" true (demoContainer [] ∅ ∅)
  = Ok (Some 0) demoCreated ∧
  builtAndRegistered (demoContainer [] ∅ ∅) (demoObject "a" 0) 0 demoCreated.
Proof.
  destruct (@create_pipeline_result nat demoFamily)
    as (P1 & P2 & P3 & _ & P5 & _).
  assert (Hr : registerObject (Some 0) "a" false
                 (withHeap (fun hp => hp ++ [demoObject "a" 0])
                    (demoContainer [] ∅ ∅))
               = Ok 0%Z demoCreated) by (vm_compute; reflexivity).
  assert (Hid : 0%Z ≠ ID_UNDEFINED) by discriminate.
  split; [split; [reflexivity|apply P1; reflexivity]|].
  split; [split; [reflexivity|apply P2; reflexivity]|].
  split; [split; [reflexivity|]|].
  { apply (P3 "a" demoCaller (demoObject "a" 0)). reflexivity. }
  split; [exact (conj eq_refl (conj Hr Hid))|].
  exact (P5 "a" (demoContainer [] ∅ ∅) (demoObject "a" 0) 0%Z demoCreated
           eq_refl Hr Hid).
Defined.

(** Witness of C6 on an undeletable handle. *)
Lemma protected_removal_denied_witness :
  isProtected demoUndeletable "a" ∧
  removeObjectByHandle "a" demoUndeletable = Ok None demoUndeletable ∧
  (∀ i, getObjectHandleByID i demoUndeletable = "a" →
        removeObjectByID i demoUndeletable = Ok None demoUndeletable).
Proof.
  assert (H : isProtected demoUndeletable "a").
  { left. change ("a" ∈ ({["a"]} : gset string)).
    apply elem_of_singleton. reflexivity. }
  split; [exact H|]. exact (protected_removal_denied demoUndeletable "a" H).
Defined.

(** Witness of C7 on the furniture registry. *)
Lemma removeObjectsBySubstring_removes_matching_witness :
  storedValid demoFurniture ∧
  (∃ res s',
     removeObjectsBySubstring "chair" true demoFurniture = Ok res s' ∧
     (∀ h, h ∈ removableMatches "chair" true demoFurniture ↔
           is_Some (objectLibrary_ demoFurniture !! h) ∧
           queryMatches "chair" true h ∧ ¬ isProtected demoFurniture h) ∧
     NoDup (removableMatches "chair" true demoFurniture) ∧
     (∀ h, h ∈ removableMatches "chair" true demoFurniture →
           objectLibrary_ s' !! h = None) ∧
     (∀ h, h ∉ removableMatches "chair" true demoFurniture →
           objectLibrary_ s' !! h = objectLibrary_ demoFurniture !! h) ∧
     Forall2 (fun h q => objectLibrary_ demoFurniture !! h = Some q)
       (removableMatches "chair" true demoFurniture) res ∧
     heap s' = heap demoFurniture ∧
     undeletableObjectNames_ s' = undeletableObjectNames_ demoFurniture ∧
     userLockedObjectNames_ s' = userLockedObjectNames_ demoFurniture) ∧
  removeAllObjects demoFurniture
  = removeObjectsBySubstring "" true demoFurniture ∧
  (∀ h, h ∈ removableMatches "" true demoFurniture ↔
        is_Some (objectLibrary_ demoFurniture !! h) ∧
        ¬ isProtected demoFurniture h).
Proof.
  assert (H : storedValid demoFurniture).
  { unfold storedValid. apply (bool_decide_unpack _). vm_compute. exact I. }
  split; [exact H|].
  exact (removeObjectsBySubstring_removes_matching demoFurniture "chair" true
           H).
Defined.

(** The example of the specification: with chair_1, chair_2 and table_1
    registered, the query for chair removes the two chairs and returns their
    instances. *)
Example removeObjectsBySubstring_chairs :
  ∃ s', removeObjectsBySubstring "chair" true demoFurniture = Ok [1; 3] s' ∧
        objectLibrary_ s' = {["table_1" := 5]} ∧
        removableMatches "chair" true demoFurniture = ["chair_1"; "chair_2"].
Proof.
  eexists. split_and!; vm_compute; reflexivity.
Qed.

(** And the query for handles without chair removes table_1 only. *)
Example removeObjectsBySubstring_all_but_chairs :
  ∃ s', removeObjectsBySubstring "chair" false demoFurniture = Ok [5] s' ∧
        objectLibrary_ s' = {["chair_1" := 1; "chair_2" := 3]} ∧
        removableMatches "chair" false demoFurniture = ["table_1"].
Proof.
  eexists. split_and!; vm_compute; reflexivity.
Qed.

(** Witness of C8: a registration right after the removal of chair_1, and
    one with two free IDs in the pool. *)
Lemma ID_allocation_and_reuse_witness :
  (reachable callerOwnedArguments demoRegistered ∧
   registerObject (Some 0) "b" false demoRegistered
   = Ok 1%Z (after (registerObject (Some 0) "b" false) demoRegistered) ∧
   (1%Z = ID_UNDEFINED ∨ (0 ≤ 1)%Z)) ∧
  (availableObjectIDs_ demoChairFreed
   = getID (setID 0%Z (demoObject "chair_1" 0))
       :: availableObjectIDs_ demoFurniture ∧
   objectLibKeyByID_ demoChairFreed
     !! getID (setID 0%Z (demoObject "chair_1" 0)) = None) ∧
  (removeObjectInternal "chair_1" "" demoFurniture
   = Ok (Some 1) demoChairFreed ∧
   heap demoFurniture !! 1 = Some (setID 0%Z (demoObject "chair_1" 0)) ∧
   heap demoChairFreed !! 0 = Some (setID 0%Z (demoObject "chair_1" 0)) ∧
   objectLibrary_ demoChairFreed !! "sofa" = None ∧
   registerObject (Some 0) "sofa" false demoChairFreed = Ok 0%Z demoSofa ∧
   0%Z ≠ ID_UNDEFINED) ∧
  (0%Z ∈ getID (setID 0%Z (demoObject "chair_1" 0))
           :: availableObjectIDs_ demoFurniture ∧
   (∀ y, y ∈ getID (setID 0%Z (demoObject "chair_1" 0))
               :: availableObjectIDs_ demoFurniture → (0 ≤ y)%Z) ∧
   ((∀ y, y ∈ availableObjectIDs_ demoFurniture →
          (getID (setID 0%Z (demoObject "chair_1" 0)) ≤ y)%Z) →
    0%Z = getID (setID 0%Z (demoObject "chair_1" 0)))) ∧
  (heap demoTwoFreed !! 0 = Some (setID 0%Z (demoObject "chair_1" 0)) ∧
   objectLibrary_ demoTwoFreed !! "sofa" = None ∧
   registerObject (Some 0) "sofa" false demoTwoFreed
   = Ok 0%Z demoSofaLowest) ∧
  allocatedFrom (availableObjectIDs_ demoTwoFreed) (maxUsedID demoTwoFreed)
    0%Z (availableObjectIDs_ demoSofaLowest).
Proof.
  destruct (@ID_allocation_and_reuse nat demoFamily) as (A1 & A2 & A3 & A4).
  assert (H0 : registerObject (Some 0) "b" false demoRegistered
               = Ok 1%Z (after (registerObject (Some 0) "b" false)
                           demoRegistered)) by (vm_compute; reflexivity).
  assert (H1 : removeObjectInternal "chair_1" "" demoFurniture
               = Ok (Some 1) demoChairFreed) by (vm_compute; reflexivity).
  assert (H2 : heap demoFurniture !! 1
               = Some (setID 0%Z (demoObject "chair_1" 0)))
    by (vm_compute; reflexivity).
  assert (H3 : heap demoChairFreed !! 0
               = Some (setID 0%Z (demoObject "chair_1" 0)))
    by (vm_compute; reflexivity).
  assert (H4 : objectLibrary_ demoChairFreed !! "sofa" = None)
    by (vm_compute; reflexivity).
  assert (H5 : registerObject (Some 0) "sofa" false demoChairFreed
               = Ok 0%Z demoSofa) by (vm_compute; reflexivity).
  assert (H6 : 0%Z ≠ ID_UNDEFINED) by discriminate.
  assert (H7 : heap demoTwoFreed !! 0
               = Some (setID 0%Z (demoObject "chair_1" 0)))
    by (vm_compute; reflexivity).
  assert (H8 : objectLibrary_ demoTwoFreed !! "sofa" = None)
    by (vm_compute; reflexivity).
  assert (H9 : registerObject (Some 0) "sofa" false demoTwoFreed
               = Ok 0%Z demoSofaLowest) by (vm_compute; reflexivity).
  split.
  { split; [exact demoRegistered_reachable|]. split; [exact H0|].
    exact (A1 demoRegistered (Some 0) "b" false 1%Z _
             demoRegistered_reachable H0). }
  split.
  { exact (A2 demoFurniture "chair_1" "" 1
             (setID 0%Z (demoObject "chair_1" 0)) demoChairFreed H1 H2). }
  split; [exact (conj H1 (conj H2 (conj H3 (conj H4 (conj H5 H6)))))|].
  split.
  { exact (A4 demoFurniture "chair_1" "" 1
             (setID 0%Z (demoObject "chair_1" 0)) demoChairFreed 0
             (setID 0%Z (demoObject "chair_1" 0)) "sofa" false
             0%Z demoSofa H1 H2 H3 H4 H5 H6). }
  split; [exact (conj H7 (conj H8 H9))|].
  exact (A3 demoTwoFreed 0 (setID 0%Z (demoObject "chair_1" 0)) "sofa" false
           0%Z demoSofaLowest H7 H8 H9 H6).
Defined.

(** With IDs 0 and 1 free, 1 freed last, and 2 in use, three registrations
    of new handles get 0, then 1, then 3. *)
Example reuse_of_lowest_free_ID :
  availableObjectIDs_ demoTwoFreed = [1%Z; 0%Z] ∧
  maxUsedID demoTwoFreed = 2%Z ∧
  registerObject (Some 0) "sofa" false demoTwoFreed = Ok 0%Z demoSofaLowest ∧
  availableObjectIDs_ demoSofaLowest = [1%Z] ∧
  registerObject (Some 2) "couch" false demoSofaLowest
  = Ok 1%Z (after (registerObject (Some 2) "couch" false) demoSofaLowest) ∧
  registerObject (Some 4) "bench" false
    (after (registerObject (Some 2) "couch" false) demoSofaLowest)
  = Ok 3%Z (after (registerObject (Some 4) "bench" false)
              (after (registerObject (Some 2) "couch" false) demoSofaLowest)).
Proof. split_and!; vm_compute; reflexivity. Qed.

(** C9 as stated fails: the store holds an object of class
    [SceneAttributes], for which the copy-constructor map has no entry.
    The dispatch with an assertion stops at the assertion; [copyObject]
    has none, it calls through the null pointer-to-member and leaves
    defined behaviour. *)
Lemma copyObject_miss_has_no_assertion :
  heap demoUnknownClass !! 0
  = Some (mkManagedObject "s" ID_UNDEFINED "SceneAttributes" 0) ∧
  copyConstructorMap_ demoUnknownClass !! "SceneAttributes" = None ∧
  copyObject_asserting (Some 0) demoUnknownClass = AssertionFailure ∧
  copyObject (Some 0) demoUnknownClass = Fault NullCopyConstructor ∧
  ending (copyObject (Some 0) demoUnknownClass)
  ≠ copyObject_asserting (Some 0) demoUnknownClass.
Proof.
  split_and!; [reflexivity|reflexivity|reflexivity|reflexivity|].
  assert (E : copyObject (Some 0) demoUnknownClass
              = Fault NullCopyConstructor) by reflexivity.
  assert (A : copyObject_asserting (Some 0) demoUnknownClass
              = AssertionFailure) by reflexivity.
  rewrite E, A. discriminate.
Qed.

(** Witness of C9: a class key without an entry, and one with. *)
Lemma copy_dispatch_miss_is_undefined_witness :
  (heap demoUnknownClass !! 0
   = Some (mkManagedObject "s" ID_UNDEFINED "SceneAttributes" 0) ∧
   copyConstructorMap_ demoUnknownClass
     !! getClassKey (mkManagedObject "s" ID_UNDEFINED "SceneAttributes" 0)
   = None ∧
   copyObject (Some 0) demoUnknownClass = Fault NullCopyConstructor ∧
   copyObject_asserting (Some 0) demoUnknownClass = AssertionFailure) ∧
  (copyObject (Some 0) demoCaller
   = Ok 1 (withHeap (fun hp => hp ++ [demoObject "a" 7]) demoCaller) ∧
   ending (copyObject (Some 0) demoCaller)
   = copyObject_asserting (Some 0) demoCaller ∧
   copyObject (Some 0) demoCaller ≠ Fault NullCopyConstructor).
Proof.
  destruct (@copy_dispatch_miss_is_undefined nat) as (F1 & F2 & F3 & F4).
  assert (H1 : heap demoUnknownClass !! 0
               = Some (mkManagedObject "s" ID_UNDEFINED "SceneAttributes" 0))
    by reflexivity.
  assert (H2 : copyConstructorMap_ demoUnknownClass
                 !! getClassKey
                      (mkManagedObject "s" ID_UNDEFINED "SceneAttributes" 0)
               = None) by reflexivity.
  assert (K : ∀ l o, heap demoCaller !! l = Some o →
                is_Some (copyConstructorMap_ demoCaller !! getClassKey o)).
  { intros [|l] o Hl; [|discriminate]. injection Hl as <-.
    exists "ObjectAttributes". reflexivity. }
  assert (H3 : ∃ l o, Some 0 = Some l ∧ heap demoCaller !! l = Some o ∧
                 is_Some (copyConstructorMap_ demoCaller !! getClassKey o) ∧
                 1 = length (heap demoCaller) ∧
                 withHeap (fun hp => hp ++ [demoObject "a" 7]) demoCaller
                 = withHeap (fun hp => hp ++ [o]) demoCaller).
  { exists 0, (demoObject "a" 7).
    split; [reflexivity|]. split; [reflexivity|].
    split; [exists "ObjectAttributes"; reflexivity|].
    split; reflexivity. }
  pose proof (F4 demoCaller (Some 0) K) as H4.
  split.
  - split; [exact H1|]. split; [exact H2|].
    exact (F1 demoUnknownClass 0 _ H1 H2).
  - split; [exact (proj2 (F2 demoCaller (Some 0) 1 _) H3)|].
    split; [exact (proj2 (F3 demoCaller (Some 0)) H4)|exact H4].
Defined.

(** Witness of C10: the caller edits its object and registers it again
    under the same handle. *)
Lemma reregistration_keeps_ID_witness :
  (heap demoEdited !! 0 = Some (mkManagedObject "a" 0 "ObjectAttributes" 9) ∧
   objectLibrary_ demoEdited !! "a" = Some 1 ∧
   heap demoEdited !! 1 = Some (mkManagedObject "a" 0 "ObjectAttributes" 7) ∧
   registerObject (Some 0) "" false demoEdited
   = Ok 0%Z (after (registerObject (Some 0) "" false) demoEdited) ∧
   0%Z ≠ ID_UNDEFINED) ∧
  0%Z = 0%Z ∧
  availableObjectIDs_ (after (registerObject (Some 0) "" false) demoEdited)
  = availableObjectIDs_ demoEdited ∧
  objectLibrary_ (after (registerObject (Some 0) "" false) demoEdited)
  = <["a" := 2]> (objectLibrary_ demoEdited) ∧
  1 ≠ 2 ∧
  heap (after (registerObject (Some 0) "" false) demoEdited) !! 2
  = Some (mkManagedObject "a" 0 "ObjectAttributes" 9) ∧
  (∀ h', objectLibKeyByID_ demoEdited !! 0%Z = Some h' →
     objectLibKeyByID_ (after (registerObject (Some 0) "" false) demoEdited)
     = objectLibKeyByID_ demoEdited).
Proof.
  assert (H1 : heap demoEdited !! 0
               = Some (mkManagedObject "a" 0 "ObjectAttributes" 9))
    by reflexivity.
  assert (H2 : objectLibrary_ demoEdited !! "a" = Some 1) by reflexivity.
  assert (H3 : heap demoEdited !! 1
               = Some (mkManagedObject "a" 0 "ObjectAttributes" 7))
    by reflexivity.
  assert (H4 : registerObject (Some 0) "" false demoEdited
               = Ok 0%Z (after (registerObject (Some 0) "" false) demoEdited))
    by (vm_compute; reflexivity).
  assert (H5 : 0%Z ≠ ID_UNDEFINED) by discriminate.
  split; [done|].
  exact (reregistration_keeps_ID demoEdited 0
           (mkManagedObject "a" 0 "ObjectAttributes" 9) "" false 0%Z
           (after (registerObject (Some 0) "" false) demoEdited) 1
           (mkManagedObject "a" 0 "ObjectAttributes" 7) H1 H2 H3 H4 H5).
Defined.


(** * Further properties of the container code *)

Section MoreProofs.
Context {Fields : Type} {family : ObjectFamily Fields}.
Implicit Types (s : ManagedContainer Fields) (o : ManagedObject Fields).

(** ** Lookups that find nothing *)

Lemma getObjectCopyByHandle_miss h s :
  objectLibrary_ s !! h = None → getObjectCopyByHandle h s = Ok None s.
Proof.
  intros Hn. unfold getObjectCopyByHandle, checkExistsWithMessage.
  cbv beta iota delta [bind gets].
  apply getObjectLibHasHandle_false in Hn. rewrite Hn. reflexivity.
Qed.

Lemma getObjectByHandle_miss h s :
  objectLibrary_ s !! h = None → getObjectByHandle h s = Ok None s.
Proof.
  intros Hn. unfold getObjectByHandle, checkExistsWithMessage.
  cbv beta iota delta [bind gets].
  apply getObjectLibHasHandle_false in Hn. rewrite Hn. reflexivity.
Qed.

Lemma getObjectIDByHandle_hit h s q o :
  objectLibrary_ s !! h = Some q → heap s !! q = Some o →
  getObjectIDByHandle h s = Ok (getID o) s.
Proof.
  intros Hq Ho. unfold getObjectIDByHandle, getObjectIDByHandleOrNew.
  unfold gets, bind at 1.
  assert (getObjectLibHasHandle h s = true) as ->
    by (apply getObjectLibHasHandle_true; eauto).
  unfold bind at 1. unfold getObjectInternal. rewrite Hq.
  rewrite (bind_run _ _ _ _ _ (deref_run _ _ _ Ho)). reflexivity.
Qed.

(** X1, a handle that is not registered.  The lookups by handle return
    [nullptr], the removal returns [nullptr], the ID query returns
    [ID_UNDEFINED] without taking an ID from the allocator, and none of them
    changes the state. *)
Theorem unregistered_handle_not_found h s :
  objectLibrary_ s !! h = None →
  getObjectByHandle h s = Ok None s ∧
  getObjectCopyByHandle h s = Ok None s ∧
  removeObjectByHandle h s = Ok None s ∧
  getObjectIDByHandle h s = Ok ID_UNDEFINED s.
Proof.
  intros Hn. split_and!.
  - apply getObjectByHandle_miss. exact Hn.
  - apply getObjectCopyByHandle_miss. exact Hn.
  - apply removeObjectInternal_missing. exact Hn.
  - unfold getObjectIDByHandle, getObjectIDByHandleOrNew.
    cbv beta iota delta [bind gets].
    apply getObjectLibHasHandle_false in Hn. rewrite Hn. reflexivity.
Qed.

Lemma getObjectByID_miss i s :
  objectLibrary_ s !! getObjectHandleByID i s = None →
  getObjectByID i s = Ok None s.
Proof.
  intros Hn. apply getObjectLibHasHandle_false in Hn.
  unfold getObjectByID, checkExistsWithMessage.
  cbv beta iota delta [bind gets]. rewrite Hn. reflexivity.
Qed.

(** X2, an ID that resolves to no registered handle.  [getObjectByID],
    [getObjectCopyByID] and [removeObjectByID] return [nullptr] and leave
    the state as it was. *)
Theorem unresolved_ID_not_found i s :
  objectLibrary_ s !! getObjectHandleByID i s = None →
  getObjectByID i s = Ok None s ∧
  getObjectCopyByID i s = Ok None s ∧
  removeObjectByID i s = Ok None s.
Proof.
  intros Hn. split; [apply getObjectByID_miss; exact Hn|].
  apply getObjectLibHasHandle_false in Hn. split.
  - unfold getObjectCopyByID, checkExistsWithMessage.
    cbv beta iota delta [bind gets]. rewrite Hn. reflexivity.
  - unfold removeObjectByID, checkExistsWithMessage.
    cbv beta iota delta [bind gets]. rewrite Hn. reflexivity.
Qed.

(** ** Removal *)

(** X3, a removal that goes through.  For a registered handle that is not
    protected, [removeObjectByHandle] returns the stored instance and leaves
    the store as it was; afterwards the handle is not found, the ID of the
    removed object resolves to no handle and heads the pool of free IDs, and
    the entries of all other handles and IDs are as before. *)
Theorem removal_purges_entry s h q o :
  objectLibrary_ s !! h = Some q → heap s !! q = Some o →
  ¬ isProtected s h →
  ∃ s', removeObjectByHandle h s = Ok (Some q) s' ∧
        heap s' = heap s ∧
        getObjectByHandle h s' = Ok None s' ∧
        getObjectHandleByID (getID o) s' = "" ∧
        availableObjectIDs_ s' = getID o :: availableObjectIDs_ s ∧
        (∀ h', h' ≠ h → objectLibrary_ s' !! h' = objectLibrary_ s !! h') ∧
        (∀ i, i ≠ getID o →
              objectLibKeyByID_ s' !! i = objectLibKeyByID_ s !! i).
Proof.
  intros Hq Ho Hp. exists (removedState s h (getID o)). split_and!.
  - apply removeObjectInternal_removes; done.
  - reflexivity.
  - apply getObjectByHandle_miss. cbn. apply lookup_delete_eq.
  - unfold getObjectHandleByID. cbn. rewrite lookup_delete_eq. reflexivity.
  - reflexivity.
  - intros h' Hne. cbn. apply lookup_delete_ne. done.
  - intros i Hne. cbn. apply lookup_delete_ne. done.
Qed.

(** ** Registration through [registerObjectAndUpdate] *)

(** X4, [registerObjectAndUpdate] reads the handle of the object before any
    null test: on [nullptr] it dereferences null, where [registerObject]
    returns [ID_UNDEFINED]; on an object of the store it does what
    [registerObject] does with no explicit handle and no forcing. *)
Theorem registerObjectAndUpdate_behaviour :
  (∀ s, registerObjectAndUpdate None s = Fault NullDereference) ∧
  (∀ s l o, heap s !! l = Some o →
     registerObjectAndUpdate (Some l) s
     = registerObject (Some l) "" false s).
Proof.
  split.
  - reflexivity.
  - intros s l o Hl. unfold registerObjectAndUpdate.
    rewrite (bind_run _ _ _ _ _ (deref_run _ _ _ Hl)).
    assert (Hsame : registerObject (Some l) (getHandle o) false s
                    = registerObject (Some l) "" false s).
    { unfold registerObject. change (String.eqb "" "") with true.
      cbv beta iota delta [negb].
      rewrite !(bind_run _ _ _ _ _ (deref_run _ _ _ Hl)).
      destruct (String.eqb "" (getHandle o)) eqn:E; [|reflexivity].
      rewrite (bind_run _ _ _ _ _ (deref_run _ _ _ Hl)). rewrite E.
      reflexivity. }
    unfold bind. rewrite Hsame.
    destruct (registerObject (Some l) "" false s) as [id s1|e]; [|reflexivity].
    destruct (decide (ID_UNDEFINED = id)) as [<-|]; reflexivity.
Qed.

(** ** The shape of every state change *)

Lemma resolvedHandle_explicit o (h : string) :
  h ≠ "" → resolvedHandle o h = h.
Proof.
  intros Hh. unfold resolvedHandle. destruct (String.eqb "" h) eqn:E; [|done].
  apply eqb_empty_true in E. done.
Qed.

(** A call of [registerObject] that returns leaves the state as it was, or
    leaves the state of a registration under a handle that is not empty. *)
Lemma registerObject_effect p hArg force s id s1 :
  registerObject p hArg force s = Ok id s1 →
  (id = ID_UNDEFINED ∧ s1 = s) ∨
  (∃ l o h pool, p = Some l ∧ heap s !! l = Some o ∧ h ≠ "" ∧
     h = resolvedHandle o hArg ∧
     is_Some (copyConstructorMap_ s !! getClassKey o) ∧
     s1 = registeredState s l (setID id (setHandle h o)) h id pool).
Proof.
  intros H. pose proof H as H'.
  apply registerObject_cases in H as [H|(l & o & -> & Hl & H)]; [auto|].
  destruct (decide (resolvedHandle o hArg = "")) as [He|Hne].
  - left. revert H'. unfold registerObject, resolvedHandle in *.
    destruct (String.eqb "" hArg) eqn:E; cbv beta iota delta [negb].
    + rewrite (bind_run _ _ _ _ _ (deref_run _ _ _ Hl)). rewrite He.
      intros [= <- <-]. auto.
    + apply eqb_empty_true in He. congruence.
  - right. apply addObjectToLibrary_Ok in H
      as (l' & o' & U & s_id & [= <-] & Hl' & HU & _ & ->).
    assert (o' = o) as -> by congruence. eauto 12.
Qed.

(** A property of states that registrations, removals and allocations keep
    is kept by every operation. *)
Lemma step_preserves (P : ManagedContainer Fields → Prop) :
  (∀ s l o h id pool, P s → heap s !! l = Some o → h ≠ "" →
     is_Some (copyConstructorMap_ s !! getClassKey o) →
     P (registeredState s l (setID id (setHandle h o)) h id pool)) →
  (∀ s h q o, P s → objectLibrary_ s !! h = Some q → heap s !! q = Some o →
     P (removedState s h (getID o))) →
  (∀ s o, P s → P (withHeap (fun hp => hp ++ [o]) s)) →
  ∀ op s s1, P s → step op s = Some s1 → P s1.
Proof.
  intros Hreg Hrem Hall.
  assert (Hri : ∀ h src s r s1, P s →
            removeObjectInternal h src s = Ok r s1 → P s1).
  { intros h src s r s1 HP H.
    apply removeObjectInternal_Ok in H
      as [[_ ->]|(q & o & _ & Hq & Ho & _ & ->)]; eauto. }
  assert (Hro : ∀ p hArg force s id s1, P s →
            registerObject p hArg force s = Ok id s1 → P s1).
  { intros p hArg force s id s1 HP H.
    apply registerObject_effect in H
      as [[_ ->]|(l & o & h & pool & -> & Hl & Hh & _ & HU & ->)]; eauto. }
  assert (Hre : ∀ hs s res r s1, P s → removeEach hs res s = Ok r s1 → P s1).
  { induction hs as [|a hs IH]; intros s res r s1 HP H; simpl in H.
    - unfold ret in H. injection H as _ <-. exact HP.
    - apply bind_Ok in H as (ptr & s2 & Hr & H).
      apply Hri in Hr; [|exact HP]. destruct ptr; eapply IH; eauto. }
  assert (Hcp : ∀ h s r s1, P s → getObjectCopyByHandle h s = Ok r s1 → P s1).
  { intros h s r s1 HP H. destruct r as [c|].
    - apply getObjectCopyByHandle_Ok in H as (q & o & _ & _ & _ & ->). eauto.
    - destruct (objectLibrary_ s !! h) as [q|] eqn:Hq.
      + revert H. unfold getObjectCopyByHandle, gets, bind at 1.
        destruct (checkExistsWithMessage _ _ s);
          cbv beta iota delta [negb ret].
        * unfold bind at 1. intros H.
          apply bind_Ok in H as (c & s' & _ & H). discriminate.
        * intros [= <-]. exact HP.
      + rewrite getObjectCopyByHandle_miss in H by done.
        injection H as <-. exact HP. }
  intros op s s1 HP H.
  destruct op; simpl in H; apply exec_Some in H as [a H].
  - eauto.
  - unfold registerObjectAndUpdate in H.
    apply bind_Ok in H as (o & s' & Hd & H).
    apply deref_Ok in Hd as (l & -> & Hl & ->).
    apply bind_Ok in H as (id' & s2 & Hr & H).
    assert (s1 = s2) as ->.
    { destruct (decide (ID_UNDEFINED = id')); unfold ret in H; congruence. }
    eauto.
  - eauto.
  - revert H. unfold removeObjectByID. cbv beta iota delta [bind gets].
    destruct (checkExistsWithMessage _ _ s); cbv beta iota delta [negb ret].
    + eauto.
    + intros [= _ <-]. exact HP.
  - revert H. unfold removeObjectsBySubstring, gets, bind at 1. eauto.
  - revert H. unfold removeAllObjects, removeObjectsBySubstring, gets,
      bind at 1. eauto.
  - apply getObjectByHandle_state in H as ->. exact HP.
  - apply getObjectByID_state in H as ->. exact HP.
  - apply getObjectIDByHandle_state in H as ->. exact HP.
  - eauto.
  - eapply (Hcp _ s a); [done|]. exact H.
Qed.

(** In a reachable state, whatever the arguments were, stored addresses are
    objects of the store, the empty handle is not registered, and the class
    key of every stored object has a copy constructor. *)
Lemma reachable_wellformed allowed s :
  reachable allowed s →
  storedValid s ∧ objectLibrary_ s !! "" = None ∧
  (∀ h q, objectLibrary_ s !! h = Some q →
     ∃ o, heap s !! q = Some o ∧
          is_Some (copyConstructorMap_ s !! getClassKey o)).
Proof.
  induction 1 as [s (Hl & _ & _)|s op s1 _ IH _ Hstep].
  - unfold storedValid. rewrite Hl. split_and!; [apply map_Forall_empty|done|].
    intros h q. rewrite lookup_empty. discriminate.
  - revert IH Hstep.
    apply (step_preserves
             (fun s => storedValid s ∧ objectLibrary_ s !! "" = None ∧
                ∀ h q, objectLibrary_ s !! h = Some q →
                  ∃ o, heap s !! q = Some o ∧
                       is_Some (copyConstructorMap_ s !! getClassKey o))).
    + intros s0 l o h id pool (Hv & He & Hk) Hl Hh HU. split_and!.
      * unfold storedValid. cbn [registeredState heap objectLibrary_].
        rewrite length_app, length_insert. simpl.
        apply map_Forall_insert_2; [lia|].
        eapply map_Forall_impl; [exact Hv|]. simpl. intros. lia.
      * cbn [registeredState objectLibrary_].
        rewrite lookup_insert_ne by done. exact He.
      * assert (Hlt : l < length (heap s0)) by (eapply lookup_lt_Some; eauto).
        intros h' q Hq.
        cbn [registeredState heap objectLibrary_ copyConstructorMap_] in *.
        apply lookup_insert_Some in Hq as [[_ <-]|[_ Hq]].
        -- exists (setID id (setHandle h o)). split; [|exact HU].
           apply list_lookup_middle. rewrite length_insert. reflexivity.
        -- destruct (Hk h' q Hq) as (o' & Ho' & HU').
           destruct (decide (q = l)) as [->|Hne].
           ++ exists (setID id (setHandle h o)). split; [|exact HU].
              rewrite lookup_app_l by (rewrite length_insert; done).
              apply list_lookup_insert_eq. done.
           ++ exists o'. split; [|exact HU'].
              apply registered_heap_other; done.
    + intros s0 h q o (Hv & He & Hk) Hq Ho. split_and!.
      * unfold storedValid. cbn. apply map_Forall_delete. exact Hv.
      * cbn. apply lookup_delete_None. auto.
      * intros h' q' Hq'. cbn in Hq'.
        apply lookup_delete_Some in Hq' as [_ Hq']. exact (Hk h' q' Hq').
    + intros s0 o (Hv & He & Hk). split_and!; [|exact He|].
      * unfold storedValid. cbn [withHeap heap objectLibrary_].
        rewrite length_app. simpl.
        eapply map_Forall_impl; [exact Hv|]. simpl. intros. lia.
      * intros h' q' Hq'. destruct (Hk h' q' Hq') as (o' & Ho' & HU').
        exists o'. split; [|exact HU'].
        cbn [withHeap heap]. apply lookup_app_l_Some. exact Ho'.
Qed.

Lemma Consistent_storedValid s : Consistent s → storedValid s.
Proof.
  intros Hc h q Hq. destruct (lib_indexed s Hc h q Hq) as (o & Ho & _).
  eapply lookup_lt_Some. exact Ho.
Qed.

(** X5, removals and copies never fault.  In every state reached from a
    new container by register, remove and lookup operations, whatever their
    arguments, every stored address is an object of the store, the empty
    handle is not registered, and the class key of every stored object has
    a copy constructor; so a removal by handle, by ID or by substring
    returns, and so does a copy by handle or by ID: the copy dispatch can
    miss at a registration, never at a lookup. *)
Theorem reachable_states_are_wellformed s :
  reachable anyArguments s →
  storedValid s ∧ objectLibrary_ s !! "" = None ∧
  (∀ h, ∃ r s', removeObjectByHandle h s = Ok r s') ∧
  (∀ i, ∃ r s', removeObjectByID i s = Ok r s') ∧
  (∀ subStr contains, ∃ res s',
     removeObjectsBySubstring subStr contains s = Ok res s') ∧
  (∀ h, ∃ r s', getObjectCopyByHandle h s = Ok r s') ∧
  (∀ i, ∃ r s', getObjectCopyByID i s = Ok r s').
Proof.
  intros Hr. destruct (reachable_wellformed _ _ Hr) as (Hv & He & Hk).
  assert (Hrem : ∀ h src, ∃ r s', removeObjectInternal h src s = Ok r s').
  { intros h src. destruct (objectLibrary_ s !! h) as [q|] eqn:Hq.
    - destruct (decide (isProtected s h)) as [Hp|Hp].
      + rewrite removeObjectInternal_protected by done. eauto.
      + destruct (lookup_lt_is_Some_2 (heap s) q (Hv h q Hq)) as [o Ho].
        rewrite (removeObjectInternal_removes h src s q o) by done. eauto.
    - rewrite removeObjectInternal_missing by done. eauto. }
  assert (Hcp : ∀ h, ∃ r s', getObjectCopyByHandle h s = Ok r s').
  { intros h. destruct (objectLibrary_ s !! h) as [q|] eqn:Hq.
    - destruct (Hk h q Hq) as (o & Ho & [U HU]).
      rewrite (getObjectCopyByHandle_hit h s q o U) by done. eauto.
    - rewrite getObjectCopyByHandle_miss by done. eauto. }
  split_and!; try done.
  - intros h. apply Hrem.
  - intros i. unfold removeObjectByID. cbv beta iota delta [bind gets].
    destruct (checkExistsWithMessage _ _ s); cbv beta iota delta [negb ret].
    + apply Hrem.
    + eauto.
  - intros subStr contains.
    destruct (removeEach_spec (getObjectHandlesBySubstring subStr contains s)
                s [] (getObjectHandlesBySubstring_NoDup _ _ _) Hv)
      as (res & s' & Hrun & _).
    { intros h Hh. apply getObjectHandlesBySubstring_elem in Hh as [? _].
      done. }
    exists res, s'. exact Hrun.
  - intros i. unfold getObjectCopyByID. cbv beta iota delta [bind gets].
    destruct (checkExistsWithMessage _ _ s) eqn:E;
      cbv beta iota delta [negb ret]; [|eauto].
    destruct (Hcp (getObjectHandleByID i s)) as (r & s' & Hc).
    revert Hc. unfold getObjectCopyByHandle. cbv beta iota delta [bind gets].
    unfold checkExistsWithMessage in *. rewrite E.
    cbv beta iota delta [negb]. eauto.
Qed.

(** ** Lookup and removal by ID *)

Lemma getObjectByID_hit i s h q :
  objectLibKeyByID_ s !! i = Some h → objectLibrary_ s !! h = Some q →
  getObjectByID i s = Ok (Some q) s.
Proof.
  intros Hi Hq. unfold getObjectByID, checkExistsWithMessage.
  cbv beta iota delta [bind gets]. unfold getObjectHandleByID. rewrite Hi.
  simpl. assert (getObjectLibHasHandle h s = true) as ->
    by (apply getObjectLibHasHandle_true; eauto).
  simpl. unfold getObjectInternal. rewrite Hq. reflexivity.
Qed.

(** X6, an object fetched by ID carries that ID.  In every state reached
    with caller-owned registration arguments, when [getObjectByID] returns
    an instance, the ID index has the ID, the instance is the one stored
    under the handle of the ID, and the ID inside it is the ID asked for. *)
Theorem object_fetched_by_ID_has_that_ID s i q :
  reachable callerOwnedArguments s →
  getObjectByID i s = Ok (Some q) s →
  ∃ h o, objectLibKeyByID_ s !! i = Some h ∧
         objectLibrary_ s !! h = Some q ∧
         heap s !! q = Some o ∧ getID o = i.
Proof.
  intros Hr H. pose proof (reachable_Consistent s Hr) as Hc.
  destruct (reachable_wellformed _ _ Hr) as (_ & He & _).
  revert H. unfold getObjectByID, checkExistsWithMessage.
  cbv beta iota delta [bind gets]. unfold getObjectHandleByID.
  destruct (objectLibKeyByID_ s !! i) as [h|] eqn:Hi; simpl.
  - destruct (getObjectLibHasHandle h s) eqn:E; simpl; [|discriminate].
    unfold getObjectInternal. intros [= Hq].
    destruct (id_indexed s Hc i h Hi) as (q' & o & Hq' & Ho & Hid).
    assert (q' = q) as -> by congruence. eauto 10.
  - assert (getObjectLibHasHandle "" s = false) as ->
      by (apply getObjectLibHasHandle_false; done).
    discriminate.
Qed.

(** X7, removal by ID.  In a state reached with caller-owned registration
    arguments, [removeObjectByID] on a registered ID whose handle is not
    protected returns the instance stored under that handle and frees that
    very ID; afterwards neither the ID nor the handle is found, and the
    returned instance is stored under no handle. *)
Theorem removeObjectByID_frees_that_ID s i h :
  reachable callerOwnedArguments s →
  objectLibKeyByID_ s !! i = Some h → ¬ isProtected s h →
  ∃ q s', removeObjectByID i s = Ok (Some q) s' ∧
          objectLibrary_ s !! h = Some q ∧
          availableObjectIDs_ s' = i :: availableObjectIDs_ s ∧
          objectLibKeyByID_ s' !! i = None ∧
          objectLibrary_ s' !! h = None ∧
          getObjectByID i s' = Ok None s' ∧
          ¬ internalInstance s' (Some q).
Proof.
  intros Hr Hi Hp. pose proof (reachable_Consistent s Hr) as Hc.
  destruct (reachable_wellformed _ _ Hr) as (_ & He & _).
  destruct (id_indexed s Hc i h Hi) as (q & o & Hq & Ho & Hid).
  exists q, (removedState s h i). split_and!.
  - unfold removeObjectByID, checkExistsWithMessage.
    cbv beta iota delta [bind gets]. unfold getObjectHandleByID. rewrite Hi.
    simpl. assert (getObjectLibHasHandle h s = true) as ->
      by (apply getObjectLibHasHandle_true; eauto).
    simpl. rewrite <- Hid. apply removeObjectInternal_removes; done.
  - exact Hq.
  - reflexivity.
  - cbn. apply lookup_delete_eq.
  - cbn. apply lookup_delete_eq.
  - apply getObjectByID_miss.
    unfold getObjectHandleByID. cbn. rewrite lookup_delete_eq. simpl.
    apply lookup_delete_None. auto.
  - intros (l & h' & [= <-] & Hh'). cbn in Hh'.
    apply lookup_delete_Some in Hh' as [Hne Hh'].
    destruct (lib_indexed s Hc h' q Hh') as (o' & Ho' & Hi').
    assert (o' = o) as -> by congruence. rewrite Hid in Hi'. congruence.
Qed.

(** ** Registration and the indices *)

(** X8, a registered object is found by its ID.  After a successful
    registration of an instance of the caller in a state reached with
    caller-owned arguments, the ID query on the handle returns the assigned
    ID, the ID resolves to the handle, lookup by ID and lookup by handle
    return the same stored instance, which carries the handle and the ID,
    and [getObjectCopyByID] returns an object of that value. *)
Theorem registered_object_found_by_ID s l o hArg force id s1 :
  reachable callerOwnedArguments s →
  ¬ internalInstance s (Some l) →
  heap s !! l = Some o →
  registerObject (Some l) hArg force s = Ok id s1 →
  id ≠ ID_UNDEFINED →
  ∃ q x,
    getObjectIDByHandle (resolvedHandle o hArg) s1 = Ok id s1 ∧
    getObjectHandleByID id s1 = resolvedHandle o hArg ∧
    getObjectByID id s1 = Ok (Some q) s1 ∧
    getObjectByHandle (resolvedHandle o hArg) s1 = Ok (Some q) s1 ∧
    heap s1 !! q = Some x ∧
    getHandle x = resolvedHandle o hArg ∧ getID x = id ∧
    observe (getObjectCopyByID id) s1 = Some x.
Proof.
  intros Hr Hown Hl H Hid. pose proof (reachable_Consistent s Hr) as Hc.
  pose proof (Consistent_registerObject _ _ _ _ _ _ Hc Hown H) as Hc1.
  destruct (registerObject_registered _ _ _ _ _ _ _ Hl H Hid)
    as (U & s_id & Hh & Hacc & HU & Hgid & ->).
  set (h := resolvedHandle o hArg) in *.
  set (x := setID id (setHandle h o)) in *.
  set (pool := availableObjectIDs_ s_id) in *.
  set (s1 := registeredState s l x h id pool) in *.
  assert (Hlt : l < length (heap s)) by (eapply lookup_lt_Some; eauto).
  destruct (registered_entry s l x h id pool Hlt) as (Hlib & Hq & _ & _).
  fold s1 in Hlib, Hq.
  destruct (lib_indexed s1 Hc1 h _ Hlib) as (x' & Hx' & Hidx).
  assert (x' = x) as -> by congruence.
  assert (Hidx' : objectLibKeyByID_ s1 !! id = Some h) by exact Hidx.
  exists (length (heap s)), x. split_and!; try done.
  - apply (getObjectIDByHandle_hit h s1 (length (heap s)) x); done.
  - unfold getObjectHandleByID. rewrite Hidx'. reflexivity.
  - eapply getObjectByID_hit; eauto.
  - apply getObjectByHandle_hit. exact Hlib.
  - unfold observe, getObjectCopyByID. cbv beta iota delta [bind gets].
    unfold getObjectHandleByID. rewrite Hidx'. simpl.
    change (match getObjectCopyByHandle h s1 with
            | Ok (Some l0) s' => heap s' !! l0
            | _ => None
            end = Some x).
    rewrite (getObjectCopyByHandle_hit h s1 (length (heap s)) x U);
      try done.
    cbn [heap withHeap]. apply list_lookup_middle. reflexivity.
Qed.

(** X9, registration touches one entry.  A successful registration under
    handle [h] leaves the library entry of every other handle and the index
    entry of every other ID as they were; it leaves every object of the
    store other than the registered instance as it was and adds one object;
    the protection sets and the copy-constructor map stay. *)
Theorem registration_leaves_other_entries s l o hArg force id s1 :
  heap s !! l = Some o →
  registerObject (Some l) hArg force s = Ok id s1 →
  id ≠ ID_UNDEFINED →
  (∀ h', h' ≠ resolvedHandle o hArg →
         objectLibrary_ s1 !! h' = objectLibrary_ s !! h') ∧
  (∀ i, i ≠ id → objectLibKeyByID_ s1 !! i = objectLibKeyByID_ s !! i) ∧
  (∀ q, q ≠ l → q < length (heap s) → heap s1 !! q = heap s !! q) ∧
  length (heap s1) = S (length (heap s)) ∧
  undeletableObjectNames_ s1 = undeletableObjectNames_ s ∧
  userLockedObjectNames_ s1 = userLockedObjectNames_ s ∧
  copyConstructorMap_ s1 = copyConstructorMap_ s.
Proof.
  intros Hl H Hid.
  destruct (registerObject_registered _ _ _ _ _ _ _ Hl H Hid)
    as (U & s_id & _ & _ & _ & _ & ->).
  assert (Hlt : l < length (heap s)) by (eapply lookup_lt_Some; eauto).
  cbn [registeredState heap objectLibrary_ objectLibKeyByID_
         undeletableObjectNames_ userLockedObjectNames_ copyConstructorMap_].
  split_and!; try done.
  - intros h' Hne. apply lookup_insert_ne. done.
  - intros i Hne. unfold emplace.
    destruct (objectLibKeyByID_ s !! id); [done|].
    apply lookup_insert_ne. done.
  - intros q Hne Hq. rewrite lookup_app_l by (rewrite length_insert; done).
    apply list_lookup_insert_ne. done.
  - rewrite length_app, length_insert. simpl. lia.
Qed.

(** X10, a second handle is a second entry.  When the caller registers the
    same instance first under [h1] and then under a new handle [h2], the
    entry of [h1] stays: the two handles have different IDs and different
    stored instances, the one under [h1] still carries [h1] and the first
    ID, and the instance of the caller carries [h2] and the second ID. *)
Theorem second_handle_is_second_entry s l o h1 h2 f1 f2 id1 s1 id2 s2 :
  reachable callerOwnedArguments s →
  ¬ internalInstance s (Some l) →
  heap s !! l = Some o →
  h1 ≠ "" → h2 ≠ "" → h1 ≠ h2 →
  objectLibrary_ s !! h2 = None →
  registerObject (Some l) h1 f1 s = Ok id1 s1 → id1 ≠ ID_UNDEFINED →
  registerObject (Some l) h2 f2 s1 = Ok id2 s2 → id2 ≠ ID_UNDEFINED →
  id1 ≠ id2 ∧
  ∃ q1 q2 x1 x2,
    q1 ≠ q2 ∧
    objectLibrary_ s2 !! h1 = Some q1 ∧ heap s2 !! q1 = Some x1 ∧
    getHandle x1 = h1 ∧ getID x1 = id1 ∧
    objectLibrary_ s2 !! h2 = Some q2 ∧ heap s2 !! q2 = Some x2 ∧
    getHandle x2 = h2 ∧ getID x2 = id2 ∧
    heap s2 !! l = Some x2.
Proof.
  intros Hr Hown Hl Hh1 Hh2 Hne Hn2 H1 Hid1 H2 Hid2.
  pose proof (reachable_Consistent s Hr) as Hc.
  pose proof (Consistent_registerObject _ _ _ _ _ _ Hc Hown H1) as Hc1.
  destruct (registerObject_registered _ _ _ _ _ _ _ Hl H1 Hid1)
    as (U & s_id & _ & _ & HU & _ & ->).
  rewrite (resolvedHandle_explicit o h1 Hh1) in *.
  set (x1 := setID id1 (setHandle h1 o)) in *.
  set (pool1 := availableObjectIDs_ s_id) in *. clearbody pool1.
  set (s1 := registeredState s l x1 h1 id1 pool1) in *.
  assert (Hlt : l < length (heap s)) by (eapply lookup_lt_Some; eauto).
  destruct (registered_entry s l x1 h1 id1 pool1 Hlt)
    as (Hlib1 & Hq1 & Hlx1 & Hlen1).
  fold s1 in Hlib1, Hq1, Hlx1, Hlen1.
  destruct (lib_indexed s1 Hc1 h1 _ Hlib1) as (x' & Hx' & Hidx1).
  assert (x' = x1) as -> by congruence.
  assert (Hidx1' : objectLibKeyByID_ s1 !! id1 = Some h1) by exact Hidx1.
  assert (Hn2' : objectLibrary_ s1 !! h2 = None).
  { unfold s1. cbn [registeredState objectLibrary_].
    rewrite lookup_insert_ne by done. exact Hn2. }
  destruct (registerObject_registered _ _ _ _ _ _ _ Hlx1 H2 Hid2)
    as (U2 & s_id2 & _ & _ & _ & Hgid2 & ->).
  rewrite (resolvedHandle_explicit x1 h2 Hh2) in *.
  assert (Hown1 : ¬ internalInstance s1 (Some l)).
  { intros (l' & h' & [= <-] & Hh'). unfold s1 in Hh'.
    cbn [registeredState objectLibrary_] in Hh'.
    apply lookup_insert_Some in Hh' as [[_ Hh']|[_ Hh']]; [lia|].
    apply Hown. exists l, h'. done. }
  assert (Hfresh : objectLibKeyByID_ s1 !! id2 = None).
  { apply getObjectIDByHandleOrNew_Ok in Hgid2
      as [(q0 & o0 & Hq0 & _)|[_ Hun]].
    { cbn [withHeap objectLibrary_] in Hq0. congruence. }
    pose proof (Consistent_mutate s1 l (setHandle h2 x1) Hc1 Hown1) as Hcm.
    destruct (getUnusedObjectID_fresh _ _ _ Hcm Hun) as (Hf & _).
    exact Hf. }
  assert (Hlt1 : l < length (heap s1)) by lia.
  destruct (registered_entry s1 l (setID id2 (setHandle h2 x1)) h2 id2
              (availableObjectIDs_ s_id2) Hlt1) as (Hlib2 & Hq2 & Hlx2 & _).
  split; [congruence|].
  exists (length (heap s)), (length (heap s1)), x1,
    (setID id2 (setHandle h2 x1)).
  split_and!; try done.
  - lia.
  - cbn [registeredState objectLibrary_]. rewrite lookup_insert_ne by done.
    exact Hlib1.
  - cbn [registeredState heap].
    apply registered_heap_other; [exact Hq1|lia].
Qed.

(** ** When registration goes through *)

Lemma getObjectIDByHandleOrNew_total h s :
  storedValid s → ∃ id s', getObjectIDByHandleOrNew h true s = Ok id s'.
Proof.
  intros Hv. unfold getObjectIDByHandleOrNew, gets, bind at 1.
  destruct (getObjectLibHasHandle h s) eqn:E.
  - apply getObjectLibHasHandle_true in E as [q Hq].
    destruct (lookup_lt_is_Some_2 (heap s) q (Hv h q Hq)) as [o Ho].
    unfold bind at 1. unfold getObjectInternal. rewrite Hq.
    rewrite (bind_run _ _ _ _ _ (deref_run _ _ _ Ho)). eauto.
  - simpl. unfold getUnusedObjectID.
    destruct (availableObjectIDs_ s); eauto.
Qed.

(** [addObjectToLibrary] on an object of the store runs up to the copy: the
    instance then carries the handle and an ID, the rest of the state is as
    before, up to the pool of free IDs. *)
Lemma addObjectToLibrary_upto_copy s l o h :
  storedValid s → heap s !! l = Some o →
  ∃ id pool,
    addObjectToLibrary (Some l) h s
    = (let* managedObjectCopy := copyObject (Some l) in
       setObjectInternal managedObjectCopy h ;;;
       modify (withKeyByID (emplace id h)) ;;;
       ret id)
        (withAvailableIDs (fun _ => pool)
           (withHeap (fun hp => <[l := setID id (setHandle h o)]> hp) s)).
Proof.
  intros Hv Hl.
  assert (Hlt : l < length (heap s)) by (eapply lookup_lt_Some; eauto).
  set (sh := withHeap (fun hp => <[l := setHandle h o]> hp) s).
  assert (Hvh : storedValid sh).
  { unfold storedValid, sh. cbn [withHeap heap objectLibrary_].
    rewrite length_insert. exact Hv. }
  destruct (getObjectIDByHandleOrNew_total h sh Hvh) as (id & s_id & Hgid).
  pose proof (getObjectIDByHandleOrNew_frame _ _ _ _ Hgid) as Hfr.
  set (pool := availableObjectIDs_ s_id) in Hfr. clearbody pool.
  exists id, pool. unfold addObjectToLibrary.
  rewrite (bind_run _ _ _ _ _ (update_run l (setHandle h) s o Hl)).
  fold sh. rewrite (bind_run _ _ _ _ _ Hgid). subst s_id.
  assert (Hl2 : heap (withAvailableIDs (fun _ => pool) sh) !! l
                = Some (setHandle h o)).
  { unfold sh. cbn [withAvailableIDs withHeap heap].
    apply list_lookup_insert_eq. done. }
  rewrite (bind_run _ _ _ _ _ (update_run l (setID id) _ _ Hl2)).
  f_equal. unfold sh, withAvailableIDs, withHeap. simpl.
  rewrite list_insert_insert_eq. reflexivity.
Qed.

(** X11, when registration goes through.  For an object of the store whose
    class key has a copy constructor, a resolved handle that is not empty
    and a finalize step that accepts, [registerObject] returns an ID; the
    library then holds, under the handle, a new instance with the value the
    caller's instance has after the call.  Nothing is asked of the
    protection sets, which stay as they were: an undeletable or user-locked
    handle cannot be removed, but registering under it replaces its
    object. *)
Theorem registerObject_succeeds s l o hArg force :
  storedValid s → heap s !! l = Some o →
  is_Some (copyConstructorMap_ s !! getClassKey o) →
  resolvedHandle o hArg ≠ "" →
  finalizeAccepts o (resolvedHandle o hArg) force = true →
  ∃ id s1 x,
    registerObject (Some l) hArg force s = Ok id s1 ∧
    objectLibrary_ s1 !! resolvedHandle o hArg = Some (length (heap s)) ∧
    heap s1 !! length (heap s) = Some x ∧ heap s1 !! l = Some x ∧
    x = setID id (setHandle (resolvedHandle o hArg) o) ∧
    undeletableObjectNames_ s1 = undeletableObjectNames_ s ∧
    userLockedObjectNames_ s1 = userLockedObjectNames_ s.
Proof.
  intros Hv Hl [U HU] Hh Hacc.
  assert (Hlt : l < length (heap s)) by (eapply lookup_lt_Some; eauto).
  destruct (addObjectToLibrary_upto_copy s l o (resolvedHandle o hArg) Hv Hl)
    as (id & pool & Hadd).
  set (h := resolvedHandle o hArg) in *.
  set (x := setID id (setHandle h o)) in *.
  set (s3 := withAvailableIDs (fun _ => pool)
               (withHeap (fun hp => <[l := x]> hp) s)) in *.
  assert (Hl3 : heap s3 !! l = Some x).
  { unfold s3. cbn [withAvailableIDs withHeap heap].
    apply list_lookup_insert_eq. done. }
  assert (HU3 : copyConstructorMap_ s3 !! getClassKey x = Some U)
    by exact HU.
  rewrite (bind_run _ _ _ _ _ (copyObject_run l s3 x U Hl3 HU3)) in Hadd.
  assert (Hreg : registerObject (Some l) hArg force s
                 = addObjectToLibrary (Some l) h s).
  { unfold registerObject. fold (resolvedHandle o hArg) in *.
    assert (Hfin : registerObjectFinalize (Some l) h force s
                   = addObjectToLibrary (Some l) h s).
    { unfold registerObjectFinalize.
      rewrite (bind_run _ _ _ _ _ (deref_run _ _ _ Hl)).
      fold h in Hacc. rewrite Hacc. reflexivity. }
    subst h. unfold resolvedHandle in *.
    destruct (String.eqb "" hArg) eqn:E; cbv beta iota delta [negb].
    - rewrite (bind_run _ _ _ _ _ (deref_run _ _ _ Hl)).
      destruct (String.eqb "" (getHandle o)) eqn:E2; [|exact Hfin].
      apply eqb_empty_true in E2. done.
    - exact Hfin. }
  rewrite Hreg, Hadd. eexists id, _, x. split; [reflexivity|].
  unfold s3. cbn. rewrite length_insert. split_and!; try done.
  - apply lookup_insert_eq.
  - apply list_lookup_middle. rewrite length_insert. reflexivity.
  - rewrite lookup_app_l by (rewrite length_insert; done).
    apply list_lookup_insert_eq. done.
Qed.

(** X12, an object of a class without copy constructor cannot be
    registered.  When the finalize step accepts such an object,
    [registerObject] runs into the call through the null copy constructor:
    it returns no ID. *)
Theorem registerObject_unknown_class_faults s l o hArg force :
  storedValid s → heap s !! l = Some o →
  copyConstructorMap_ s !! getClassKey o = None →
  resolvedHandle o hArg ≠ "" →
  finalizeAccepts o (resolvedHandle o hArg) force = true →
  registerObject (Some l) hArg force s = Fault NullCopyConstructor.
Proof.
  intros Hv Hl HU Hh Hacc.
  assert (Hlt : l < length (heap s)) by (eapply lookup_lt_Some; eauto).
  destruct (addObjectToLibrary_upto_copy s l o (resolvedHandle o hArg) Hv Hl)
    as (id & pool & Hadd).
  set (h := resolvedHandle o hArg) in *.
  set (x := setID id (setHandle h o)) in *.
  set (s3 := withAvailableIDs (fun _ => pool)
               (withHeap (fun hp => <[l := x]> hp) s)) in *.
  assert (Hl3 : heap s3 !! l = Some x).
  { unfold s3. cbn [withAvailableIDs withHeap heap].
    apply list_lookup_insert_eq. done. }
  assert (HU3 : copyConstructorMap_ s3 !! getClassKey x = None) by exact HU.
  assert (Hadd' : addObjectToLibrary (Some l) h s
                  = Fault NullCopyConstructor).
  { rewrite Hadd. unfold bind at 1.
    rewrite (copyObject_miss l s3 x Hl3 HU3). reflexivity. }
  unfold registerObject. fold (resolvedHandle o hArg) in *.
  assert (Hfin : registerObjectFinalize (Some l) h force s
                 = Fault NullCopyConstructor).
  { unfold registerObjectFinalize.
    rewrite (bind_run _ _ _ _ _ (deref_run _ _ _ Hl)).
    fold h in Hacc. rewrite Hacc. exact Hadd'. }
  subst h. unfold resolvedHandle in *.
  destruct (String.eqb "" hArg) eqn:E; cbv beta iota delta [negb].
  - rewrite (bind_run _ _ _ _ _ (deref_run _ _ _ Hl)).
    destruct (String.eqb "" (getHandle o)) eqn:E2; [|exact Hfin].
    apply eqb_empty_true in E2. done.
  - exact Hfin.
Qed.

(** ** The entry that a registration writes *)


(** ** Copies and the stored instance *)

(** X13, copy accessors hand out new instances.  Two calls of
    [getObjectCopyByHandle] on a handle return two different instances of
    equal value; neither is stored under any handle, and the library is as
    it was. *)
Theorem copies_are_new_instances s h c1 s1 c2 s2 :
  storedValid s →
  getObjectCopyByHandle h s = Ok (Some c1) s1 →
  getObjectCopyByHandle h s1 = Ok (Some c2) s2 →
  c1 ≠ c2 ∧ heap s2 !! c1 = heap s2 !! c2 ∧ is_Some (heap s2 !! c1) ∧
  ¬ internalInstance s2 (Some c1) ∧ ¬ internalInstance s2 (Some c2) ∧
  objectLibrary_ s2 = objectLibrary_ s.
Proof.
  intros Hv H1 H2.
  apply getObjectCopyByHandle_Ok in H1 as (q & o & Hq & Ho & -> & ->).
  apply getObjectCopyByHandle_Ok in H2 as (q' & o' & Hq' & Ho' & -> & ->).
  cbn [withHeap heap objectLibrary_] in *.
  assert (q' = q) as -> by congruence.
  assert (Hlt : q < length (heap s)) by (eapply lookup_lt_Some; eauto).
  rewrite lookup_app_l in Ho' by done.
  assert (o' = o) as -> by congruence.
  rewrite length_app. simpl. split_and!.
  - lia.
  - rewrite lookup_app_l by (rewrite length_app; simpl; lia).
    rewrite (list_lookup_middle (heap s) [] o) by reflexivity.
    rewrite (list_lookup_middle (heap s ++ [o]) [] o)
      by (rewrite length_app; simpl; lia).
    reflexivity.
  - rewrite lookup_app_l by (rewrite length_app; simpl; lia).
    rewrite (list_lookup_middle (heap s) [] o) by reflexivity. eauto.
  - intros (l & h' & [= <-] & Hh'). apply Hv in Hh'. simpl in Hh'. lia.
  - intros (l & h' & [= <-] & Hh'). apply Hv in Hh'. simpl in Hh'. lia.
  - reflexivity.
Qed.

(** X14, the instance that [getObjectByHandle] returns is the stored one.
    What is written into it is what the next fetch gives, by reference and
    by copy, without any registration. *)
Theorem write_through_internal_instance s h q v U :
  getObjectByHandle h s = Ok (Some q) s →
  q < length (heap s) →
  copyConstructorMap_ s !! getClassKey v = Some U →
  fetchesAs h (mutate q v s) q v.
Proof.
  intros H Hlt HU.
  assert (Hq : objectLibrary_ s !! h = Some q).
  { revert H. unfold getObjectByHandle, checkExistsWithMessage.
    cbv beta iota delta [bind gets].
    destruct (getObjectLibHasHandle h s); cbv beta iota delta [negb ret].
    - unfold getObjectInternal. congruence.
    - discriminate. }
  apply fetch_now with (U := U).
  - exact Hq.
  - unfold mutate. cbn [withHeap heap]. apply list_lookup_insert_eq. done.
  - exact HU.
Qed.

(** ** Bulk removal *)

Lemma removeEach_protected hs : ∀ s res,
  (∀ h, h ∈ hs → isProtected s h) → removeEach hs res s = Ok res s.
Proof.
  induction hs as [|a hs IH]; intros s res Hp; simpl; [reflexivity|].
  rewrite (bind_run _ _ _ _ _
             (removeObjectInternal_protected a _ s (Hp a ltac:(left)))).
  apply IH. intros h Hh. apply Hp. by right.
Qed.

(** X15, removal by substring is idempotent.  Right after
    [removeObjectsBySubstring], the same call removes nothing: it returns
    the empty list and leaves the state as it is. *)
Theorem removeObjectsBySubstring_twice s subStr contains res s1 :
  storedValid s →
  removeObjectsBySubstring subStr contains s = Ok res s1 →
  removeObjectsBySubstring subStr contains s1 = Ok [] s1.
Proof.
  intros Hv H.
  destruct (removeEach_spec (getObjectHandlesBySubstring subStr contains s)
              s [] (getObjectHandlesBySubstring_NoDup _ _ _) Hv)
    as (res' & s' & Hrun & _ & Hu & Hk & Hlib & _).
  { intros h Hh. apply getObjectHandlesBySubstring_elem in Hh as [? _].
    done. }
  unfold removeObjectsBySubstring, gets, bind at 1 in H.
  rewrite Hrun in H. injection H as _ <-.
  unfold removeObjectsBySubstring, gets, bind at 1.
  apply removeEach_protected. intros h Hh.
  apply getObjectHandlesBySubstring_elem in Hh as [[q Hq] Hm].
  rewrite (Hlib h) in Hq.
  destruct (decide (isProtected s h)) as [Hp|Hp].
  - unfold isProtected in *. rewrite Hu, Hk. exact Hp.
  - exfalso. case_decide as Hd; [discriminate|]. apply Hd.
    split; [|done]. apply getObjectHandlesBySubstring_elem. eauto.
Qed.

Lemma removeEach_index_shrinks hs : ∀ s res r s1,
  removeEach hs res s = Ok r s1 →
  ∀ i h, objectLibKeyByID_ s1 !! i = Some h →
         objectLibKeyByID_ s !! i = Some h.
Proof.
  induction hs as [|a hs IH]; intros s res r s1 H i h Hi; simpl in H.
  - unfold ret in H. injection H as _ <-. exact Hi.
  - apply bind_Ok in H as (ptr & s2 & Hr & H).
    assert (Hi2 : objectLibKeyByID_ s2 !! i = Some h)
      by (destruct ptr; eapply IH; eauto).
    apply removeObjectInternal_Ok in Hr
      as [[_ ->]|(q & o & _ & _ & _ & _ & ->)]; [done|].
    cbn in Hi2. apply lookup_delete_Some in Hi2 as [_ Hi2]. exact Hi2.
Qed.

(** X16, what [removeAllObjects] leaves.  In a state reached with
    caller-owned registration arguments, after [removeAllObjects] the
    library holds the entries of the protected handles and no other, and
    the ID index holds the IDs of the protected handles and no other; with
    no protected handle registered, both are empty. *)
Theorem removeAllObjects_leaves_protected_only s res s1 :
  reachable callerOwnedArguments s →
  removeAllObjects s = Ok res s1 →
  (∀ h, objectLibrary_ s1 !! h
        = if decide (isProtected s h) then objectLibrary_ s !! h else None) ∧
  (∀ i h, objectLibKeyByID_ s1 !! i = Some h ↔
          objectLibKeyByID_ s !! i = Some h ∧ isProtected s h) ∧
  ((∀ h, is_Some (objectLibrary_ s !! h) → ¬ isProtected s h) →
   objectLibrary_ s1 = ∅ ∧ objectLibKeyByID_ s1 = ∅).
Proof.
  intros Hr H. pose proof (reachable_Consistent s Hr) as Hc.
  pose proof (Consistent_storedValid s Hc) as Hv.
  pose proof (Consistent_removeObjectsBySubstring _ _ _ _ _ Hc H) as Hc1.
  destruct (removeEach_spec (getObjectHandlesBySubstring "" true s)
              s [] (getObjectHandlesBySubstring_NoDup _ _ _) Hv)
    as (res' & s' & Hrun & Hhp & _ & _ & Hlib & _).
  { intros h Hh. apply getObjectHandlesBySubstring_elem in Hh as [? _].
    done. }
  pose proof H as H'.
  unfold removeAllObjects, removeObjectsBySubstring, gets, bind at 1 in H.
  pose proof (removeEach_index_shrinks _ _ _ _ _ H) as Hshr.
  rewrite Hrun in H. injection H as _ <-.
  assert (Hl : ∀ h, objectLibrary_ s' !! h
             = if decide (isProtected s h) then objectLibrary_ s !! h
               else None).
  { intros h. rewrite (Hlib h).
    destruct (decide (isProtected s h)) as [Hp|Hp].
    - rewrite decide_False by (intros [_ ?]; done). reflexivity.
    - destruct (objectLibrary_ s !! h) as [q|] eqn:Hq.
      + rewrite decide_True; [done|]. split; [|done].
        apply getObjectHandlesBySubstring_elem. split; [eauto|].
        exists "", h. reflexivity.
      + destruct (decide _); reflexivity. }
  assert (Hi : ∀ i h, objectLibKeyByID_ s' !! i = Some h ↔
                      objectLibKeyByID_ s !! i = Some h ∧ isProtected s h).
  { intros i h. split.
    - intros Hi. split; [apply Hshr; exact Hi|].
      destruct (id_indexed s' Hc1 i h Hi) as (q & o & Hq & _).
      rewrite (Hl h) in Hq. destruct (decide (isProtected s h)); done.
    - intros [Hi Hp].
      destruct (id_indexed s Hc i h Hi) as (q & o & Hq & Ho & Hid).
      assert (Hq' : objectLibrary_ s' !! h = Some q).
      { rewrite (Hl h). rewrite decide_True by done. exact Hq. }
      destruct (lib_indexed s' Hc1 h q Hq') as (o' & Ho' & Hidx).
      rewrite Hhp in Ho'. assert (o' = o) as -> by congruence.
      rewrite Hid in Hidx. exact Hidx. }
  split_and!; try done.
  intros Hnone. split.
  - apply map_eq. intros h. rewrite lookup_empty, (Hl h).
    destruct (decide (isProtected s h)) as [Hp|]; [|done].
    destruct (objectLibrary_ s !! h) as [q|] eqn:Hq; [|done].
    exfalso. apply (Hnone h); eauto.
  - apply map_eq. intros i. rewrite lookup_empty.
    destruct (objectLibKeyByID_ s' !! i) as [h|] eqn:E; [|done].
    apply Hi in E as [E Hp].
    destruct (id_indexed s Hc i h E) as (q & o & Hq & _).
    exfalso. apply (Hnone h); eauto.
Qed.

(** ** Creation with a registration that is refused *)

(** X17, a refused registration after a build.  When the object is built
    but has no handle, or the finalize step rejects it, the create
    operations with registration return [nullptr]; the built object is in
    the store, and the library, the ID index and the pool are as before. *)
Theorem create_with_refused_registration :
  (∀ name s o, initNewObjectInternal name false = Some o →
     getHandle o = "" ∨ finalizeAccepts o (getHandle o) false = false →
     createDefaultObject name true s
     = Ok None (withHeap (fun hp => hp ++ [o]) s)) ∧
  (∀ file doc s o, verifyLoadDocument file = Some doc →
     buildObjectFromJSONDoc file doc = Some o →
     getHandle o = "" ∨ finalizeAccepts o (getHandle o) false = false →
     createObjectFromJSONFile file true s
     = Ok None (withHeap (fun hp => hp ++ [o]) s)).
Proof.
  assert (Hpost : ∀ s o,
     getHandle o = "" ∨ finalizeAccepts o (getHandle o) false = false →
     postCreateRegister (Some (length (heap s))) true
       (withHeap (fun hp => hp ++ [o]) s)
     = Ok None (withHeap (fun hp => hp ++ [o]) s)).
  { intros s o Hrej.
    set (sb := withHeap (fun hp => hp ++ [o]) s).
    assert (Hl : heap sb !! length (heap s) = Some o)
      by (apply list_lookup_middle; reflexivity).
    assert (Hreg : registerObject (Some (length (heap s))) (getHandle o)
                     false sb = Ok ID_UNDEFINED sb).
    { unfold registerObject.
      destruct (String.eqb "" (getHandle o)) eqn:E;
        cbv beta iota delta [negb].
      - rewrite (bind_run _ _ _ _ _ (deref_run _ _ _ Hl)). rewrite E.
        reflexivity.
      - destruct Hrej as [He|Hrej].
        + apply eqb_empty_true in He. congruence.
        + unfold registerObjectFinalize.
          rewrite (bind_run _ _ _ _ _ (deref_run _ _ _ Hl)).
          rewrite Hrej. reflexivity. }
    unfold postCreateRegister. cbv beta iota delta [negb].
    rewrite (bind_run _ _ _ _ _ (deref_run _ _ _ Hl)).
    rewrite (bind_run _ _ _ _ _ Hreg).
    destruct (decide (ID_UNDEFINED = ID_UNDEFINED)); done. }
  split.
  - intros name s o Hb Hrej. unfold createDefaultObject. rewrite Hb.
    apply Hpost. exact Hrej.
  - intros file doc s o Hd Hb Hrej. unfold createObjectFromJSONFile.
    rewrite Hd, Hb. apply Hpost. exact Hrej.
Qed.

(** X22, a build that gives no object.  [createObjectFromJSONFile] hands
    the result of [buildObjectFromJSONDoc] to [postCreateRegister] without
    a null test: when the document loads but no object is built, the call
    without registration returns [nullptr], and the call with registration
    dereferences [nullptr]. *)
Theorem createObjectFromJSONFile_unchecked_build file doc s :
  verifyLoadDocument file = Some doc →
  buildObjectFromJSONDoc file doc = None →
  createObjectFromJSONFile file false s = Ok None s ∧
  createObjectFromJSONFile file true s = Fault NullDereference ∧
  (∀ reg, exec (createObjectFromJSONFile file reg) s
          = if reg then None else Some s).
Proof.
  intros Hd Hb.
  assert (H : ∀ reg, createObjectFromJSONFile file reg s
                     = postCreateRegister None reg s).
  { intros reg. unfold createObjectFromJSONFile. rewrite Hd, Hb.
    reflexivity. }
  split_and!.
  - rewrite H. reflexivity.
  - rewrite H. reflexivity.
  - intros reg. unfold exec. rewrite H. destruct reg; reflexivity.
Qed.

End MoreProofs.


(** * The default object and the file directory *)

Section DefaultProofs.
Context {Fields : Type}.
Implicit Types (d : DefaultedContainer Fields) (o : ManagedObject Fields).

Lemma constructFromDefault_run d p o U newHandle :
  defaultObj_ d = Some p → heap (registry d) !! p = Some o →
  copyConstructorMap_ (registry d) !! getClassKey o = Some U →
  constructFromDefault newHandle d
  = Ok (Some (length (heap (registry d))))
      (mkDefaultedContainer
         (withHeap (fun hp => hp ++ [setHandle newHandle o]) (registry d))
         (Some p)).
Proof.
  intros Hd Hp HU. unfold constructFromDefault. rewrite Hd.
  rewrite (bind_run _ _ _ _ _ (copyObject_run p (registry d) o U Hp HU)).
  cbv zeta.
  assert (Hn : heap (withHeap (fun hp => hp ++ [o]) (registry d))
               !! length (heap (registry d)) = Some o)
    by (apply list_lookup_middle; reflexivity).
  rewrite (bind_run _ _ _ _ _ (update_run _ (setHandle newHandle) _ _ Hn)).
  unfold ret, withHeap. simpl.
  rewrite insert_app_r_alt by done. rewrite Nat.sub_diag. reflexivity.
Qed.

Lemma constructFromDefault_Ok d newHandle r d' :
  constructFromDefault newHandle d = Ok (Some r) d' →
  ∃ p o, defaultObj_ d = Some p ∧ heap (registry d) !! p = Some o ∧
         r = length (heap (registry d)) ∧
         d' = mkDefaultedContainer
                (withHeap (fun hp => hp ++ [setHandle newHandle o])
                   (registry d)) (Some p).
Proof.
  intros H. destruct (defaultObj_ d) as [p|] eqn:Hd.
  - destruct (heap (registry d) !! p) as [o|] eqn:Hp.
    + destruct (copyConstructorMap_ (registry d) !! getClassKey o)
        as [U|] eqn:HU.
      * rewrite (constructFromDefault_run d p o U) in H by done.
        injection H as <- <-. eauto 10.
      * unfold constructFromDefault in H. rewrite Hd in H.
        unfold bind at 1 in H.
        rewrite (copyObject_miss p (registry d) o Hp HU) in H. discriminate.
    + unfold constructFromDefault in H. rewrite Hd in H.
      unfold bind at 1, copyObject, bind at 1, deref in H.
      rewrite Hp in H. discriminate.
  - unfold constructFromDefault in H. rewrite Hd in H. discriminate.
Qed.

(** X18, construction from the default object.  Without a default object
    [constructFromDefault] returns [nullptr] and changes nothing.  With
    one, it returns a new instance that has the value of the default object
    with the new handle; the default object keeps its value and stays the
    default, and the library, the ID index and the pool are untouched: the
    new object is not registered. *)
Theorem constructFromDefault_behaviour :
  (∀ d newHandle,
     constructFromDefault newHandle (clearDefaultObject d)
     = Ok None (clearDefaultObject d)) ∧
  (∀ d p o U newHandle,
     heap (registry d) !! p = Some o →
     copyConstructorMap_ (registry d) !! getClassKey o = Some U →
     ∃ r d',
       constructFromDefault newHandle (setDefaultObject (Some p) d)
       = Ok (Some r) d' ∧
       r ≠ p ∧
       heap (registry d') !! r = Some (setHandle newHandle o) ∧
       heap (registry d') !! p = Some o ∧
       defaultObj_ d' = Some p ∧
       objectLibrary_ (registry d') = objectLibrary_ (registry d) ∧
       objectLibKeyByID_ (registry d') = objectLibKeyByID_ (registry d) ∧
       availableObjectIDs_ (registry d') = availableObjectIDs_ (registry d) ∧
       (storedValid (registry d) → ¬ internalInstance (registry d') (Some r))).
Proof.
  split; [reflexivity|].
  intros d p o U newHandle Hp HU.
  assert (Hlt : p < length (heap (registry d)))
    by (eapply lookup_lt_Some; eauto).
  eexists _, _. split.
  { apply (constructFromDefault_run (setDefaultObject (Some p) d) p o U);
      done. }
  cbn [registry defaultObj_ setDefaultObject withHeap heap objectLibrary_
         objectLibKeyByID_ availableObjectIDs_].
  split_and!; try done.
  - lia.
  - apply list_lookup_middle. reflexivity.
  - apply lookup_app_l_Some. exact Hp.
  - intros Hv (l & h & [= <-] & Hh). apply Hv in Hh. simpl in Hh. lia.
Qed.

(** X19, two constructions from the default.  Two calls of
    [constructFromDefault] in a row give two different instances whose
    values are the value of one object with the one and the other handle:
    they are equal except for the handle. *)
Theorem constructFromDefault_twice d h1 r1 d1 h2 r2 d2 :
  constructFromDefault h1 d = Ok (Some r1) d1 →
  constructFromDefault h2 d1 = Ok (Some r2) d2 →
  r1 ≠ r2 ∧
  ∃ o, heap (registry d2) !! r1 = Some (setHandle h1 o) ∧
       heap (registry d2) !! r2 = Some (setHandle h2 o).
Proof.
  intros H1 H2.
  apply constructFromDefault_Ok in H1 as (p & o & Hd & Hp & -> & ->).
  apply constructFromDefault_Ok in H2 as (p' & o' & Hd' & Hp' & -> & ->).
  cbn [registry defaultObj_ withHeap heap] in *.
  injection Hd' as <-.
  assert (Hlt : p < length (heap (registry d)))
    by (eapply lookup_lt_Some; eauto).
  rewrite lookup_app_l in Hp' by done.
  assert (o' = o) as -> by congruence.
  rewrite length_app. simpl. split; [lia|]. exists o. split.
  - rewrite lookup_app_l by (rewrite length_app; simpl; lia).
    apply list_lookup_middle. reflexivity.
  - apply list_lookup_middle. rewrite length_app. simpl. lia.
Qed.

(** X20, the default object is shared, not copied.  [setDefaultObject]
    keeps the pointer of the caller: what the caller writes into that
    instance afterwards is what [constructFromDefault] copies. *)
Theorem default_object_is_shared d p v U newHandle :
  p < length (heap (registry d)) →
  copyConstructorMap_ (registry d) !! getClassKey v = Some U →
  ∃ r d',
    constructFromDefault newHandle
      (mkDefaultedContainer
         (mutate p v (registry (setDefaultObject (Some p) d)))
         (defaultObj_ (setDefaultObject (Some p) d)))
    = Ok (Some r) d' ∧
    heap (registry d') !! r = Some (setHandle newHandle v).
Proof.
  intros Hlt HU. eexists _, _. split.
  - apply (constructFromDefault_run _ p v U); try done.
    cbn. apply list_lookup_insert_eq. done.
  - cbn. apply list_lookup_middle. rewrite length_insert. reflexivity.
Qed.

End DefaultProofs.

Section FileDirectoryProofs.
Context {Fields : Type} {fileFields : FileDirectoryFields Fields}.
Implicit Types (s : ManagedContainer Fields) (o : ManagedObject Fields).

Lemma find_last_of_found (pre post : string) :
  is_Some (find_last_of (pre ++ String slash post) slash).
Proof.
  induction pre as [|a pre IH]; simpl.
  - destruct (find_last_of post slash); [eauto|].
    rewrite ?Ascii.eqb_refl. eauto.
  - destruct IH as [i ->]. eauto.
Qed.

Lemma find_last_of_None (f : string) :
  find_last_of f slash = None ↔ ¬ isSubstringOf "/" f.
Proof.
  split.
  - intros Hn (pre & post & ->).
    destruct (find_last_of_found pre post) as [i Hi].
    change ("/" ++ post)%string with (String slash post) in Hn. congruence.
  - intros Hn. destruct (find_last_of f slash) as [i|] eqn:E; [|done].
    exfalso. apply Hn. clear Hn. revert i E.
    induction f as [|a f IH]; intros i E; simpl in E; [discriminate|].
    destruct (find_last_of f slash) as [j|] eqn:Ej.
    + destruct (IH j eq_refl) as (pre & post & ->).
      exists (String a pre), post. reflexivity.
    + destruct (Ascii.eqb a slash) eqn:Ea; [|discriminate].
      apply Ascii.eqb_eq in Ea as ->. exists ""%string, f. reflexivity.
Qed.

Lemma find_last_of_last (dir file : string) :
  ¬ isSubstringOf "/" file →
  find_last_of (dir ++ "/" ++ file) slash = Some (String.length dir).
Proof.
  intros Hn. apply find_last_of_None in Hn.
  change ("/" ++ file)%string with (String slash file).
  induction dir as [|a dir IH]; simpl.
  - rewrite Hn, ?Ascii.eqb_refl. reflexivity.
  - rewrite IH. reflexivity.
Qed.

Lemma substring_prefix (dir rest : string) :
  String.substring 0 (String.length dir) (dir ++ rest) = dir.
Proof.
  induction dir as [|a dir IH]; simpl.
  - destruct rest; reflexivity.
  - rewrite IH. reflexivity.
Qed.

(** X21, the file directory of a handle.  For a handle of the form
    [dir/file], where [file] has no separator, [setFileDirectoryFromHandle]
    sets the file directory of the object to [dir] and leaves handle, ID and
    class key; for a handle without separator it changes nothing. *)
Theorem setFileDirectoryFromHandle_behaviour :
  (∀ s l o (dir file : string),
     heap s !! l = Some o →
     getHandle o = (dir ++ "/" ++ file)%string →
     ¬ isSubstringOf "/" file →
     setFileDirectoryFromHandle (Some l) s
     = Ok tt (withHeap (fun hp => <[l := withFileDirectory dir o]> hp) s)) ∧
  (∀ s l o,
     heap s !! l = Some o →
     ¬ isSubstringOf "/" (getHandle o) →
     setFileDirectoryFromHandle (Some l) s = Ok tt s).
Proof.
  split.
  - intros s l o dir file Hl Hh Hn. unfold setFileDirectoryFromHandle.
    rewrite (bind_run _ _ _ _ _ (deref_run _ _ _ Hl)). cbv zeta.
    rewrite Hh, (find_last_of_last dir file Hn), substring_prefix.
    apply update_run. exact Hl.
  - intros s l o Hl Hn. unfold setFileDirectoryFromHandle.
    rewrite (bind_run _ _ _ _ _ (deref_run _ _ _ Hl)). cbv zeta.
    apply find_last_of_None in Hn. rewrite Hn. reflexivity.
Qed.

End FileDirectoryProofs.


(** * Concrete runs of the further properties *)

Lemma demoAliased_reachable : reachable anyArguments demoAliased.
Proof.
  eapply reachable_step with (op := OpRegisterObject (Some 1) "b" false)
                             (s := demoRegistered);
    [|done|vm_compute; reflexivity].
  eapply reachable_step with (op := OpRegisterObject (Some 0) "" false)
                             (s := demoCaller);
    [|done|vm_compute; reflexivity].
  apply reachable_new. repeat split.
Defined.

Lemma demoGuardedPair_reachable :
  reachable callerOwnedArguments demoGuardedPair.
Proof.
  eapply reachable_step
    with (op := OpRegisterObject (Some 1) "" false)
         (s := after (registerObject (Some 0) "" false) demoGuardedCaller).
  - eapply reachable_step with (op := OpRegisterObject (Some 0) "" false)
                               (s := demoGuardedCaller).
    + apply reachable_new. repeat split.
    + intros (l & h & [= <-] & Hl). discriminate.
    + vm_compute. reflexivity.
  - intros (l & h & [= <-] & Hl).
    assert (E : objectLibrary_
                  (after (registerObject (Some 0) "" false) demoGuardedCaller)
                = {["a" := 2]}) by (vm_compute; reflexivity).
    rewrite E in Hl. apply lookup_singleton_Some in Hl as [_ [=]].
  - vm_compute. reflexivity.
Defined.

Lemma demoRegistered_owns_0 : ¬ internalInstance demoRegistered (Some 0).
Proof.
  intros (l & h & [= <-] & Hl).
  assert (E : objectLibrary_ demoRegistered = {["a" := 1]})
    by (vm_compute; reflexivity).
  rewrite E in Hl. apply lookup_singleton_Some in Hl as [_ [=]].
Defined.

Lemma unregistered_handle_not_found_witness :
  objectLibrary_ demoRegistered !! "missing" = None ∧
  getObjectByHandle "missing" demoRegistered = Ok None demoRegistered ∧
  getObjectCopyByHandle "missing" demoRegistered = Ok None demoRegistered ∧
  removeObjectByHandle "missing" demoRegistered = Ok None demoRegistered ∧
  getObjectIDByHandle "missing" demoRegistered
  = Ok ID_UNDEFINED demoRegistered.
Proof.
  assert (H : objectLibrary_ demoRegistered !! "missing" = None)
    by (vm_compute; reflexivity).
  split; [exact H|].
  exact (unregistered_handle_not_found "missing" demoRegistered H).
Defined.

Lemma unresolved_ID_not_found_witness :
  objectLibrary_ demoRegistered !! getObjectHandleByID 9999 demoRegistered
  = None ∧
  getObjectByID 9999 demoRegistered = Ok None demoRegistered ∧
  getObjectCopyByID 9999 demoRegistered = Ok None demoRegistered ∧
  removeObjectByID 9999 demoRegistered = Ok None demoRegistered.
Proof.
  assert (H : objectLibrary_ demoRegistered
                !! getObjectHandleByID 9999 demoRegistered = None)
    by (vm_compute; reflexivity).
  split; [exact H|].
  exact (unresolved_ID_not_found 9999%Z demoRegistered H).
Defined.

Lemma removal_purges_entry_witness :
  (objectLibrary_ demoFurniture !! "chair_1" = Some 1 ∧
   heap demoFurniture !! 1 = Some (setID 0%Z (demoObject "chair_1" 0)) ∧
   ¬ isProtected demoFurniture "chair_1") ∧
  ∃ s', removeObjectByHandle "chair_1" demoFurniture = Ok (Some 1) s' ∧
        heap s' = heap demoFurniture ∧
        getObjectByHandle "chair_1" s' = Ok None s' ∧
        getObjectHandleByID (getID (setID 0%Z (demoObject "chair_1" 0))) s'
        = "" ∧
        availableObjectIDs_ s'
        = getID (setID 0%Z (demoObject "chair_1" 0))
            :: availableObjectIDs_ demoFurniture ∧
        (∀ h', h' ≠ "chair_1" →
               objectLibrary_ s' !! h' = objectLibrary_ demoFurniture !! h') ∧
        (∀ i, i ≠ getID (setID 0%Z (demoObject "chair_1" 0)) →
              objectLibKeyByID_ s' !! i
              = objectLibKeyByID_ demoFurniture !! i).
Proof.
  assert (H1 : objectLibrary_ demoFurniture !! "chair_1" = Some 1)
    by (vm_compute; reflexivity).
  assert (H2 : heap demoFurniture !! 1
               = Some (setID 0%Z (demoObject "chair_1" 0)))
    by (vm_compute; reflexivity).
  assert (H3 : ¬ isProtected demoFurniture "chair_1").
  { intros [H|H]; vm_compute in H; discriminate. }
  split; [exact (conj H1 (conj H2 H3))|].
  exact (removal_purges_entry demoFurniture "chair_1" 1
           (setID 0%Z (demoObject "chair_1" 0)) H1 H2 H3).
Defined.

Lemma registerObjectAndUpdate_behaviour_witness :
  registerObjectAndUpdate None demoCaller = Fault NullDereference ∧
  heap demoCaller !! 0 = Some (demoObject "a" 7) ∧
  registerObjectAndUpdate (Some 0) demoCaller
  = registerObject (Some 0) "" false demoCaller.
Proof.
  destruct (@registerObjectAndUpdate_behaviour nat demoFamily) as (R1 & R2).
  split; [apply R1|]. split; [reflexivity|].
  apply (R2 demoCaller 0 (demoObject "a" 7)). reflexivity.
Defined.

Lemma reachable_states_are_wellformed_witness :
  reachable anyArguments demoAliased ∧
  storedValid demoAliased ∧ objectLibrary_ demoAliased !! "" = None ∧
  (∀ h, ∃ r s', removeObjectByHandle h demoAliased = Ok r s') ∧
  (∀ i, ∃ r s', removeObjectByID i demoAliased = Ok r s') ∧
  (∀ subStr contains, ∃ res s',
     removeObjectsBySubstring subStr contains demoAliased = Ok res s') ∧
  (∀ h, ∃ r s', getObjectCopyByHandle h demoAliased = Ok r s') ∧
  (∀ i, ∃ r s', getObjectCopyByID i demoAliased = Ok r s').
Proof.
  split; [exact demoAliased_reachable|].
  exact (reachable_states_are_wellformed demoAliased demoAliased_reachable).
Defined.

Lemma object_fetched_by_ID_has_that_ID_witness :
  (reachable callerOwnedArguments demoRegistered ∧
   getObjectByID 0 demoRegistered = Ok (Some 1) demoRegistered) ∧
  ∃ h o, objectLibKeyByID_ demoRegistered !! 0%Z = Some h ∧
         objectLibrary_ demoRegistered !! h = Some 1 ∧
         heap demoRegistered !! 1 = Some o ∧ getID o = 0%Z.
Proof.
  assert (H : getObjectByID 0 demoRegistered = Ok (Some 1) demoRegistered)
    by (vm_compute; reflexivity).
  split; [exact (conj demoRegistered_reachable H)|].
  exact (object_fetched_by_ID_has_that_ID demoRegistered 0%Z 1
           demoRegistered_reachable H).
Defined.

Lemma removeObjectByID_frees_that_ID_witness :
  (reachable callerOwnedArguments demoRegistered ∧
   objectLibKeyByID_ demoRegistered !! 0%Z = Some "a" ∧
   ¬ isProtected demoRegistered "a") ∧
  ∃ q s', removeObjectByID 0 demoRegistered = Ok (Some q) s' ∧
          objectLibrary_ demoRegistered !! "a" = Some q ∧
          availableObjectIDs_ s' = 0%Z :: availableObjectIDs_ demoRegistered ∧
          objectLibKeyByID_ s' !! 0%Z = None ∧
          objectLibrary_ s' !! "a" = None ∧
          getObjectByID 0 s' = Ok None s' ∧
          ¬ internalInstance s' (Some q).
Proof.
  assert (H1 : objectLibKeyByID_ demoRegistered !! 0%Z = Some "a")
    by (vm_compute; reflexivity).
  assert (H2 : ¬ isProtected demoRegistered "a").
  { intros [H|H]; vm_compute in H; discriminate. }
  split; [exact (conj demoRegistered_reachable (conj H1 H2))|].
  exact (removeObjectByID_frees_that_ID demoRegistered 0%Z "a"
           demoRegistered_reachable H1 H2).
Defined.

Lemma registered_object_found_by_ID_witness :
  (reachable callerOwnedArguments demoRegistered ∧
   ¬ internalInstance demoRegistered (Some 0) ∧
   heap demoRegistered !! 0 = Some (setID 0%Z (demoObject "a" 7)) ∧
   registerObject (Some 0) "b" false demoRegistered = Ok 1%Z demoTwoHandles ∧
   1%Z ≠ ID_UNDEFINED) ∧
  ∃ q x,
    getObjectIDByHandle "b" demoTwoHandles = Ok 1%Z demoTwoHandles ∧
    getObjectHandleByID 1 demoTwoHandles = "b" ∧
    getObjectByID 1 demoTwoHandles = Ok (Some q) demoTwoHandles ∧
    getObjectByHandle "b" demoTwoHandles = Ok (Some q) demoTwoHandles ∧
    heap demoTwoHandles !! q = Some x ∧
    getHandle x = "b" ∧ getID x = 1%Z ∧
    observe (getObjectCopyByID 1) demoTwoHandles = Some x.
Proof.
  assert (H1 : heap demoRegistered !! 0 = Some (setID 0%Z (demoObject "a" 7)))
    by (vm_compute; reflexivity).
  assert (H2 : registerObject (Some 0) "b" false demoRegistered
               = Ok 1%Z demoTwoHandles) by (vm_compute; reflexivity).
  assert (H3 : 1%Z ≠ ID_UNDEFINED) by discriminate.
  split.
  { exact (conj demoRegistered_reachable
             (conj demoRegistered_owns_0 (conj H1 (conj H2 H3)))). }
  exact (registered_object_found_by_ID demoRegistered 0
           (setID 0%Z (demoObject "a" 7)) "b" false 1%Z demoTwoHandles
           demoRegistered_reachable demoRegistered_owns_0 H1 H2 H3).
Defined.

Lemma registration_leaves_other_entries_witness :
  (heap demoRegistered !! 0 = Some (setID 0%Z (demoObject "a" 7)) ∧
   registerObject (Some 0) "b" false demoRegistered = Ok 1%Z demoTwoHandles ∧
   1%Z ≠ ID_UNDEFINED) ∧
  (∀ h', h' ≠ "b" →
         objectLibrary_ demoTwoHandles !! h'
         = objectLibrary_ demoRegistered !! h') ∧
  (∀ i, i ≠ 1%Z →
        objectLibKeyByID_ demoTwoHandles !! i
        = objectLibKeyByID_ demoRegistered !! i) ∧
  (∀ q, q ≠ 0 → q < length (heap demoRegistered) →
        heap demoTwoHandles !! q = heap demoRegistered !! q) ∧
  length (heap demoTwoHandles) = S (length (heap demoRegistered)) ∧
  undeletableObjectNames_ demoTwoHandles
  = undeletableObjectNames_ demoRegistered ∧
  userLockedObjectNames_ demoTwoHandles
  = userLockedObjectNames_ demoRegistered ∧
  copyConstructorMap_ demoTwoHandles = copyConstructorMap_ demoRegistered.
Proof.
  assert (H1 : heap demoRegistered !! 0 = Some (setID 0%Z (demoObject "a" 7)))
    by (vm_compute; reflexivity).
  assert (H2 : registerObject (Some 0) "b" false demoRegistered
               = Ok 1%Z demoTwoHandles) by (vm_compute; reflexivity).
  assert (H3 : 1%Z ≠ ID_UNDEFINED) by discriminate.
  split; [exact (conj H1 (conj H2 H3))|].
  exact (registration_leaves_other_entries demoRegistered 0
           (setID 0%Z (demoObject "a" 7)) "b" false 1%Z demoTwoHandles
           H1 H2 H3).
Defined.

Lemma second_handle_is_second_entry_witness :
  (reachable callerOwnedArguments demoCaller ∧
   ¬ internalInstance demoCaller (Some 0) ∧
   heap demoCaller !! 0 = Some (demoObject "a" 7) ∧
   "a" ≠ "" ∧ "b" ≠ "" ∧ "a" ≠ "b" ∧
   objectLibrary_ demoCaller !! "b" = None ∧
   registerObject (Some 0) "a" false demoCaller = Ok 0%Z demoRegistered ∧
   0%Z ≠ ID_UNDEFINED ∧
   registerObject (Some 0) "b" false demoRegistered = Ok 1%Z demoTwoHandles ∧
   1%Z ≠ ID_UNDEFINED) ∧
  0%Z ≠ 1%Z ∧
  ∃ q1 q2 x1 x2,
    q1 ≠ q2 ∧
    objectLibrary_ demoTwoHandles !! "a" = Some q1 ∧
    heap demoTwoHandles !! q1 = Some x1 ∧
    getHandle x1 = "a" ∧ getID x1 = 0%Z ∧
    objectLibrary_ demoTwoHandles !! "b" = Some q2 ∧
    heap demoTwoHandles !! q2 = Some x2 ∧
    getHandle x2 = "b" ∧ getID x2 = 1%Z ∧
    heap demoTwoHandles !! 0 = Some x2.
Proof.
  assert (H0 : reachable callerOwnedArguments demoCaller)
    by (apply reachable_new; repeat split).
  assert (Hown : ¬ internalInstance demoCaller (Some 0)).
  { intros (l & h & [= <-] & Hl). discriminate. }
  assert (H1 : heap demoCaller !! 0 = Some (demoObject "a" 7))
    by reflexivity.
  assert (Ha : "a" ≠ "") by discriminate.
  assert (Hb : "b" ≠ "") by discriminate.
  assert (Hab : "a" ≠ "b") by discriminate.
  assert (Hn : objectLibrary_ demoCaller !! "b" = None) by reflexivity.
  assert (H2 : registerObject (Some 0) "a" false demoCaller
               = Ok 0%Z demoRegistered) by (vm_compute; reflexivity).
  assert (H3 : 0%Z ≠ ID_UNDEFINED) by discriminate.
  assert (H4 : registerObject (Some 0) "b" false demoRegistered
               = Ok 1%Z demoTwoHandles) by (vm_compute; reflexivity).
  assert (H5 : 1%Z ≠ ID_UNDEFINED) by discriminate.
  split.
  { exact (conj H0 (conj Hown (conj H1 (conj Ha (conj Hb (conj Hab
             (conj Hn (conj H2 (conj H3 (conj H4 H5)))))))))). }
  exact (second_handle_is_second_entry demoCaller 0 (demoObject "a" 7)
           "a" "b" false false 0%Z demoRegistered 1%Z demoTwoHandles
           H0 Hown H1 Ha Hb Hab Hn H2 H3 H4 H5).
Defined.

Lemma registerObject_succeeds_witness :
  (storedValid demoGuardedPair ∧
   heap demoGuardedPair !! 1
   = Some (mkManagedObject "b" 1 "ObjectAttributes" 8) ∧
   is_Some (copyConstructorMap_ demoGuardedPair
              !! getClassKey (mkManagedObject "b" 1 "ObjectAttributes" 8)) ∧
   resolvedHandle (mkManagedObject "b" 1 "ObjectAttributes" 8) "a" ≠ "" ∧
   finalizeAccepts (mkManagedObject "b" 1 "ObjectAttributes" 8)
     (resolvedHandle (mkManagedObject "b" 1 "ObjectAttributes" 8) "a")
     false = true) ∧
  ∃ id s1 x,
    registerObject (Some 1) "a" false demoGuardedPair = Ok id s1 ∧
    objectLibrary_ s1
      !! resolvedHandle (mkManagedObject "b" 1 "ObjectAttributes" 8) "a"
    = Some (length (heap demoGuardedPair)) ∧
    heap s1 !! length (heap demoGuardedPair) = Some x ∧
    heap s1 !! 1 = Some x ∧
    x = setID id
          (setHandle
             (resolvedHandle (mkManagedObject "b" 1 "ObjectAttributes" 8) "a")
             (mkManagedObject "b" 1 "ObjectAttributes" 8)) ∧
    undeletableObjectNames_ s1 = undeletableObjectNames_ demoGuardedPair ∧
    userLockedObjectNames_ s1 = userLockedObjectNames_ demoGuardedPair.
Proof.
  assert (H0 : storedValid demoGuardedPair).
  { unfold storedValid. apply (bool_decide_unpack _). vm_compute.
    reflexivity. }
  assert (H1 : heap demoGuardedPair !! 1
               = Some (mkManagedObject "b" 1 "ObjectAttributes" 8))
    by (vm_compute; reflexivity).
  assert (H2 : is_Some (copyConstructorMap_ demoGuardedPair
                 !! getClassKey (mkManagedObject "b" 1 "ObjectAttributes" 8)))
    by (exists "ObjectAttributes"; vm_compute; reflexivity).
  assert (H3 : resolvedHandle (mkManagedObject "b" 1 "ObjectAttributes" 8) "a"
               ≠ "") by discriminate.
  assert (H4 : finalizeAccepts (mkManagedObject "b" 1 "ObjectAttributes" 8)
                 (resolvedHandle
                    (mkManagedObject "b" 1 "ObjectAttributes" 8) "a")
                 false = true) by reflexivity.
  split; [exact (conj H0 (conj H1 (conj H2 (conj H3 H4))))|].
  exact (registerObject_succeeds demoGuardedPair 1
           (mkManagedObject "b" 1 "ObjectAttributes" 8) "a" false
           H0 H1 H2 H3 H4).
Defined.

Lemma registerObject_unknown_class_faults_witness :
  (storedValid demoUnknownClass ∧
   heap demoUnknownClass !! 0
   = Some (mkManagedObject "s" ID_UNDEFINED "SceneAttributes" 0) ∧
   copyConstructorMap_ demoUnknownClass !! "SceneAttributes" = None ∧
   resolvedHandle (mkManagedObject "s" ID_UNDEFINED "SceneAttributes" 0) ""
   ≠ "" ∧
   finalizeAccepts (mkManagedObject "s" ID_UNDEFINED "SceneAttributes" 0)
     (resolvedHandle (mkManagedObject "s" ID_UNDEFINED "SceneAttributes" 0)
        "") false = true) ∧
  registerObject (Some 0) "" false demoUnknownClass
  = Fault NullCopyConstructor.
Proof.
  assert (H0 : storedValid demoUnknownClass) by (apply map_Forall_empty).
  assert (H1 : heap demoUnknownClass !! 0
               = Some (mkManagedObject "s" ID_UNDEFINED "SceneAttributes" 0))
    by reflexivity.
  assert (H2 : copyConstructorMap_ demoUnknownClass !! "SceneAttributes"
               = None) by reflexivity.
  assert (H3 : resolvedHandle
                 (mkManagedObject "s" ID_UNDEFINED "SceneAttributes" 0) ""
               ≠ "") by discriminate.
  assert (H4 : finalizeAccepts
                 (mkManagedObject "s" ID_UNDEFINED "SceneAttributes" 0)
                 (resolvedHandle
                    (mkManagedObject "s" ID_UNDEFINED "SceneAttributes" 0) "")
                 false = true) by reflexivity.
  split; [exact (conj H0 (conj H1 (conj H2 (conj H3 H4))))|].
  exact (registerObject_unknown_class_faults demoUnknownClass 0
           (mkManagedObject "s" ID_UNDEFINED "SceneAttributes" 0) "" false
           H0 H1 H2 H3 H4).
Defined.

Lemma storedValid_demoRegistered : storedValid demoRegistered.
Proof.
  unfold storedValid. apply (bool_decide_unpack _). vm_compute. exact I.
Defined.

Lemma copies_are_new_instances_witness :
  (storedValid demoRegistered ∧
   getObjectCopyByHandle "a" demoRegistered
   = Ok (Some 2) (after (getObjectCopyByHandle "a") demoRegistered) ∧
   getObjectCopyByHandle "a" (after (getObjectCopyByHandle "a") demoRegistered)
   = Ok (Some 3)
       (after (getObjectCopyByHandle "a")
          (after (getObjectCopyByHandle "a") demoRegistered))) ∧
  2 ≠ 3 ∧
  heap (after (getObjectCopyByHandle "a")
          (after (getObjectCopyByHandle "a") demoRegistered)) !! 2
  = heap (after (getObjectCopyByHandle "a")
            (after (getObjectCopyByHandle "a") demoRegistered)) !! 3 ∧
  is_Some (heap (after (getObjectCopyByHandle "a")
                   (after (getObjectCopyByHandle "a") demoRegistered)) !! 2) ∧
  ¬ internalInstance
      (after (getObjectCopyByHandle "a")
         (after (getObjectCopyByHandle "a") demoRegistered)) (Some 2) ∧
  ¬ internalInstance
      (after (getObjectCopyByHandle "a")
         (after (getObjectCopyByHandle "a") demoRegistered)) (Some 3) ∧
  objectLibrary_ (after (getObjectCopyByHandle "a")
                    (after (getObjectCopyByHandle "a") demoRegistered))
  = objectLibrary_ demoRegistered.
Proof.
  assert (H1 : getObjectCopyByHandle "a" demoRegistered
               = Ok (Some 2) (after (getObjectCopyByHandle "a") demoRegistered))
    by (vm_compute; reflexivity).
  assert (H2 : getObjectCopyByHandle "a"
                 (after (getObjectCopyByHandle "a") demoRegistered)
               = Ok (Some 3)
                   (after (getObjectCopyByHandle "a")
                      (after (getObjectCopyByHandle "a") demoRegistered)))
    by (vm_compute; reflexivity).
  split; [exact (conj storedValid_demoRegistered (conj H1 H2))|].
  exact (copies_are_new_instances demoRegistered "a" 2 _ 3 _
           storedValid_demoRegistered H1 H2).
Defined.

Lemma write_through_internal_instance_witness :
  (getObjectByHandle "a" demoRegistered = Ok (Some 1) demoRegistered ∧
   1 < length (heap demoRegistered) ∧
   copyConstructorMap_ demoRegistered !! getClassKey (demoObject "z" 5)
   = Some "ObjectAttributes") ∧
  fetchesAs "a" (mutate 1 (demoObject "z" 5) demoRegistered) 1
    (demoObject "z" 5).
Proof.
  assert (H1 : getObjectByHandle "a" demoRegistered
               = Ok (Some 1) demoRegistered) by (vm_compute; reflexivity).
  assert (H2 : 1 < length (heap demoRegistered)) by (vm_compute; lia).
  assert (H3 : copyConstructorMap_ demoRegistered
                 !! getClassKey (demoObject "z" 5) = Some "ObjectAttributes")
    by (vm_compute; reflexivity).
  split; [exact (conj H1 (conj H2 H3))|].
  exact (write_through_internal_instance demoRegistered "a" 1
           (demoObject "z" 5) "ObjectAttributes" H1 H2 H3).
Defined.

Lemma removeObjectsBySubstring_twice_witness :
  (storedValid demoGuardedFurniture ∧
   removeObjectsBySubstring "chair" true demoGuardedFurniture
   = Ok [3] (after (removeObjectsBySubstring "chair" true)
               demoGuardedFurniture)) ∧
  removeObjectsBySubstring "chair" true
    (after (removeObjectsBySubstring "chair" true) demoGuardedFurniture)
  = Ok [] (after (removeObjectsBySubstring "chair" true)
             demoGuardedFurniture).
Proof.
  assert (H0 : storedValid demoGuardedFurniture).
  { unfold storedValid. apply (bool_decide_unpack _). vm_compute. exact I. }
  assert (H1 : removeObjectsBySubstring "chair" true demoGuardedFurniture
               = Ok [3] (after (removeObjectsBySubstring "chair" true)
                           demoGuardedFurniture))
    by (vm_compute; reflexivity).
  split; [exact (conj H0 H1)|].
  exact (removeObjectsBySubstring_twice demoGuardedFurniture "chair" true
           [3] _ H0 H1).
Defined.

Lemma removeAllObjects_leaves_protected_only_witness :
  (reachable callerOwnedArguments demoGuardedPair ∧
   removeAllObjects demoGuardedPair
   = Ok [3] (after removeAllObjects demoGuardedPair)) ∧
  (∀ h, objectLibrary_ (after removeAllObjects demoGuardedPair) !! h
        = if decide (isProtected demoGuardedPair h)
          then objectLibrary_ demoGuardedPair !! h else None) ∧
  (∀ i h, objectLibKeyByID_ (after removeAllObjects demoGuardedPair) !! i
          = Some h ↔
          objectLibKeyByID_ demoGuardedPair !! i = Some h ∧
          isProtected demoGuardedPair h) ∧
  ((∀ h, is_Some (objectLibrary_ demoGuardedPair !! h) →
         ¬ isProtected demoGuardedPair h) →
   objectLibrary_ (after removeAllObjects demoGuardedPair) = ∅ ∧
   objectLibKeyByID_ (after removeAllObjects demoGuardedPair) = ∅).
Proof.
  assert (H1 : removeAllObjects demoGuardedPair
               = Ok [3] (after removeAllObjects demoGuardedPair))
    by (vm_compute; reflexivity).
  split; [exact (conj demoGuardedPair_reachable H1)|].
  exact (removeAllObjects_leaves_protected_only demoGuardedPair [3] _
           demoGuardedPair_reachable H1).
Defined.

Lemma create_with_refused_registration_witness :
  (initNewObjectInternal "invalid_chair" false
   = Some (demoObject "invalid_chair" 0) ∧
   (getHandle (demoObject "invalid_chair" 0) = "" ∨
    finalizeAccepts (demoObject "invalid_chair" 0)
      (getHandle (demoObject "invalid_chair" 0)) false = false)) ∧
  createDefaultObject "invalid_chair" true demoCaller
  = Ok None
      (withHeap (fun hp => hp ++ [demoObject "invalid_chair" 0]) demoCaller).
Proof.
  destruct (@create_with_refused_registration nat demoFamily) as (R1 & _).
  assert (H1 : initNewObjectInternal "invalid_chair" false
               = Some (demoObject "invalid_chair" 0)) by reflexivity.
  assert (H2 : getHandle (demoObject "invalid_chair" 0) = "" ∨
               finalizeAccepts (demoObject "invalid_chair" 0)
                 (getHandle (demoObject "invalid_chair" 0)) false = false)
    by (right; reflexivity).
  split; [exact (conj H1 H2)|].
  exact (R1 "invalid_chair" demoCaller (demoObject "invalid_chair" 0) H1 H2).
Defined.

Lemma createObjectFromJSONFile_unchecked_build_witness :
  (@verifyLoadDocument nat demoSparseFamily "chair.json" = Some 10 ∧
   @buildObjectFromJSONDoc nat demoSparseFamily "chair.json" 10 = None) ∧
  createObjectFromJSONFile (family := demoSparseFamily) "chair.json" false
    demoCaller = Ok None demoCaller ∧
  createObjectFromJSONFile (family := demoSparseFamily) "chair.json" true
    demoCaller = Fault NullDereference ∧
  (∀ reg, exec (createObjectFromJSONFile (family := demoSparseFamily)
                  "chair.json" reg) demoCaller
          = if reg then None else Some demoCaller).
Proof.
  assert (H1 : @verifyLoadDocument nat demoSparseFamily "chair.json"
               = Some 10) by reflexivity.
  assert (H2 : @buildObjectFromJSONDoc nat demoSparseFamily "chair.json" 10
               = None) by reflexivity.
  split; [exact (conj H1 H2)|].
  exact (@createObjectFromJSONFile_unchecked_build nat demoSparseFamily
           "chair.json" 10 demoCaller H1 H2).
Defined.

Lemma constructFromDefault_behaviour_witness :
  constructFromDefault "x" (clearDefaultObject demoDefaulted)
  = Ok None (clearDefaultObject demoDefaulted) ∧
  (heap (registry demoDefaulted) !! 0 = Some (demoObject "a" 7) ∧
   copyConstructorMap_ (registry demoDefaulted)
     !! getClassKey (demoObject "a" 7) = Some "ObjectAttributes") ∧
  ∃ r d',
    constructFromDefault "x" (setDefaultObject (Some 0) demoDefaulted)
    = Ok (Some r) d' ∧
    r ≠ 0 ∧
    heap (registry d') !! r = Some (setHandle "x" (demoObject "a" 7)) ∧
    heap (registry d') !! 0 = Some (demoObject "a" 7) ∧
    defaultObj_ d' = Some 0 ∧
    objectLibrary_ (registry d') = objectLibrary_ (registry demoDefaulted) ∧
    objectLibKeyByID_ (registry d')
    = objectLibKeyByID_ (registry demoDefaulted) ∧
    availableObjectIDs_ (registry d')
    = availableObjectIDs_ (registry demoDefaulted) ∧
    (storedValid (registry demoDefaulted) →
     ¬ internalInstance (registry d') (Some r)).
Proof.
  destruct (@constructFromDefault_behaviour nat) as (D1 & D2).
  assert (H1 : heap (registry demoDefaulted) !! 0 = Some (demoObject "a" 7))
    by reflexivity.
  assert (H2 : copyConstructorMap_ (registry demoDefaulted)
                 !! getClassKey (demoObject "a" 7) = Some "ObjectAttributes")
    by reflexivity.
  split; [apply D1|]. split; [exact (conj H1 H2)|].
  exact (D2 demoDefaulted 0 (demoObject "a" 7) "ObjectAttributes" "x" H1 H2).
Defined.

Lemma constructFromDefault_twice_witness :
  (constructFromDefault "x" demoDefaulted
   = Ok (Some 1)
       (mkDefaultedContainer
          (withHeap (fun hp => hp ++ [demoObject "x" 7]) demoCaller)
          (Some 0)) ∧
   constructFromDefault "y"
     (mkDefaultedContainer
        (withHeap (fun hp => hp ++ [demoObject "x" 7]) demoCaller) (Some 0))
   = Ok (Some 2)
       (mkDefaultedContainer
          (withHeap (fun hp => hp ++ [demoObject "y" 7])
             (withHeap (fun hp => hp ++ [demoObject "x" 7]) demoCaller))
          (Some 0))) ∧
  1 ≠ 2 ∧
  ∃ o,
    heap (withHeap (fun hp => hp ++ [demoObject "y" 7])
            (withHeap (fun hp => hp ++ [demoObject "x" 7]) demoCaller)) !! 1
    = Some (setHandle "x" o) ∧
    heap (withHeap (fun hp => hp ++ [demoObject "y" 7])
            (withHeap (fun hp => hp ++ [demoObject "x" 7]) demoCaller)) !! 2
    = Some (setHandle "y" o).
Proof.
  assert (H1 : constructFromDefault "x" demoDefaulted
               = Ok (Some 1)
                   (mkDefaultedContainer
                      (withHeap (fun hp => hp ++ [demoObject "x" 7])
                         demoCaller) (Some 0)))
    by (vm_compute; reflexivity).
  assert (H2 : constructFromDefault "y"
                 (mkDefaultedContainer
                    (withHeap (fun hp => hp ++ [demoObject "x" 7]) demoCaller)
                    (Some 0))
               = Ok (Some 2)
                   (mkDefaultedContainer
                      (withHeap (fun hp => hp ++ [demoObject "y" 7])
                         (withHeap (fun hp => hp ++ [demoObject "x" 7])
                            demoCaller)) (Some 0)))
    by (vm_compute; reflexivity).
  split; [exact (conj H1 H2)|].
  exact (constructFromDefault_twice demoDefaulted "x" 1 _ "y" 2 _ H1 H2).
Defined.

Lemma default_object_is_shared_witness :
  (0 < length (heap (registry demoDefaulted)) ∧
   copyConstructorMap_ (registry demoDefaulted)
     !! getClassKey (demoObject "edited" 9) = Some "ObjectAttributes") ∧
  ∃ r d',
    constructFromDefault "x"
      (mkDefaultedContainer
         (mutate 0 (demoObject "edited" 9)
            (registry (setDefaultObject (Some 0) demoDefaulted)))
         (defaultObj_ (setDefaultObject (Some 0) demoDefaulted)))
    = Ok (Some r) d' ∧
    heap (registry d') !! r = Some (setHandle "x" (demoObject "edited" 9)).
Proof.
  assert (H1 : 0 < length (heap (registry demoDefaulted))) by (simpl; lia).
  assert (H2 : copyConstructorMap_ (registry demoDefaulted)
                 !! getClassKey (demoObject "edited" 9)
               = Some "ObjectAttributes") by reflexivity.
  split; [exact (conj H1 H2)|].
  exact (default_object_is_shared demoDefaulted 0 (demoObject "edited" 9)
           "ObjectAttributes" "x" H1 H2).
Defined.

Lemma setFileDirectoryFromHandle_behaviour_witness :
  (heap demoFileContainer !! 0
   = Some (mkManagedObject "data/objects/chair.json" ID_UNDEFINED
             "ObjectAttributes" "") ∧
   "data/objects/chair.json" = ("data/objects" ++ "/" ++ "chair.json")%string ∧
   ¬ isSubstringOf "/" "chair.json") ∧
  setFileDirectoryFromHandle (Some 0) demoFileContainer
  = Ok tt
      (withHeap
         (fun hp =>
            <[0 := mkManagedObject "data/objects/chair.json" ID_UNDEFINED
                     "ObjectAttributes" "data/objects"]> hp)
         demoFileContainer) ∧
  (heap demoFileContainer !! 1
   = Some (mkManagedObject "chair" ID_UNDEFINED "ObjectAttributes" "") ∧
   ¬ isSubstringOf "/" "chair") ∧
  setFileDirectoryFromHandle (Some 1) demoFileContainer
  = Ok tt demoFileContainer.
Proof.
  destruct (@setFileDirectoryFromHandle_behaviour string demoFileFields)
    as (F1 & F2).
  assert (H1 : ¬ isSubstringOf "/" "chair.json")
    by (apply find_last_of_None; reflexivity).
  assert (H2 : ¬ isSubstringOf "/" "chair")
    by (apply find_last_of_None; reflexivity).
  split; [split; [reflexivity|split; [reflexivity|exact H1]]|].
  split.
  { exact (F1 demoFileContainer 0
             (mkManagedObject "data/objects/chair.json" ID_UNDEFINED
                "ObjectAttributes" ""%string)
             "data/objects"%string "chair.json"%string eq_refl eq_refl H1). }
  split; [split; [reflexivity|exact H2]|].
  exact (F2 demoFileContainer 1
           (mkManagedObject "chair" ID_UNDEFINED "ObjectAttributes" ""%string)
           eq_refl H2).
Defined.

